(** * Library Reconciliation Engine: the audiobook scripts, embedded and verified

  Shallow embedding of the three audiobook scripts of the repository:

  - [liberate-update-metadata.py]                     (module [Liberate])
  - [ipod-classic/audiobooks-update-metadata-from-mp3.py] (module [Organizer])
  - [ipod-classic/delete-audiobooks-in-music-path.py] (module [Cleaner])

  Python [str] values are Rocq [string]s, one [ascii] per code point, so
  the model covers the strings of code points 0..255; on that range the
  character classes below are CPython's ([str.isspace], [str.isalnum],
  [str.lower] and the [\w], [\s] classes of [re]), and [str.lower] works
  one character at a time (its one rule that looks at the neighbours of a
  character is for the Greek capital sigma, which is outside the range).  A Python [dict] whose iteration
  order is observed is an association list in insertion order; a [set]
  of strings is a [gset string]; a tag container is a [gmap] from frame
  hash keys to frames. *)

From Stdlib Require Import Ascii String NArith DecimalString DecimalNat.
From stdpp Require Import gmap strings list.

(* ===================================================================== *)
(** * Python's built-in string and path operations *)
(* ===================================================================== *)

Module PyStr.

Definition ord (c : ascii) : N := N_of_ascii c.
Definition chr (n : N) : ascii := ascii_of_N n.

Definition in_range (lo hi n : N) : bool := ((lo <=? n) && (n <=? hi))%N.

(** [str.isspace], also the class [\s] of [re] on [str] patterns. *)
Definition isspace (c : ascii) : bool :=
  let n := ord c in
  in_range 9 13 n || in_range 28 32 n || (n =? 133)%N || (n =? 160)%N.

(** [str.isalnum] on 0..255: letters, digits and the numeric signs. *)
Definition isalnum (c : ascii) : bool :=
  let n := ord c in
  in_range 48 57 n || in_range 65 90 n || in_range 97 122 n
  || (n =? 170)%N || in_range 178 179 n || (n =? 181)%N
  || in_range 185 186 n || in_range 188 190 n
  || in_range 192 214 n || in_range 216 246 n || in_range 248 255 n.

(** The class [\w] of [re]: alphanumeric or underscore. *)
Definition isword (c : ascii) : bool := isalnum c || (ord c =? 95)%N.

(** Code points that [str.lower] moves (A-Z and the Latin-1 capitals). *)
Definition has_lower (c : ascii) : bool :=
  let n := ord c in
  in_range 65 90 n || in_range 192 214 n || in_range 216 222 n.

Definition lower_char (c : ascii) : ascii :=
  if has_lower c then chr (ord c + 32) else c.

(** [s.lower()] on a string of code points 0..255. *)
Fixpoint lower (s : string) : string :=
  match s with
  | EmptyString => EmptyString
  | String c s' => String (lower_char c) (lower s')
  end.

Fixpoint filter_chars (keep : ascii -> bool) (s : string) : string :=
  match s with
  | EmptyString => EmptyString
  | String c s' =>
      if keep c then String c (filter_chars keep s') else filter_chars keep s'
  end.

Fixpoint all_chars (p : ascii -> bool) (s : string) : bool :=
  match s with
  | EmptyString => true
  | String c s' => p c && all_chars p s'
  end.

(** [re.sub(r'[^\w\s]', '', s)] *)
Definition re_sub_nonword_nonspace (s : string) : string :=
  filter_chars (fun c => isword c || isspace c) s.

(** [s.replace(c, '')] for a one-character [c]. *)
Definition remove_char (c : ascii) (s : string) : string :=
  filter_chars (fun x => negb (Ascii.eqb x c)) s.

(** Truth value of a string: [if s:]. *)
Definition truthy (s : string) : bool :=
  match s with EmptyString => false | _ => true end.

Definition flush (cur : string) : list string :=
  if truthy cur then [cur] else [].

(** [s.split()]: the maximal runs of non-whitespace characters. *)
Fixpoint split_ws_from (cur s : string) : list string :=
  match s with
  | EmptyString => flush cur
  | String c s' =>
      if isspace c then flush cur ++ split_ws_from EmptyString s'
      else split_ws_from (cur +:+ String c EmptyString) s'
  end.

Definition split_ws (s : string) : list string := split_ws_from EmptyString s.

(** [sep.join(parts)] *)
Definition join (sep : string) (parts : list string) : string :=
  String.concat sep parts.

(** [s.split(sep)] for a one-character [sep]: never the empty list. *)
Fixpoint split_on (sep : ascii) (s : string) : list string :=
  match s with
  | EmptyString => [EmptyString]
  | String c s' =>
      if Ascii.eqb c sep then EmptyString :: split_on sep s'
      else match split_on sep s' with
           | [] => [String c EmptyString]
           | t :: ts => String c t :: ts
           end
  end.

Fixpoint lstrip (s : string) : string :=
  match s with
  | EmptyString => EmptyString
  | String c s' => if isspace c then lstrip s' else s
  end.

Fixpoint rstrip_by (p : ascii -> bool) (s : string) : string :=
  match s with
  | EmptyString => EmptyString
  | String c s' =>
      match rstrip_by p s' with
      | EmptyString => if p c then EmptyString else String c EmptyString
      | r => String c r
      end
  end.

(** [s.strip()] *)
Definition strip (s : string) : string := rstrip_by isspace (lstrip s).

(** [needle in hay] on strings. *)
Fixpoint contains (needle hay : string) : bool :=
  String.prefix needle hay
  || match hay with
     | EmptyString => false
     | String _ hay' => contains needle hay'
     end.

Definition startswith (s pre : string) : bool := String.prefix pre s.

(** [s.endswith(suf)] *)
Fixpoint endswith (s suf : string) : bool :=
  String.eqb s suf
  || match s with
     | EmptyString => false
     | String _ s' => endswith s' suf
     end.

Definition is_slash (c : ascii) : bool := Ascii.eqb c "/".
Definition is_dot (c : ascii) : bool := Ascii.eqb c ".".

(** [(p[:i], p[i:])] for [i = p.rfind('/') + 1], as [posixpath] computes
    it in [split], [basename] and [dirname]. *)
Fixpoint cut_last_slash (p : string) : string * string :=
  match p with
  | EmptyString => (EmptyString, EmptyString)
  | String c p' =>
      let '(h, t) := cut_last_slash p' in
      if truthy h then (String c h, t)
      else if is_slash c then (String c EmptyString, t)
      else (EmptyString, String c t)
  end.

(** [os.path.basename] *)
Definition basename (p : string) : string := snd (cut_last_slash p).

(** [os.path.dirname] *)
Definition dirname (p : string) : string :=
  let head := fst (cut_last_slash p) in
  if truthy head && negb (all_chars is_slash head)
  then rstrip_by is_slash head else head.

(** [os.path.join(a, b)] *)
Definition path_join (a b : string) : string :=
  if startswith b "/" then b
  else if negb (truthy a) || endswith a "/" then a +:+ b
  else a +:+ "/" +:+ b.

(** [(s[:d], s[d:])] for [d = s.rfind('.')], [None] without a dot. *)
Fixpoint cut_last_dot (s : string) : option (string * string) :=
  match s with
  | EmptyString => None
  | String c s' =>
      match cut_last_dot s' with
      | Some (r, e) => Some (String c r, e)
      | None => if is_dot c then Some (EmptyString, s) else None
      end
  end.

(** [os.path.splitext]: the extension starts at the last dot of the last
    path component, leading dots of that component not counting. *)
Definition splitext (p : string) : string * string :=
  let '(head, name) := cut_last_slash p in
  match cut_last_dot name with
  | Some (r, e) => if all_chars is_dot r then (p, EmptyString) else (head +:+ r, e)
  | None => (p, EmptyString)
  end.

(** [str(n)] for a non-negative integer. *)
Definition str_of_nat (n : nat) : string :=
  NilEmpty.string_of_uint (Nat.to_uint n).

End PyStr.

(* ===================================================================== *)
(** * Python control flow: mutable state and exceptions *)
(* ===================================================================== *)

Module Py.

Inductive exn : Type :=
| ID3NoHeaderError   (* mutagen.id3.ID3NoHeaderError *)
| Error.             (* any other [Exception] *)

Inductive res (A : Type) : Type :=
| Ret (a : A)
| Raise (e : exn).
Arguments Ret {A} a.
Arguments Raise {A} e.

(** A statement over the state [S]: it ends normally with a value or
    raises, and in both cases leaves a state behind. *)
Definition M (S A : Type) : Type := S -> res A * S.

Definition ret {S A} (a : A) : M S A := fun s => (Ret a, s).
Definition raise {S A} (e : exn) : M S A := fun s => (Raise e, s).

Definition bind {S A B} (m : M S A) (k : A -> M S B) : M S B :=
  fun s =>
    match m s with
    | (Ret a, s') => k a s'
    | (Raise e, s') => (Raise e, s')
    end.

(** [try: body  except ...: handler]; the handler sees the state the body
    left and may re-raise. *)
Definition try_except {S A} (body : M S A) (handler : exn -> M S A) : M S A :=
  fun s =>
    match body s with
    | (Ret a, s') => (Ret a, s')
    | (Raise e, s') => handler e s'
    end.

Definition get {S} : M S S := fun s => (Ret s, s).
Definition modify {S} (f : S -> S) : M S unit := fun s => (Ret tt, f s).

(** Runs a statement of a component of the state. *)
Definition zoom {S T A} (proj : S -> T) (upd : T -> S -> S) (m : M T A) : M S A :=
  fun s => let '(r, t) := m (proj s) in (r, upd t s).

(** [for x in xs: body x] *)
Fixpoint for_each {S X} (xs : list X) (body : X -> M S unit) : M S unit :=
  match xs with
  | [] => ret tt
  | x :: xs' => bind (body x) (fun _ => for_each xs' body)
  end.

Definition raised {A} (r : res A) : bool :=
  match r with Ret _ => false | Raise _ => true end.

End Py.

Notation "x <- m ;; k" := (Py.bind m (fun x => k))
(at level 62, m at next level, right associativity, only parsing).
Notation "m ;;; k" := (Py.bind m (fun _ => k))
(at level 62, right associativity, only parsing).

(* ===================================================================== *)
(** * Insertion-ordered dictionaries *)
(* ===================================================================== *)

Module PyDict.

(** A [dict] with [str] keys, as the list of its items in iteration
    (insertion) order. *)
Definition dict (V : Type) : Type := list (string * V).

(** [d[k]], [None] standing for [KeyError]. *)
Fixpoint get {V} (k : string) (d : dict V) : option V :=
  match d with
  | [] => None
  | (k', v) :: d' => if String.eqb k' k then Some v else get k d'
  end.

(** [d[k] = v]: an existing key keeps its place, a new key goes last. *)
Fixpoint set {V} (k : string) (v : V) (d : dict V) : dict V :=
  match d with
  | [] => [(k, v)]
  | (k', v') :: d' =>
      if String.eqb k' k then (k', v) :: d' else (k', v') :: set k v d'
  end.

Definition keys {V} (d : dict V) : list string := map fst d.

(** Keys are unique in every dictionary built with [set]. *)
Definition wf {V} (d : dict V) : Prop := NoDup (keys d).

End PyDict.

(* ===================================================================== *)
(** * The catalog file *)
(* ===================================================================== *)

Module Catalog.

(** One row of [csv.DictReader] over the library export. *)
Record row : Type := Row {
  Title : string;
  Authors : string;
  Narrators : string;
  Series_Names : string;
  Series_Order : string
}.

End Catalog.

(* ===================================================================== *)
(** * Tag containers (mutagen's [ID3]) *)
(* ===================================================================== *)

Module Mutagen.

(** The model stops at mutagen's interface: a container is the set of
    frames the scripts put into it, and a file is loaded with the frames
    that the last [save] wrote into it. *)

(** A frame is a text frame ([TIT2], [TPE1], ...) or any other frame, kept
    as its hash key (["CHAP:ch0"], ["APIC:cover"], ...) and the bytes it is
    written with. *)
Inductive frame : Type :=
| TextFrame (id : string) (encoding : N) (text : list string)
| OtherFrame (hash_key : string) (data : list Byte.byte).

Definition HashKey (f : frame) : string :=
  match f with
  | TextFrame id _ _ => id
  | OtherFrame k _ => k
  end.

(** The container: frames by hash key. *)
Abbreviation ID3 := (gmap string frame).

(** Every frame is stored under its own hash key. *)
Definition wf (tags : ID3) : Prop :=
  forall k f, tags !! k = Some f -> HashKey f = k.

(** [tags.add(frame)] *)
Definition add (f : frame) (tags : ID3) : ID3 := <[HashKey f := f]> tags.

(** [str(frame)] of a text frame: its values joined by NUL. *)
Definition text_str (text : list string) : string :=
  PyStr.join (String Ascii.zero EmptyString) text.

(** Whether [save] writes the frame: it leaves out a text frame whose
    [str] is empty ([save_frame] in mutagen's [id3/_tags.py]). *)
Definition is_written (f : frame) : bool :=
  match f with
  | TextFrame _ _ text => PyStr.truthy (text_str text)
  | OtherFrame _ _ => true
  end.

(** The frames of [tags] that [tags.save()] writes. *)
Definition saved (tags : ID3) : ID3 :=
  filter (fun item => is_written (snd item) = true) tags.

(** [bool(tags)]: a container without frames is false. *)
Definition truthy (tags : ID3) : bool := negb (bool_decide (tags = ∅)).

Definition opt_truthy (tags : option ID3) : bool :=
  match tags with Some t => truthy t | None => false end.

Definition TIT2 (text : string) : frame := TextFrame "TIT2" 3 [text].
Definition TPE1 (text : string) : frame := TextFrame "TPE1" 3 [text].
Definition TPE2 (text : string) : frame := TextFrame "TPE2" 3 [text].
Definition TALB (text : string) : frame := TextFrame "TALB" 3 [text].
Definition TCON (text : string) : frame := TextFrame "TCON" 3 [text].
Definition TCOM (text : string) : frame := TextFrame "TCOM" 3 [text].
Definition TMED (text : string) : frame := TextFrame "TMED" 3 [text].
Definition TCMP (text : string) : frame := TextFrame "TCMP" 3 [text].

(** [str(tags.get(key, [default])[0])]; [None] is the [IndexError] of a
    text frame without values (or the [TypeError] of another frame). *)
Definition first_text (tags : ID3) (key default : string) : option string :=
  match tags !! key with
  | None => Some default
  | Some (TextFrame _ _ (t :: _)) => Some t
  | Some _ => None
  end.

(** The keys of [EasyID3] that the scripts assign. *)
Inductive easy_key : Type :=
| title | artist | albumartist | album | genre | composer.

Definition easy_frame_id (k : easy_key) : string :=
  match k with
  | title => "TIT2"
  | artist => "TPE1"
  | albumartist => "TPE2"
  | album => "TALB"
  | genre => "TCON"
  | composer => "TCOM"
  end.

(** [audio[k] = value] on an [EasyID3]: the frame of [k] becomes the
    UTF-8 text frame with the one value [value]. *)
Definition easy_set (k : easy_key) (value : string) (tags : ID3) : ID3 :=
  <[easy_frame_id k := TextFrame (easy_frame_id k) 3 [value]]> tags.

Definition is_chapter_key (key : string) : bool :=
  PyStr.startswith key "CHAP" || PyStr.startswith key "CTOC".

End Mutagen.

(* ===================================================================== *)
(** * The file system the scripts act on *)
(* ===================================================================== *)

Module FS.
Import Py PyStr.

(** A path names a directory or a file with or without a tag container.
    Paths are compared as strings. *)
Inductive node : Type :=
| Dir
| File (tags : option Mutagen.ID3).

Record world : Type := World {
  nodes : gmap string node;
  (** number of library and system calls made so far *)
  clock : nat;
  (** which of these calls fail (I/O error, permissions, damaged data) *)
  fails : nat -> bool;
  (** whether [mutagen.File] recognises the file at a path *)
  recognised : string -> bool;
  (** the [shutil.copy2] calls that wrote a file, oldest first:
      source, destination written, destination existed before *)
  copies : list (string * string * bool)
}.

Definition set_nodes (f : gmap string node -> gmap string node) (w : world) : world :=
  World (f (nodes w)) (clock w) (fails w) (recognised w) (copies w).

Definition bump (w : world) : world :=
  World (nodes w) (S (clock w)) (fails w) (recognised w) (copies w).

(** Every call that can fail takes one tick of the clock. *)
Definition tick : M world unit :=
  fun w => if fails w (clock w) then (Raise Error, bump w) else (Ret tt, bump w).

Definition log_copy (src dst : string) (existed : bool) : M world unit :=
  modify (fun w =>
    World (nodes w) (clock w) (fails w) (recognised w)
          (copies w ++ [(src, dst, existed)])).

(** [os.path.exists(p)] *)
Definition path_exists (w : world) (p : string) : bool :=
  bool_decide (is_Some (nodes w !! p)).

(** [os.makedirs(p, exist_ok=True)] *)
Definition makedirs (p : string) : M world unit :=
  tick ;;;
  w <- get ;;
  match nodes w !! p with
  | Some (File _) => raise Error
  | _ => modify (set_nodes (insert p Dir))
  end.

(** [shutil.copy2(src, dst)]: into [dst], or under the name of [src] into
    the directory [dst]; the tag container travels with the content. *)
Definition copy2 (src dst : string) : M world unit :=
  tick ;;;
  w <- get ;;
  match nodes w !! src with
  | Some (File t) =>
      let target :=
        match nodes w !! dst with
        | Some Dir => path_join dst (basename src)
        | _ => dst
        end in
      if bool_decide (target = src) then raise Error
      else match nodes w !! target with
           | Some Dir => raise Error
           | _ =>
               log_copy src target (path_exists w target) ;;;
               modify (set_nodes (insert target (File t)))
           end
  | _ => raise Error
  end.

(** [ID3(p)] and [EasyID3(p)]: the container of the file at [p]. *)
Definition id3_load (p : string) : M world Mutagen.ID3 :=
  tick ;;;
  w <- get ;;
  match nodes w !! p with
  | Some (File (Some tags)) => ret tags
  | Some (File None) => raise ID3NoHeaderError
  | _ => raise Error
  end.

(** [tags.save(p)]: the container of the file at [p] is replaced by the
    frames of [tags] that are written. *)
Definition id3_save (p : string) (tags : Mutagen.ID3) : M world unit :=
  tick ;;;
  w <- get ;;
  match nodes w !! p with
  | Some Dir => raise Error
  | _ => modify (set_nodes (insert p (File (Some (Mutagen.saved tags)))))
  end.

(** [mutagen.File(p, easy=True)] on a file without a container: a handle
    without tags when the file is recognised, [None] otherwise. *)
Definition mutagen_File (p : string) : M world bool :=
  tick ;;;
  w <- get ;;
  match nodes w !! p with
  | Some (File _) => ret (recognised w p)
  | _ => raise Error
  end.

End FS.

(* ===================================================================== *)
(** * liberate-update-metadata.py *)
(* ===================================================================== *)

Module Liberate.
Import Py PyStr Catalog.

(** The value stored per title: the raw fields of the row. *)
Record book : Type := Book {
  title : string;
  author : string;
  narrator : string;
  series : string;
  series_order : string
}.

(** [clean_string(s)]; [None] is Python's [None]. *)
Definition clean_string (s : option string) : string :=
  match s with
  | None => EmptyString
  | Some s =>
      if negb (truthy s) then EmptyString
      else
        let cleaned := re_sub_nonword_nonspace (lower s) in
        join " " (split_ws cleaned)
  end.

(** The loop of [find_matching_audiobook] over [audiobooks.items()]. *)
Fixpoint find_in_items (clean_filename clean_parent : string)
    (items : list (string * book)) : option string :=
  match items with
  | [] => None
  | (key, book) :: rest =>
      let clean_title := clean_string (Some (title book)) in
      let clean_author := clean_string (Some (author book)) in
      (* Strategy 1 *)
      if contains clean_title clean_filename && contains clean_author clean_parent
      then Some key
      (* Strategy 2 *)
      else if contains clean_title clean_filename
      then Some key
      (* Strategy 3 *)
      else if contains clean_author clean_parent && contains clean_title clean_filename
      then Some key
      else find_in_items clean_filename clean_parent rest
  end.

(** [find_matching_audiobook(filepath, audiobooks)]: the matching key. *)
Definition find_matching_audiobook (filepath : string)
    (audiobooks : PyDict.dict book) : option string :=
  let filename := basename filepath in
  let parent_dir := basename (dirname filepath) in
  let clean_filename := clean_string (Some filename) in
  let clean_parent := clean_string (Some parent_dir) in
  find_in_items clean_filename clean_parent audiobooks.

Definition book_of_row (r : row) : book :=
  Book (Title r) (Authors r) (Narrators r) (Series_Names r) (Series_Order r).

(** Lines 62-74: the catalog, keyed by the cleaned title. *)
Definition load_audiobooks (rows : list row) : PyDict.dict book :=
  fold_left
    (fun audiobooks r =>
       PyDict.set (clean_string (Some (Title r))) (book_of_row r) audiobooks)
    rows [].

Record state : Type := State {
  world : FS.world;
  processed_files : list string;
  skipped_files : list string
}.

Definition fs {A} (m : M FS.world A) : M state A :=
  zoom world (fun w s => State w (processed_files s) (skipped_files s)) m.

Definition processed_append (file : string) : M state unit :=
  modify (fun s => State (world s) (processed_files s ++ [file]) (skipped_files s)).

Definition skipped_append (file : string) : M state unit :=
  modify (fun s => State (world s) (processed_files s) (skipped_files s ++ [file])).

(** The object [audio] of lines 124-130: its tags and the file it saves
    to ([None] for an [EasyID3()] that was never loaded from a file). *)
Record handle : Type := Handle {
  h_tags : Mutagen.ID3;
  h_filename : option string
}.

(** Lines 124-130. *)
Definition open_easy (new_filepath : string) : M state handle :=
  try_except
    (tags <- fs (FS.id3_load new_filepath) ;;
     ret (Handle tags (Some new_filepath)))
    (fun e =>
       match e with
       | ID3NoHeaderError =>
           found <- fs (FS.mutagen_File new_filepath) ;;
           if found : bool then ret (Handle ∅ (Some new_filepath))
           else
             fs (FS.id3_save new_filepath ∅) ;;;
             ret (Handle ∅ None)
       | Error => raise Error
       end).

(** Lines 132-142: the assignments to [audio]. *)
Definition set_book_tags (b : book) (audio : Mutagen.ID3) : Mutagen.ID3 :=
  let audio := Mutagen.easy_set Mutagen.title (title b) audio in
  let audio := Mutagen.easy_set Mutagen.artist (author b) audio in
  let audio := Mutagen.easy_set Mutagen.albumartist (narrator b) audio in
  let audio := Mutagen.easy_set Mutagen.album (title b) audio in
  let audio := Mutagen.easy_set Mutagen.genre "Audiobook" audio in
  let audio := Mutagen.easy_set Mutagen.composer (narrator b) audio in
  if truthy (series b)
  then Mutagen.easy_set Mutagen.album (series b +:+ " - " +:+ title b) audio
  else audio.

(** Lines 149-150. *)
Definition add_audiobook_frames (audio_full : Mutagen.ID3) : Mutagen.ID3 :=
  Mutagen.add (Mutagen.TCMP "1") (Mutagen.add (Mutagen.TMED "Audiobook") audio_full).

(** The container the file ends with when it had the container [tags]
    and nothing fails. *)
Definition fuse (b : book) (tags : Mutagen.ID3) : Mutagen.ID3 :=
  add_audiobook_frames (set_book_tags b tags).

(** Lines 124-151. *)
Definition update_metadata (new_filepath : string) (b : book) : M state unit :=
  audio <- open_easy new_filepath ;;
  let tags := set_book_tags b (h_tags audio) in
  match h_filename audio with
  | Some filename => fs (FS.id3_save filename tags)
  | None => raise Error
  end ;;;
  audio_full <- fs (FS.id3_load new_filepath) ;;
  fs (FS.id3_save new_filepath (add_audiobook_frames audio_full)).

(** Lines 94-157, the part of the [try] block after the match. *)
Definition process_match (audiobooks : PyDict.dict book) (audiobooks_dir : string)
    (filepath file : string) (book_key : option string) : M state unit :=
  match book_key with
  | Some key =>
      if truthy key then
        match PyDict.get key audiobooks with
        | None => raise Error
        | Some b =>
            let author_dir := path_join audiobooks_dir (author b) in
            fs (FS.makedirs author_dir) ;;;
            let book_dir := path_join author_dir (title b) in
            fs (FS.makedirs book_dir) ;;;
            let new_filepath := path_join book_dir file in
            fs (FS.copy2 filepath new_filepath) ;;;
            update_metadata new_filepath b ;;;
            processed_append file
        end
      else skipped_append file
  | None => skipped_append file
  end.

(** Lines 95-157: the [try] block for one file. *)
Definition process_body (audiobooks : PyDict.dict book) (audiobooks_dir : string)
    (root file : string) : M state unit :=
  let filepath := path_join root file in
  let book_key := find_matching_audiobook filepath audiobooks in
  process_match audiobooks audiobooks_dir filepath file book_key.

(** Lines 92-161: one file of the walk. *)
Definition process_file (audiobooks : PyDict.dict book) (audiobooks_dir : string)
    (root file : string) : M state unit :=
  if endswith (lower file) ".mp3" then
    try_except (process_body audiobooks audiobooks_dir root file)
      (fun _ => skipped_append file)
  else ret tt.

(** Lines 90-161: the walk; [walk] is what [os.walk(music_path)] yields,
    as (root, files) pairs. *)
Definition walk_loop (audiobooks : PyDict.dict book) (audiobooks_dir : string)
    (walk : list (string * list string)) : M state unit :=
  for_each walk (fun '(root, files) =>
    for_each files (fun file =>
      process_file audiobooks audiobooks_dir root file)).

(** [process_audiobooks]: [rows] is the content of the catalog file. *)
Definition process_audiobooks (rows : list row) (apple_music_path : string)
    (walk : list (string * list string)) (w : FS.world) : res unit * state :=
  (let audiobooks := load_audiobooks rows in
   let audiobooks_dir := path_join apple_music_path "Audiobooks" in
   fs (FS.makedirs audiobooks_dir) ;;;
   walk_loop audiobooks audiobooks_dir walk)
  (State w [] []).

End Liberate.

(* ===================================================================== *)
(** * ipod-classic/audiobooks-update-metadata-from-mp3.py *)
(* ===================================================================== *)

Module Organizer.
Import Py PyStr.

(** The attributes of an [AudiobookProcessor]. *)
Record processor : Type := Processor {
  audiobooks_dir : string;
  processed_files : list string;
  skipped_files : list string;
  processed_artists : gset string
}.

Record state : Type := State {
  world : FS.world;
  self : processor
}.

Definition fs {A} (m : M FS.world A) : M state A :=
  zoom world (fun w s => State w (self s)) m.

Definition skipped_append (path : string) : M state unit :=
  modify (fun s =>
    State (world s)
      (Processor (audiobooks_dir (self s)) (processed_files (self s))
         (skipped_files (self s) ++ [path]) (processed_artists (self s)))).

Definition processed_append (path artist : string) : M state unit :=
  modify (fun s =>
    State (world s)
      (Processor (audiobooks_dir (self s)) (processed_files (self s) ++ [path])
         (skipped_files (self s)) ({[artist]} ∪ processed_artists (self s)))).

(** [get_metadata(filepath)]: the container, a new empty one when none
    can be read, [None] when that cannot be written either. *)
Definition get_metadata (filepath : string) : M state (option Mutagen.ID3) :=
  try_except
    (tags <- fs (FS.id3_load filepath) ;; ret (Some tags))
    (fun _ =>
       try_except
         (fs (FS.id3_save filepath ∅) ;;; ret (Some (∅ : Mutagen.ID3)))
         (fun _ => ret None)).

Definition first_text (tags : Mutagen.ID3) (key default : string) : M state string :=
  match Mutagen.first_text tags key default with
  | Some t => ret t
  | None => raise Error
  end.

(** Lines 55-57: the chapter and table-of-contents frames of [audio]. *)
Definition copy_chapters (audio : Mutagen.ID3) : Mutagen.ID3 :=
  map_fold
    (fun key f new_tags =>
       if Mutagen.is_chapter_key key then Mutagen.add f new_tags else new_tags)
    ∅ audio.

(** Lines 52-65: the container that is written. *)
Definition new_tags_of (audio : Mutagen.ID3) (title artist album : string) : Mutagen.ID3 :=
  let new_tags := copy_chapters audio in
  let new_tags := Mutagen.add (Mutagen.TIT2 title) new_tags in
  let new_tags := Mutagen.add (Mutagen.TPE1 artist) new_tags in
  let new_tags := Mutagen.add (Mutagen.TALB album) new_tags in
  let new_tags := Mutagen.add (Mutagen.TCON "Audiobook") new_tags in
  let new_tags := Mutagen.add (Mutagen.TMED "Audiobook") new_tags in
  Mutagen.add (Mutagen.TCMP "1") new_tags.

(** [update_audiobook_metadata(filepath, existing_metadata)] *)
Definition update_audiobook_metadata (filepath : string)
    (existing_metadata : option Mutagen.ID3) : M state bool :=
  try_except
    (audio <- (if Mutagen.opt_truthy existing_metadata
               then ret existing_metadata
               else get_metadata filepath) ;;
     match audio with
     | Some audio =>
         if Mutagen.truthy audio then
           title <- first_text audio "TIT2" "Unknown Title" ;;
           artist <- first_text audio "TPE1" "Unknown Artist" ;;
           album <- first_text audio "TALB" title ;;
           fs (FS.id3_save filepath (new_tags_of audio title artist album)) ;;;
           ret true
         else ret false
     | None => ret false
     end)
    (fun _ => ret false).

Record book_info : Type := BookInfo {
  title : string;
  artist : string;
  album : string
}.

(** [get_book_info(metadata)] *)
Definition get_book_info (metadata : option Mutagen.ID3) : M state (option book_info) :=
  if Mutagen.opt_truthy metadata then
    match metadata with
    | Some metadata =>
        title <- first_text metadata "TIT2" "Unknown Title" ;;
        artist <- first_text metadata "TPE1" "Unknown Artist" ;;
        album <- first_text metadata "TALB" "Unknown Album" ;;
        ret (Some (BookInfo title artist album))
    | None => ret None
    end
  else ret None.

(** The name tried after [counter - 1] collisions (line 116). *)
Definition numbered (book_dir filename : string) (counter : nat) : string :=
  let '(base, ext) := splitext filename in
  path_join book_dir (base +:+ "_" +:+ str_of_nat counter +:+ ext).

(** Lines 113-117: the [while os.path.exists(new_filepath)] loop, run for
    at most [fuel] tests. *)
Fixpoint next_free (fuel : nat) (w : FS.world) (book_dir filename : string)
    (counter : nat) (new_filepath : string) : option string :=
  match fuel with
  | 0 => None
  | S fuel' =>
      if FS.path_exists w new_filepath
      then next_free fuel' w book_dir filename (S counter)
             (numbered book_dir filename counter)
      else Some new_filepath
  end.

(** Lines 109-117; the loop stops within two tests more than there are
    paths in use. *)
Definition plan (w : FS.world) (book_dir filename : string) : option string :=
  next_free (S (S (size (FS.nodes w)))) w book_dir filename 1 (path_join book_dir filename).

(** [organize_file(source_path)] *)
Definition organize_file (source_path : string) : M state bool :=
  try_except
    (metadata <- get_metadata source_path ;;
     if negb (Mutagen.opt_truthy metadata) then
       skipped_append source_path ;;; ret false
     else
       book_info <- get_book_info metadata ;;
       match book_info with
       | None => skipped_append source_path ;;; ret false
       | Some book_info =>
           s <- get ;;
           let artist_dir := path_join (audiobooks_dir (self s)) (artist book_info) in
           fs (FS.makedirs artist_dir) ;;;
           let book_dir := path_join artist_dir (album book_info) in
           fs (FS.makedirs book_dir) ;;;
           let filename := basename source_path in
           s <- get ;;
           match plan (world s) book_dir filename with
           | None => raise Error
           | Some new_filepath =>
               fs (FS.copy2 source_path new_filepath) ;;;
               updated <- update_audiobook_metadata new_filepath metadata ;;
               if updated : bool then
                 processed_append source_path (artist book_info) ;;; ret true
               else
                 skipped_append source_path ;;; ret false
           end
       end)
    (fun _ => skipped_append source_path ;;; ret false).

(** [process_libation_folder]: [mp3_files] is what [glob.glob] found. *)
Definition process_libation_folder (mp3_files : list string) : M state unit :=
  for_each mp3_files (fun filepath => organize_file filepath ;;; ret tt).

(** [setup_directories()] *)
Definition setup_directories : M state unit :=
  s <- get ;;
  fs (FS.makedirs (audiobooks_dir (self s))).

(** [main()]: [response] is the answer typed at the prompt and [mp3_files]
    what [glob.glob] finds under the Libation folder.  The value is the
    answer to "were the files processed". *)
Definition main (response : string) (mp3_files : list string) : M state bool :=
  setup_directories ;;;
  if String.eqb (lower response) "y" then
    process_libation_folder mp3_files ;;;
    ret true
  else ret false.

End Organizer.

(* ===================================================================== *)
(** * ipod-classic/delete-audiobooks-in-music-path.py *)
(* ===================================================================== *)

Module Cleaner.
Import Py PyStr Catalog.

(** The music folder: its entries by name (and whether each is a
    directory), and the calls that fail. *)
Record world : Type := World {
  music_exists : bool;
  entries : list (string * bool);
  clock : nat;
  fails : nat -> bool
}.

(** The attributes of a [MusicLibraryCleaner]. *)
Record cleaner : Type := MkCleaner {
  music_path : string;
  authors_to_remove : gset string;
  removed_folders : list string;
  skipped_folders : list string
}.

Record state : Type := State {
  fsys : world;
  self : cleaner
}.

Definition tick : M state unit :=
  fun s =>
    let w := fsys s in
    let s' := State (World (music_exists w) (entries w) (S (clock w)) (fails w)) (self s) in
    if fails w (clock w) then (Raise Error, s') else (Ret tt, s').

(** Lines 24-33: the names of one [Authors] field and their variants. *)
Definition add_author (authors_to_remove : gset string) (author : string) : gset string :=
  let clean_author := strip author in
  if truthy clean_author then
    {[clean_author]} ∪ {[lower clean_author]} ∪ {[remove_char "." clean_author]}
      ∪ {[remove_char "," clean_author]} ∪ authors_to_remove
  else authors_to_remove.

Definition add_row (authors_to_remove : gset string) (r : row) : gset string :=
  fold_left add_author (split_on "," (Authors r)) authors_to_remove.

Definition authors_of (rows : list row) (authors_to_remove : gset string) : gset string :=
  fold_left add_row rows authors_to_remove.

Definition set_authors (a : gset string) : M state unit :=
  modify (fun s =>
    State (fsys s)
      (MkCleaner (music_path (self s)) a (removed_folders (self s)) (skipped_folders (self s)))).

(** [load_authors_from_csv]: [csv] is the content of the catalog file,
    [None] when it cannot be read. *)
Definition load_authors_from_csv (csv : option (list row)) : M state bool :=
  try_except
    (match csv with
     | Some rows =>
         s <- get ;;
         set_authors (authors_of rows (authors_to_remove (self s))) ;;;
         ret true
     | None => raise Error
     end)
    (fun _ => ret false).

(** Lines 47-53. *)
Definition variations (folder_name : string) : list string :=
  let folder_clean := strip folder_name in
  let folder_lower := lower folder_clean in
  [ folder_clean;
    folder_lower;
    remove_char "." folder_clean;
    remove_char "," folder_clean;
    re_sub_nonword_nonspace folder_lower ].

(** [should_remove_folder(folder_name)] *)
Definition should_remove_folder (authors_to_remove : gset string)
    (folder_name : string) : bool :=
  existsb (fun var => bool_decide (var ∈ authors_to_remove)) (variations folder_name).

(** [os.listdir(self.music_path)] filtered by [os.path.isdir]. *)
Definition music_dirs : M state (list string) :=
  tick ;;;
  s <- get ;;
  ret (map fst (filter (fun e => snd e = true) (entries (fsys s)))).

(** [scan_folders()] *)
Definition scan_folders : M state (list (string * string)) :=
  try_except
    (dirs <- music_dirs ;;
     s <- get ;;
     ret (map (fun dir_name => (dir_name, path_join (music_path (self s)) dir_name))
            (filter (fun dir_name =>
                       should_remove_folder (authors_to_remove (self s)) dir_name = true)
               dirs)))
    (fun _ => ret []).

(** [shutil.rmtree(folder_path)] on a folder of the music path. *)
Definition rmtree (folder_path : string) : M state unit :=
  tick ;;;
  s <- get ;;
  let w := fsys s in
  let here (e : string * bool) : bool :=
    snd e && bool_decide (path_join (music_path (self s)) (fst e) = folder_path) in
  if existsb here (entries w) then
    modify (fun s =>
      State (World (music_exists w) (filter (fun e => here e = false) (entries w))
               (clock w) (fails w)) (self s))
  else raise Error.

Definition removed_append (folder_path : string) : M state unit :=
  modify (fun s =>
    State (fsys s)
      (MkCleaner (music_path (self s)) (authors_to_remove (self s))
         (removed_folders (self s) ++ [folder_path]) (skipped_folders (self s)))).

Definition skipped_append (folder_path : string) : M state unit :=
  modify (fun s =>
    State (fsys s)
      (MkCleaner (music_path (self s)) (authors_to_remove (self s))
         (removed_folders (self s)) (skipped_folders (self s) ++ [folder_path]))).

(** Lines 82-88: the [try] block for one folder. *)
Definition remove_body (dry_run : bool) (folder : string * string) : M state unit :=
  let '(folder_name, folder_path) := folder in
  if dry_run then removed_append folder_path
  else rmtree folder_path ;;; removed_append folder_path.

(** Lines 81-91: one folder of [remove_folders]. *)
Definition remove_folder (dry_run : bool) (folder : string * string) : M state unit :=
  try_except (remove_body dry_run folder)
    (fun _ => skipped_append (snd folder)).

(** [remove_folders(folders_to_remove, dry_run)] *)
Definition remove_folders (folders_to_remove : list (string * string))
    (dry_run : bool) : M state unit :=
  for_each folders_to_remove (remove_folder dry_run).

(** Lines 151-153. *)
Definition reset_lists : M state unit :=
  modify (fun s =>
    State (fsys s)
      (MkCleaner (music_path (self s)) (authors_to_remove (self s)) [] [])).

(** What happens to the music folder while [input] waits for the answer. *)
Definition meanwhile (change : list (string * bool) -> list (string * bool)) : M state unit :=
  modify (fun s =>
    let w := fsys s in
    State (World (music_exists w) (change (entries w)) (clock w) (fails w)) (self s)).

(** Lines 143-162 of [main]: the dry run, the question, the removal.
    The value is the answer to "was the removal run". *)
Definition confirm_and_remove (folders_to_remove : list (string * string))
    (response : string) (change : list (string * bool) -> list (string * bool))
    : M state bool :=
  remove_folders folders_to_remove true ;;;
  meanwhile change ;;;
  if String.eqb (lower response) "y" then
    reset_lists ;;;
    remove_folders folders_to_remove false ;;;
    ret true
  else ret false.

(** [main()]: [csv] is the catalog file, [response] the answer typed at
    the prompt. *)
Definition main (csv : option (list row)) (response : string)
    (change : list (string * bool) -> list (string * bool)) : M state bool :=
  s <- get ;;
  if negb (music_exists (fsys s)) then ret false
  else
    loaded <- load_authors_from_csv csv ;;
    if negb loaded then ret false
    else
      folders_to_remove <- scan_folders ;;
      match folders_to_remove with
      | [] => ret false
      | _ => confirm_and_remove folders_to_remove response change
      end.

(** A fresh [MusicLibraryCleaner()] over the music folder [w]. *)
Definition init (music_path : string) (w : world) : state :=
  State w (MkCleaner music_path ∅ [] []).

End Cleaner.

(* ===================================================================== *)
(** * Facts about the string operations *)
(* ===================================================================== *)

Section StringFacts.
Import PyStr.

Local Ltac by_cases_on c :=
  destruct c as [[] [] [] [] [] [] [] []]; vm_compute; try reflexivity; try discriminate.

Lemma lower_char_idem c : lower_char (lower_char c) = lower_char c.
Proof. by_cases_on c. Qed.

Lemma isword_lower_char c : isword (lower_char c) = isword c.
Proof. by_cases_on c. Qed.

Lemma isspace_lower_char c : isspace (lower_char c) = isspace c.
Proof. by_cases_on c. Qed.

Lemma app_cons c s t : String c s +:+ t = String c (s +:+ t).
Proof. reflexivity. Qed.

Lemma app_empty_l s : EmptyString +:+ s = s.
Proof. reflexivity. Qed.

Lemma app_empty_r s : s +:+ EmptyString = s.
Proof. induction s as [|c s IH]; [reflexivity|]. by rewrite app_cons, IH. Qed.

Lemma app_assoc s t u : (s +:+ t) +:+ u = s +:+ (t +:+ u).
Proof. induction s as [|c s IH]; [reflexivity|]. by rewrite !app_cons, IH. Qed.

Lemma length_app s t :
  String.length (s +:+ t) = String.length s + String.length t.
Proof. induction s as [|c s IH]; [reflexivity|]. rewrite app_cons. simpl. by rewrite IH. Qed.

Lemma app_inv_tail s t u : s +:+ u = t +:+ u -> s = t.
Proof.
  revert t. induction s as [|c s IH]; intros [|d t] H; try reflexivity.
  - exfalso. apply (f_equal String.length) in H.
    rewrite !length_app in H. simpl in H. lia.
  - exfalso. apply (f_equal String.length) in H.
    rewrite !length_app in H. simpl in H. lia.
  - rewrite !app_cons in H. injection H as -> H. f_equal. by apply IH.
Qed.

Lemma all_chars_app p s t :
  all_chars p (s +:+ t) = all_chars p s && all_chars p t.
Proof.
  induction s as [|c s IH]; [reflexivity|].
  rewrite app_cons. simpl. rewrite IH. by rewrite andb_assoc.
Qed.

Lemma all_chars_impl (p q : ascii -> bool) s :
  (forall c, p c = true -> q c = true) ->
  all_chars p s = true -> all_chars q s = true.
Proof.
  intros Hpq. induction s as [|c s IH]; [done|]. simpl.
  intros [Hc Hs]%andb_prop. rewrite (Hpq _ Hc). simpl. auto.
Qed.

Lemma filter_chars_all keep s : all_chars keep (filter_chars keep s) = true.
Proof.
  induction s as [|c s IH]; [reflexivity|]. simpl.
  destruct (keep c) eqn:E; [|done]. simpl. by rewrite E.
Qed.

Lemma filter_chars_id keep s : all_chars keep s = true -> filter_chars keep s = s.
Proof.
  induction s as [|c s IH]; [reflexivity|]. simpl.
  intros [Hc Hs]%andb_prop. rewrite Hc. f_equal. auto.
Qed.

Lemma filter_chars_preserves (p keep : ascii -> bool) s :
  all_chars p s = true -> all_chars p (filter_chars keep s) = true.
Proof.
  induction s as [|c s IH]; [reflexivity|]. simpl.
  intros [Hc Hs]%andb_prop. destruct (keep c); simpl; [rewrite Hc|]; auto.
Qed.

(** A character that [lower] leaves alone. *)
Definition is_lowered (c : ascii) : bool := Ascii.eqb (lower_char c) c.

Lemma lower_is_lowered s : all_chars is_lowered (lower s) = true.
Proof.
  induction s as [|c s IH]; [reflexivity|]. simpl. rewrite IH, andb_true_r.
  unfold is_lowered. rewrite lower_char_idem. apply Ascii.eqb_refl.
Qed.

Lemma lower_id s : all_chars is_lowered s = true -> lower s = s.
Proof.
  induction s as [|c s IH]; [reflexivity|]. simpl.
  intros [Hc Hs]%andb_prop. apply Ascii.eqb_eq in Hc. rewrite Hc. f_equal. auto.
Qed.

Lemma lower_idem s : lower (lower s) = lower s.
Proof. apply lower_id, lower_is_lowered. Qed.

(** ** [split] and [join] *)

Lemma split_ws_from_word cur t rest :
  all_chars (fun c => negb (isspace c)) t = true ->
  split_ws_from cur (t +:+ rest) = split_ws_from (cur +:+ t) rest.
Proof.
  revert cur. induction t as [|c t IH]; intros cur.
  - intros _. by rewrite app_empty_l, app_empty_r.
  - simpl. intros [Hc Ht]%andb_prop.
    apply negb_true_iff in Hc. rewrite Hc, IH by done.
    f_equal. by rewrite app_assoc.
Qed.

(** The words of a split: not empty, without whitespace. *)
Definition is_token (p : ascii -> bool) (t : string) : Prop :=
  truthy t = true /\ all_chars (fun c => negb (isspace c) && p c) t = true.

Lemma split_ws_from_tokens p cur s :
  all_chars (fun c => negb (isspace c) && p c) cur = true ->
  all_chars p s = true ->
  Forall (is_token p) (split_ws_from cur s).
Proof.
  revert cur. induction s as [|c s IH]; intros cur Hcur.
  - intros _. simpl. unfold flush. destruct (truthy cur) eqn:E; repeat constructor; done.
  - simpl. intros [Hc Hs]%andb_prop. destruct (isspace c) eqn:Esp.
    + apply Forall_app. split; [|by apply IH].
      unfold flush. destruct (truthy cur) eqn:E; repeat constructor; done.
    + apply IH; [|done]. rewrite all_chars_app, Hcur. simpl. by rewrite Esp, Hc.
Qed.

Lemma split_ws_tokens p s :
  all_chars p s = true -> Forall (is_token p) (split_ws s).
Proof. by apply split_ws_from_tokens. Qed.

Lemma join_cons sep t t' ts :
  join sep (t :: t' :: ts) = t +:+ sep +:+ join sep (t' :: ts).
Proof. reflexivity. Qed.

Lemma split_ws_join p ts :
  Forall (is_token p) ts -> split_ws (join " " ts) = ts.
Proof.
  induction 1 as [|t ts [Ht Hw] Hts IH]; [reflexivity|].
  assert (all_chars (fun c => negb (isspace c)) t = true) as Hw'.
  { eapply all_chars_impl; [|exact Hw]. by intros c [? _]%andb_prop. }
  unfold split_ws in *. destruct ts as [|t' ts].
  - change (join " " [t]) with t. rewrite <- (app_empty_r t) at 1.
    rewrite split_ws_from_word, app_empty_l by done.
    simpl. unfold flush. by rewrite Ht.
  - rewrite join_cons, split_ws_from_word, app_empty_l by done.
    rewrite app_cons, app_empty_l. cbn [split_ws_from].
    change (isspace " ") with true. cbn iota.
    rewrite IH. unfold flush. by rewrite Ht.
Qed.

Lemma all_chars_join p sep ts :
  all_chars p sep = true ->
  Forall (fun t => all_chars p t = true) ts ->
  all_chars p (join sep ts) = true.
Proof.
  intros Hsep. induction 1 as [|t ts Ht Hts IH]; [reflexivity|].
  destruct ts as [|t' ts]; [exact Ht|].
  rewrite join_cons, !all_chars_app, Ht, Hsep. exact IH.
Qed.

End StringFacts.

(* ===================================================================== *)
(** * The normalizer, the catalog index and the resolver *)
(* ===================================================================== *)

Section DictFacts.
Context {V : Type}.
Implicit Types (d : PyDict.dict V) (k : string) (v : V).

Lemma dict_get_set_eq k v d : PyDict.get k (PyDict.set k v d) = Some v.
Proof.
  induction d as [|[k' v'] d IH]; simpl.
  - by rewrite String.eqb_refl.
  - destruct (String.eqb k' k) eqn:E; simpl; rewrite E; [done | exact IH].
Qed.

Lemma dict_get_set_ne k k' v d :
  k <> k' -> PyDict.get k (PyDict.set k' v d) = PyDict.get k d.
Proof.
  intros Hne. induction d as [|[k0 v0] d IH]; simpl.
  - apply String.eqb_neq in Hne. by rewrite String.eqb_sym, Hne.
  - destruct (String.eqb k0 k') eqn:E; simpl.
    + apply String.eqb_eq in E as ->.
      apply String.eqb_neq in Hne. by rewrite String.eqb_sym, Hne.
    + by rewrite IH.
Qed.

Lemma dict_keys_set k v d :
  PyDict.keys (PyDict.set k v d) =
  if bool_decide (k ∈ PyDict.keys d) then PyDict.keys d else PyDict.keys d ++ [k].
Proof.
  unfold PyDict.keys. induction d as [|[k' v'] d IH]; simpl; [done|].
  destruct (String.eqb k' k) eqn:E; simpl.
  - apply String.eqb_eq in E as ->. rewrite bool_decide_eq_true_2; [done | set_solver].
  - apply String.eqb_neq in E. rewrite IH. case_bool_decide as H1.
    + rewrite bool_decide_eq_true_2; [done | set_solver].
    + rewrite bool_decide_eq_false_2; [done | set_solver].
Qed.

Lemma dict_wf_set k v d : PyDict.wf d -> PyDict.wf (PyDict.set k v d).
Proof.
  unfold PyDict.wf. intros Hd. rewrite dict_keys_set. case_bool_decide as H; [done|].
  apply NoDup_app. split_and!; [done | | apply NoDup_singleton].
  intros x Hx ->%list_elem_of_singleton. done.
Qed.

Lemma dict_In_get k v d : PyDict.wf d -> In (k, v) d -> PyDict.get k d = Some v.
Proof.
  unfold PyDict.wf, PyDict.keys.
  induction d as [|[k' v'] d IH]; simpl; [done|].
  intros [Hk' Hd]%NoDup_cons [[= -> ->] | Hin].
  - by rewrite String.eqb_refl.
  - destruct (String.eqb k' k) eqn:E; [|auto].
    apply String.eqb_eq in E as ->. exfalso. apply Hk'.
    apply list_elem_of_In, in_map_iff. by exists (k, v).
Qed.

End DictFacts.

Section Normalizer.
Import PyStr Liberate.

(** The characters of a cleaned string before the split. *)
Definition is_clean_char (c : ascii) : bool :=
  (isword c || isspace c) && is_lowered c.

Lemma clean_string_Some s :
  clean_string (Some s) = join " " (split_ws (re_sub_nonword_nonspace (lower s))).
Proof. by destruct s. Qed.

Lemma cleaned_chars s :
  all_chars is_clean_char (re_sub_nonword_nonspace (lower s)) = true.
Proof.
  unfold re_sub_nonword_nonspace.
  pose proof (filter_chars_all (fun c => isword c || isspace c) (lower s)) as H1.
  pose proof (filter_chars_preserves is_lowered (fun c => isword c || isspace c)
                (lower s) (lower_is_lowered s)) as H2.
  revert H1 H2. generalize (filter_chars (fun c => isword c || isspace c) (lower s)).
  intros t. induction t as [|c t IH]; [done|]. simpl.
  intros [Hc Ht]%andb_prop [Hc' Ht']%andb_prop.
  unfold is_clean_char at 1. rewrite Hc, Hc'. simpl. auto.
Qed.

(** A cleaned string is a fixed point of every step of [clean_string]. *)
Lemma clean_tokens_fixed ts :
  Forall (is_token is_clean_char) ts ->
  join " " (split_ws (re_sub_nonword_nonspace (lower (join " " ts)))) = join " " ts.
Proof.
  intros Hts.
  assert (all_chars is_clean_char (join " " ts) = true) as Hall.
  { apply all_chars_join; [reflexivity|].
    eapply Forall_impl; [exact Hts|]. intros t [_ Ht].
    eapply all_chars_impl; [|exact Ht]. by intros c [_ ?]%andb_prop. }
  rewrite lower_id.
  2:{ eapply all_chars_impl; [|exact Hall]. by intros c [_ ?]%andb_prop. }
  unfold re_sub_nonword_nonspace. rewrite filter_chars_id.
  2:{ eapply all_chars_impl; [|exact Hall]. by intros c [? _]%andb_prop. }
  by rewrite (split_ws_join is_clean_char).
Qed.

Lemma clean_string_idempotent x :
  clean_string (Some (clean_string x)) = clean_string x.
Proof.
  destruct x as [s|]; [|reflexivity].
  rewrite !clean_string_Some.
  apply clean_tokens_fixed, split_ws_tokens, cleaned_chars.
Qed.

Lemma clean_string_lower s :
  clean_string (Some (lower s)) = clean_string (Some s).
Proof. by rewrite !clean_string_Some, lower_idem. Qed.

(** Deleting from the lowercased string what [re.sub] deletes anyway
    changes nothing. *)
Lemma clean_string_punctuation s :
  clean_string (Some (re_sub_nonword_nonspace (lower s))) = clean_string (Some s).
Proof.
  rewrite !clean_string_Some.
  pose proof (cleaned_chars s) as Hall.
  rewrite lower_id.
  2:{ eapply all_chars_impl; [|exact Hall]. by intros c [_ ?]%andb_prop. }
  unfold re_sub_nonword_nonspace.
  by rewrite (filter_chars_id _ (filter_chars _ _)) by apply filter_chars_all.
Qed.

End Normalizer.

Section Resolver.
Import PyStr Liberate.

(** C5, as the specification states it, fails on its own example: the
    periods of "J.R.R. Tolkien" are deleted, not turned into spaces, so
    the initials stay one word. *)
Lemma clean_string_tolkien_differs :
  clean_string (Some "J.R.R. Tolkien") <> clean_string (Some "j r r tolkien").
Proof. vm_compute. discriminate. Qed.

(** C5 (amended): [clean_string] is idempotent, sends [None] and the empty
    string to the empty string, gives a string and its lowercase form the
    same result, and ignores the characters that are neither word
    characters nor whitespace: deleting them from the lowercased string
    changes nothing.  They are deleted, not replaced by a space:
    "J.R.R. Tolkien" and "jrr tolkien" are cleaned to the same string. *)
Theorem clean_string_normal_form :
  (forall x, clean_string (Some (clean_string x)) = clean_string x)
  /\ clean_string None = EmptyString
  /\ clean_string (Some EmptyString) = EmptyString
  /\ (forall s, clean_string (Some (lower s)) = clean_string (Some s))
  /\ (forall s,
         clean_string (Some (re_sub_nonword_nonspace (lower s))) = clean_string (Some s))
  /\ clean_string (Some "J.R.R. Tolkien") = clean_string (Some "jrr tolkien")
  /\ clean_string (Some "J.R.R. Tolkien") = "jrr tolkien".
Proof.
  split_and!; try reflexivity.
  - apply clean_string_idempotent.
  - apply clean_string_lower.
  - apply clean_string_punctuation.
Qed.

(** The three conditions of the resolver for the record [b]. *)
Definition title_in_filename (filepath : string) (b : book) : bool :=
  contains (clean_string (Some (title b))) (clean_string (Some (basename filepath))).

Definition author_in_parent (filepath : string) (b : book) : bool :=
  contains (clean_string (Some (author b)))
    (clean_string (Some (basename (dirname filepath)))).

Definition condition1 (filepath : string) (b : book) : bool :=
  title_in_filename filepath b && author_in_parent filepath b.
Definition condition2 (filepath : string) (b : book) : bool :=
  title_in_filename filepath b.
Definition condition3 (filepath : string) (b : book) : bool :=
  author_in_parent filepath b && title_in_filename filepath b.

(** The resolver as C10 describes it: the first record, in iteration
    order, whose cleaned title occurs in the cleaned file name. *)
Definition first_title_match (filepath : string) (audiobooks : PyDict.dict book)
    : option string :=
  fst <$> List.find (fun item => title_in_filename filepath (snd item)) audiobooks.

Lemma find_in_items_title filepath items :
  find_in_items (clean_string (Some (basename filepath)))
    (clean_string (Some (basename (dirname filepath)))) items
  = first_title_match filepath items.
Proof.
  unfold first_title_match.
  induction items as [|[key b] items IH]; [reflexivity|].
  cbn [find_in_items List.find snd]. unfold title_in_filename at 1.
  destruct (contains (clean_string (Some (title b))) _) eqn:Et.
  - by destruct (contains (clean_string (Some (author b))) _).
  - rewrite andb_false_l, andb_false_r. exact IH.
Qed.

(** C10: [find_matching_audiobook] returns the first record in iteration
    order whose cleaned title is a substring of the cleaned file name; the
    conditions on the author never change the result. *)
Theorem find_matching_is_first_title_match filepath audiobooks :
  find_matching_audiobook filepath audiobooks = first_title_match filepath audiobooks.
Proof. apply find_in_items_title. Qed.

Lemma first_title_match_Some filepath items key :
  first_title_match filepath items = Some key ->
  exists b, In (key, b) items /\ title_in_filename filepath b = true.
Proof.
  unfold first_title_match. destruct (List.find _ items) as [[k b]|] eqn:E; [|done].
  intros [= <-]. apply find_some in E as [Hin Ht]. by exists b.
Qed.

Lemma first_title_match_None filepath items :
  (forall key b, In (key, b) items -> title_in_filename filepath b = false) ->
  first_title_match filepath items = None.
Proof.
  intros H. unfold first_title_match.
  destruct (List.find _ items) as [[k b]|] eqn:E; [|done].
  apply find_some in E as [Hin Ht]. simpl in Ht. by rewrite (H _ _ Hin) in Ht.
Qed.

(** C1: a key returned by [find_matching_audiobook] names a record of the
    catalog for which one of the three conditions holds, and when no
    record satisfies any condition there is no match. *)
Theorem find_matching_sound filepath audiobooks :
  PyDict.wf audiobooks ->
  (forall key, find_matching_audiobook filepath audiobooks = Some key ->
     exists b, PyDict.get key audiobooks = Some b
               /\ (condition1 filepath b = true \/ condition2 filepath b = true
                   \/ condition3 filepath b = true))
  /\ ((forall key b, In (key, b) audiobooks ->
         condition1 filepath b = false /\ condition2 filepath b = false
         /\ condition3 filepath b = false) ->
      find_matching_audiobook filepath audiobooks = None).
Proof.
  intros Hwf. rewrite find_matching_is_first_title_match. split.
  - intros key (b & Hin & Ht)%first_title_match_Some.
    exists b. split; [by apply dict_In_get | by right; left].
  - intros H. apply first_title_match_None. intros key b Hin.
    by destruct (H key b Hin) as (_ & ? & _).
Qed.

End Resolver.

Section CatalogIndex.
Import PyStr Liberate Catalog.

Definition key_of (r : row) : string := clean_string (Some (Title r)).

Definition index_rows (rows : list row) (audiobooks : PyDict.dict book) : PyDict.dict book :=
  fold_left (fun audiobooks r => PyDict.set (key_of r) (book_of_row r) audiobooks)
    rows audiobooks.

Lemma index_rows_wf rows d : PyDict.wf d -> PyDict.wf (index_rows rows d).
Proof.
  revert d. induction rows as [|r rows IH]; intros d Hd; [done|].
  apply IH. by apply dict_wf_set.
Qed.

Lemma load_audiobooks_wf rows : PyDict.wf (load_audiobooks rows).
Proof. apply (index_rows_wf rows []). apply NoDup_nil_2. Qed.

Lemma index_rows_other k rows d :
  (forall r, In r rows -> key_of r <> k) ->
  PyDict.get k (index_rows rows d) = PyDict.get k d.
Proof.
  revert d. induction rows as [|r rows IH]; intros d H; [done|].
  simpl. rewrite IH by (intros; apply H; by right).
  apply dict_get_set_ne. intros ->. by apply (H r); [left|].
Qed.

Lemma index_rows_app rows1 rows2 d :
  index_rows (rows1 ++ rows2) d = index_rows rows2 (index_rows rows1 d).
Proof. apply fold_left_app. Qed.

(** C9: of two rows whose titles clean to the same key, the index holds
    the record of the later one under that key, and not the earlier. *)
Theorem load_audiobooks_last_write_wins pre r1 mid r2 post :
  key_of r1 = key_of r2 ->
  (forall r, In r post -> key_of r <> key_of r2) ->
  let audiobooks := load_audiobooks (pre ++ r1 :: mid ++ r2 :: post) in
  PyDict.get (key_of r2) audiobooks = Some (book_of_row r2)
  /\ (book_of_row r1 <> book_of_row r2 ->
      PyDict.get (key_of r1) audiobooks <> Some (book_of_row r1)).
Proof.
  intros Hkey Hpost audiobooks.
  assert (PyDict.get (key_of r2) audiobooks = Some (book_of_row r2)) as Hget.
  { subst audiobooks. unfold load_audiobooks. fold (index_rows (pre ++ r1 :: mid ++ r2 :: post) []).
    rewrite index_rows_app. cbn [index_rows fold_left].
    fold (index_rows (mid ++ r2 :: post)). rewrite index_rows_app.
    cbn [index_rows fold_left]. fold (index_rows post).
    rewrite index_rows_other by done. apply dict_get_set_eq. }
  split; [exact Hget|].
  intros Hne. rewrite Hkey, Hget. congruence.
Qed.

End CatalogIndex.

Section ResolverExamples.
Import PyStr Liberate Catalog.

Definition hobbit_rows : list row :=
  [Row "The Hobbit" "J.R.R. Tolkien" "Rob Inglis" "" ""].

Lemma find_matching_sound_witness :
  (exists b, PyDict.get "the hobbit" (load_audiobooks hobbit_rows) = Some b
             /\ (condition1 "/Music/J.R.R. Tolkien/01 - The Hobbit.mp3" b = true
                 \/ condition2 "/Music/J.R.R. Tolkien/01 - The Hobbit.mp3" b = true
                 \/ condition3 "/Music/J.R.R. Tolkien/01 - The Hobbit.mp3" b = true))
  /\ find_matching_audiobook "/Music/Various/Track 07.mp3" (load_audiobooks hobbit_rows) = None.
Proof.
  split.
  - apply (proj1 (find_matching_sound "/Music/J.R.R. Tolkien/01 - The Hobbit.mp3"
                    (load_audiobooks hobbit_rows) (NoDup_singleton _))).
    vm_compute. reflexivity.
  - apply (proj2 (find_matching_sound "/Music/Various/Track 07.mp3"
                    (load_audiobooks hobbit_rows) (NoDup_singleton _))).
    intros key b [[= <- <-] | []]. vm_compute. auto.
Defined.

Lemma load_audiobooks_last_write_wins_witness :
  PyDict.get "the hobbit"
    (load_audiobooks [Row "The Hobbit" "J.R.R. Tolkien" "Rob Inglis" "" "";
                      Row "the hobbit!" "Tolkien" "Andy Serkis" "" ""])
  = Some (Book "the hobbit!" "Tolkien" "Andy Serkis" "" "").
Proof.
  apply (proj1 (load_audiobooks_last_write_wins []
           (Row "The Hobbit" "J.R.R. Tolkien" "Rob Inglis" "" "") []
           (Row "the hobbit!" "Tolkien" "Andy Serkis" "" "") []
           eq_refl (fun r (H : In r []) => match H with end))).
Defined.

End ResolverExamples.

(* ===================================================================== *)
(** * Loops that contain the failure of an item *)
(* ===================================================================== *)

Section Batch.
Import Py.
Context {S X Y : Type}.
Variables (step body : X -> M S unit).
Variables (relevant : X -> bool) (name : X -> Y).
Variables (done_list skip_list : S -> list Y).

(** One round of the loop never raises; it leaves an item that is not
    relevant alone, and records a relevant one in exactly one of the two
    lists, in the skipped list when its [try] block raised. *)
Definition contained : Prop :=
  forall x s, exists s',
    step x s = (Ret tt, s')
    /\ if relevant x then
         (done_list s' = done_list s ++ [name x] /\ skip_list s' = skip_list s
          /\ raised (fst (body x s)) = false)
         \/ (done_list s' = done_list s /\ skip_list s' = skip_list s ++ [name x])
       else done_list s' = done_list s /\ skip_list s' = skip_list s.

(** The relevant items whose [try] block raises when their turn comes. *)
Fixpoint failing (xs : list X) (s : S) : list X :=
  match xs with
  | [] => []
  | x :: xs' =>
      (if relevant x && raised (fst (body x s)) then [x] else [])
      ++ failing xs' (snd (step x s))
  end.

Lemma batch_contained :
  contained ->
  forall xs s, exists s' ps ks,
    for_each xs step s = (Ret tt, s')
    /\ done_list s' = done_list s ++ ps
    /\ skip_list s' = skip_list s ++ ks
    /\ ps ++ ks ≡ₚ name <$> List.filter relevant xs
    /\ (forall x, In x (failing xs s) -> In (name x) ks).
Proof.
  intros Hstep xs. induction xs as [|x xs IH]; intros s.
  - exists s, [], []. simpl. rewrite !app_nil_r. split_and!; done.
  - destruct (Hstep x s) as (s1 & Hs1 & Hx).
    destruct (IH s1) as (s' & ps & ks & Hrun & Hp & Hk & Hperm & Hfail).
    cbn [for_each failing List.filter]. unfold bind. rewrite Hs1. cbn [snd].
    destruct (relevant x) eqn:Hrel.
    + destruct Hx as [(Hd & Hsk & Hok) | (Hd & Hsk)].
      * exists s', (name x :: ps), ks. rewrite Hok. cbn [andb app].
        split_and!; [done | | | |done].
        -- by rewrite Hp, Hd, <- List.app_assoc.
        -- by rewrite Hk, Hsk.
        -- cbn. by rewrite Hperm.
      * exists s', ps, (name x :: ks).
        split_and!; [done | | | |].
        -- by rewrite Hp, Hd.
        -- by rewrite Hk, Hsk, <- List.app_assoc.
        -- cbn. rewrite <- Hperm. symmetry. apply Permutation_middle.
        -- intros y [Hy | Hy]%in_app_or; [|right; auto].
           left. destruct (raised _); [|done].
           by destruct Hy as [-> | []].
    + destruct Hx as (Hd & Hsk). exists s', ps, ks. cbn [andb app].
      split_and!; [done | | | done | done].
      * by rewrite Hp, Hd.
      * by rewrite Hk, Hsk.
Qed.

End Batch.

(* ===================================================================== *)
(** * Reasoning about statements *)
(* ===================================================================== *)

Section Triples.
Import Py.
Context {S : Type}.

(** From a state in [P], the statement ends in [Q] when it returns and in
    [E] when it raises. *)
Definition triple {A} (P : S -> Prop) (m : M S A) (Q : A -> S -> Prop)
    (E : S -> Prop) : Prop :=
  forall s, P s ->
    match m s with
    | (Ret a, s') => Q a s'
    | (Raise _, s') => E s'
    end.

Lemma triple_ret {A} (P : S -> Prop) (a : A) (Q : A -> S -> Prop) E :
  (forall s, P s -> Q a s) -> triple P (ret a) Q E.
Proof. intros H s Hs. by apply H. Qed.

Lemma triple_raise {A} (P : S -> Prop) e (Q : A -> S -> Prop) (E : S -> Prop) :
  (forall s, P s -> E s) -> triple P (raise e) Q E.
Proof. intros H s Hs. by apply H. Qed.

Lemma triple_bind {A B} (P : S -> Prop) (m : M S A) (k : A -> M S B)
    (R : A -> S -> Prop) (Q : B -> S -> Prop) E :
  triple P m R E -> (forall a, triple (R a) (k a) Q E) -> triple P (bind m k) Q E.
Proof.
  intros Hm Hk s Hs. unfold bind. specialize (Hm s Hs).
  destruct (m s) as [[a|e] s']; [by apply Hk | done].
Qed.

Lemma triple_try {A} (P : S -> Prop) (body : M S A) (handler : exn -> M S A)
    (Q : A -> S -> Prop) (E' E : S -> Prop) :
  triple P body Q E' -> (forall e, triple E' (handler e) Q E) ->
  triple P (try_except body handler) Q E.
Proof.
  intros Hb Hh s Hs. unfold try_except. specialize (Hb s Hs).
  destruct (body s) as [[a|e] s']; [done | by apply Hh].
Qed.

Lemma triple_get (P : S -> Prop) E :
  triple P get (fun a s => a = s /\ P s) E.
Proof. intros s Hs. by split. Qed.

Lemma triple_modify (P : S -> Prop) (f : S -> S) (Q : unit -> S -> Prop) E :
  (forall s, P s -> Q tt (f s)) -> triple P (modify f) Q E.
Proof. intros H s Hs. by apply H. Qed.

Lemma triple_conseq {A} (P P' : S -> Prop) (m : M S A) (Q Q' : A -> S -> Prop)
    (E E' : S -> Prop) :
  triple P' m Q' E' ->
  (forall s, P s -> P' s) -> (forall a s, Q' a s -> Q a s) -> (forall s, E' s -> E s) ->
  triple P m Q E.
Proof.
  intros Hm HP HQ HE s Hs. specialize (Hm s (HP s Hs)).
  destruct (m s) as [[a|e] s']; auto.
Qed.

Lemma triple_for_each {X} (I : S -> Prop) (xs : list X) (body : X -> M S unit) E :
  (forall x, triple I (body x) (fun _ => I) E) ->
  triple I (for_each xs body) (fun _ => I) E.
Proof.
  intros Hb. induction xs as [|x xs IH]; [by apply triple_ret|].
  cbn [for_each]. eapply triple_bind; [apply Hb | intros u; apply IH].
Qed.

(** A statement of a component, seen from the whole state, when the
    assertions speak of the component only. *)
Lemma triple_zoom {T A} (proj : S -> T) (upd : T -> S -> S) (m : M T A)
    (P : T -> Prop) (Q : A -> T -> Prop) (E : T -> Prop) :
  (forall t s, proj (upd t s) = t) ->
  (forall s, P (proj s) ->
     match m (proj s) with
     | (Ret a, t') => Q a t'
     | (Raise _, t') => E t'
     end) ->
  triple (fun s => P (proj s)) (zoom proj upd m)
    (fun a s => Q a (proj s)) (fun s => E (proj s)).
Proof.
  intros Hupd Hm s Hs. unfold zoom. specialize (Hm s Hs).
  destruct (m (proj s)) as [[a|e] t']; by rewrite Hupd.
Qed.

Lemma for_each_app {X} (xs ys : list X) (body : X -> M S unit) s :
  for_each (xs ++ ys) body s = bind (for_each xs body) (fun _ => for_each ys body) s.
Proof.
  revert s. induction xs as [|x xs IH]; intros s; [done|].
  cbn [for_each app]. unfold bind.
  destruct (body x s) as [[u|e] s']; [|done]. cbn beta. by rewrite IH.
Qed.

Lemma for_each_map {X Z} (f : X -> Z) (xs : list X) (body : Z -> M S unit) s :
  for_each (map f xs) body s = for_each xs (fun x => body (f x)) s.
Proof.
  revert s. induction xs as [|x xs IH]; intros s; [done|].
  cbn [for_each map]. unfold bind. destruct (body (f x) s) as [[u|e] s']; [apply IH | done].
Qed.

End Triples.

(* ===================================================================== *)
(** * The author set and the pruning of the music folder *)
(* ===================================================================== *)

Section AuthorSet.
Import PyStr Cleaner Catalog.

Lemma add_author_grows S a : S ⊆ add_author S a.
Proof. unfold add_author. destruct (truthy (strip a)); set_solver. Qed.

Lemma add_authors_grow names S : S ⊆ fold_left add_author names S.
Proof.
  revert S. induction names as [|a names IH]; intros S; [done|].
  simpl. etrans; [apply add_author_grows | apply IH].
Qed.

Lemma add_row_grows S r : S ⊆ add_row S r.
Proof. apply add_authors_grow. Qed.

Lemma authors_of_grows rows S : S ⊆ authors_of rows S.
Proof.
  revert S. induction rows as [|r rows IH]; intros S; [done|].
  simpl. etrans; [apply add_row_grows | apply IH].
Qed.

(** The four variants of a name. *)
Definition author_variants (name : string) : gset string :=
  {[name]} ∪ {[lower name]} ∪ {[remove_char "." name]} ∪ {[remove_char "," name]}.

Lemma add_author_variants S a :
  truthy (strip a) = true -> author_variants (strip a) ⊆ add_author S a.
Proof. intros H. unfold add_author, author_variants. rewrite H. set_solver. Qed.

Lemma add_authors_variants names S a :
  In a names -> truthy (strip a) = true ->
  author_variants (strip a) ⊆ fold_left add_author names S.
Proof.
  revert S. induction names as [|a' names IH]; intros S; [done|].
  intros [-> | Hin] Ha; simpl.
  - etrans; [by apply add_author_variants | apply add_authors_grow].
  - by apply IH.
Qed.

Lemma authors_of_variants rows S r a :
  In r rows -> In a (split_on "," (Authors r)) -> truthy (strip a) = true ->
  author_variants (strip a) ⊆ authors_of rows S.
Proof.
  revert S. induction rows as [|r' rows IH]; intros S; [done|].
  intros [-> | Hin] Ha Ht; simpl.
  - etrans; [by apply add_authors_variants | apply authors_of_grows].
  - by apply IH.
Qed.

Lemma should_remove_folder_iff S folder_name :
  should_remove_folder S folder_name = true
  <-> exists var, In var (variations folder_name) /\ var ∈ S.
Proof.
  unfold should_remove_folder. rewrite existsb_exists.
  split; intros (var & Hin & H); exists var; split; try done.
  - by apply bool_decide_eq_true in H.
  - by apply bool_decide_eq_true.
Qed.

(** The five variations of a folder name are its trimmed form, the
    lowercase of that, the trimmed form without periods, the trimmed form
    without commas, and the lowercase form without any character that is
    neither a word character nor whitespace. *)
Lemma should_remove_folder_variations S folder_name :
  should_remove_folder S folder_name = true
  <-> strip folder_name ∈ S
      \/ lower (strip folder_name) ∈ S
      \/ remove_char "." (strip folder_name) ∈ S
      \/ remove_char "," (strip folder_name) ∈ S
      \/ re_sub_nonword_nonspace (lower (strip folder_name)) ∈ S.
Proof.
  rewrite should_remove_folder_iff. unfold variations. split.
  - intros (var & Hin & HS). cbn in Hin.
    destruct Hin as [<- | [<- | [<- | [<- | [<- | []]]]]]; tauto.
  - intros [H | [H | [H | [H | H]]]]; eexists; (split; [|exact H]); cbn; tauto.
Qed.

(** C6: every name of an [Authors] field puts its four variants (trimmed,
    lowercased, without periods, without commas) into the author set; a
    folder is selected exactly when one of its five variations (trimmed,
    lowercased, without periods, without commas, lowercased without
    punctuation) is a member of the set, as a whole string; with
    "Jane Doe" in the catalog the folders "Jane Doe" and "jane doe" are
    selected, and "Jane Doeson" is not when no author has that name. *)
Theorem author_variants_select_folders :
  (forall rows S r a,
      In r rows -> In a (split_on "," (Authors r)) -> truthy (strip a) = true ->
      strip a ∈ authors_of rows S
      /\ lower (strip a) ∈ authors_of rows S
      /\ remove_char "." (strip a) ∈ authors_of rows S
      /\ remove_char "," (strip a) ∈ authors_of rows S)
  /\ (forall S folder_name,
         should_remove_folder S folder_name = true
         <-> strip folder_name ∈ S
             \/ lower (strip folder_name) ∈ S
             \/ remove_char "." (strip folder_name) ∈ S
             \/ remove_char "," (strip folder_name) ∈ S
             \/ re_sub_nonword_nonspace (lower (strip folder_name)) ∈ S)
  /\ (forall rows r,
         In r rows -> In "Jane Doe" (split_on "," (Authors r)) ->
         should_remove_folder (authors_of rows ∅) "Jane Doe" = true
         /\ should_remove_folder (authors_of rows ∅) "jane doe" = true)
  /\ should_remove_folder (authors_of [Row "A Book" "Jane Doe" "" "" ""] ∅) "Jane Doeson"
     = false.
Proof.
  split_and!.
  - intros rows S r a Hr Ha Ht.
    pose proof (authors_of_variants rows S r a Hr Ha Ht) as H.
    unfold author_variants in H. set_solver.
  - apply should_remove_folder_variations.
  - intros rows r Hr Ha.
    pose proof (authors_of_variants rows ∅ r "Jane Doe" Hr Ha eq_refl) as H.
    change (strip "Jane Doe") with "Jane Doe" in H.
    unfold author_variants in H.
    split; apply should_remove_folder_iff.
    + exists "Jane Doe". split; [by left | set_solver].
    + exists "jane doe". split; [by left|].
      change "jane doe" with (lower "Jane Doe"). set_solver.
  - vm_compute. reflexivity.
Qed.

Lemma author_variants_select_folders_witness :
  let S := authors_of [Row "A Book" "Jane Doe, J. R. Smith" "" "" ""] ∅ in
  ("J. R. Smith" ∈ S /\ "j. r. smith" ∈ S /\ "J R Smith" ∈ S)
  /\ should_remove_folder S "Jane Doe" = true
  /\ should_remove_folder S "jane doe" = true
  /\ should_remove_folder S " Jane (Doe)" = true.
Proof.
  pose proof author_variants_select_folders as (H1 & H2 & H3 & _).
  destruct (H1 [Row "A Book" "Jane Doe, J. R. Smith" "" "" ""] ∅
              (Row "A Book" "Jane Doe, J. R. Smith" "" "" "") " J. R. Smith")
    as (Ha & Hb & Hc & _).
  { by left. }
  { vm_compute. auto. }
  { reflexivity. }
  destruct (H1 [Row "A Book" "Jane Doe, J. R. Smith" "" "" ""] ∅
              (Row "A Book" "Jane Doe, J. R. Smith" "" "" "") "Jane Doe")
    as (_ & Hjane & _).
  { by left. }
  { vm_compute. auto. }
  { reflexivity. }
  split; [split_and!; [exact Ha | exact Hb | exact Hc]|].
  split_and!.
  - apply (H3 [Row "A Book" "Jane Doe, J. R. Smith" "" "" ""]
             (Row "A Book" "Jane Doe, J. R. Smith" "" "" "")).
    + by left.
    + vm_compute. auto.
  - apply (H3 [Row "A Book" "Jane Doe, J. R. Smith" "" "" ""]
             (Row "A Book" "Jane Doe, J. R. Smith" "" "" "")).
    + by left.
    + vm_compute. auto.
  - apply H2. do 4 right. exact Hjane.
Defined.

End AuthorSet.

Section Pruning.
Import Py PyStr Cleaner Catalog.

Lemma remove_folder_contained dry_run :
  contained (remove_folder dry_run) (remove_body dry_run) (fun _ => true) snd
    (fun s => removed_folders (self s)) (fun s => skipped_folders (self s)).
Proof.
  intros [folder_name folder_path] s.
  unfold remove_folder, remove_body, try_except. destruct dry_run.
  - eexists. split; [reflexivity|]. left. done.
  - unfold rmtree, tick, bind, get, modify, raise, removed_append, skipped_append.
    cbn [snd fst].
    destruct (fails (fsys s) (clock (fsys s))); cbn [fsys self].
    + eexists. split; [reflexivity|]. right. done.
    + destruct (existsb _ _); cbn [fsys self].
      * eexists. split; [reflexivity|]. left. done.
      * eexists. split; [reflexivity|]. right. done.
Qed.

Lemma remove_folder_dry folder s :
  remove_folder true folder s
  = (Ret tt,
     State (fsys s)
       (MkCleaner (music_path (self s)) (authors_to_remove (self s))
          (removed_folders (self s) ++ [snd folder]) (skipped_folders (self s)))).
Proof. by destruct folder. Qed.

(** The dry run lists every candidate and touches nothing. *)
Lemma dry_run_lists_candidates folders s :
  exists s', remove_folders folders true s = (Ret tt, s')
    /\ fsys s' = fsys s
    /\ removed_folders (self s') = removed_folders (self s) ++ map snd folders
    /\ skipped_folders (self s') = skipped_folders (self s).
Proof.
  unfold remove_folders.
  revert s. induction folders as [|folder folders IH]; intros s.
  - exists s. simpl. by rewrite app_nil_r.
  - cbn [for_each]. unfold bind. rewrite remove_folder_dry.
    match goal with |- context [for_each folders _ ?s1] =>
      destruct (IH s1) as (s' & Hrun & Hw & Hr & Hk) end.
    exists s'. split_and!; try done.
    rewrite Hr. cbn. by rewrite <- List.app_assoc.
Qed.

(** The removal: every candidate ends in exactly one of the two lists,
    and one whose deletion raised ends in the skipped list. *)
Lemma removal_contains_failures folders dry_run s :
  exists s' removed skipped,
    remove_folders folders dry_run s = (Ret tt, s')
    /\ removed_folders (self s') = removed_folders (self s) ++ removed
    /\ skipped_folders (self s') = skipped_folders (self s) ++ skipped
    /\ removed ++ skipped ≡ₚ map snd folders
    /\ (forall folder,
           In folder (failing (remove_folder dry_run) (remove_body dry_run)
                        (fun _ => true) folders s) ->
           In (snd folder) skipped).
Proof.
  destruct (batch_contained _ _ _ _ _ _ (remove_folder_contained dry_run) folders s)
    as (s' & ps & ks & Hrun & Hp & Hk & Hperm & Hfail).
  exists s', ps, ks. split_and!; try done.
  rewrite Hperm. clear. induction folders as [|f fs IH]; [done|]. cbn. by rewrite IH.
Qed.

Definition jane_world : world :=
  World true [("Jane Doe", true); ("Queen", true)] 0 (fun _ => false).

Definition two_authors : list row :=
  [Row "A Book" "Jane Doe" "" "" ""; Row "Another Book" "John Roe" "" "" ""].

Lemma load_authors_run csv s :
  load_authors_from_csv csv s
  = match csv with
    | Some rows =>
        (Ret true,
         State (fsys s)
           (MkCleaner (music_path (self s)) (authors_of rows (authors_to_remove (self s)))
              (removed_folders (self s)) (skipped_folders (self s))))
    | None => (Ret false, s)
    end.
Proof. by destruct csv. Qed.

(** The directories of the music folder that match the author set. *)
Definition matching_dirs (s : state) : list (string * string) :=
  map (fun dir_name => (dir_name, path_join (music_path (self s)) dir_name))
    (filter (fun dir_name =>
               should_remove_folder (authors_to_remove (self s)) dir_name = true)
       (map fst (filter (fun e => snd e = true) (entries (fsys s))))).

Lemma scan_folders_state s :
  scan_folders s
  = (Ret (if fails (fsys s) (clock (fsys s)) then [] else matching_dirs s),
     State (World (music_exists (fsys s)) (entries (fsys s)) (S (clock (fsys s)))
              (fails (fsys s)))
       (self s)).
Proof.
  unfold scan_folders, try_except, music_dirs, bind, tick, get, ret.
  by destruct (fails (fsys s) (clock (fsys s))).
Qed.

Lemma scan_folders_run s :
  exists s',
    scan_folders s
    = (Ret (if fails (fsys s) (clock (fsys s)) then [] else matching_dirs s), s')
    /\ entries (fsys s') = entries (fsys s)
    /\ self s' = self s.
Proof. rewrite scan_folders_state. by eexists. Qed.

(** The path under which [scan_folders] lists an entry of the music
    folder. *)
Definition entry_path (music_path : string) (e : string * bool) : string :=
  path_join music_path (fst e).

(** The matching logic: the entry is a directory and its name matches the
    author set. *)
Definition is_candidate (authors : gset string) (e : string * bool) : bool :=
  snd e && should_remove_folder authors (fst e).

Lemma matching_dirs_candidates s :
  matching_dirs s
  = map (fun e => (fst e, entry_path (music_path (self s)) e))
      (filter (fun e => is_candidate (authors_to_remove (self s)) e = true)
         (entries (fsys s))).
Proof.
  unfold matching_dirs.
  set (is_dir := fun e : string * bool => snd e = true).
  set (matches := fun dir_name : string =>
                    should_remove_folder (authors_to_remove (self s)) dir_name = true).
  set (selected := fun e : string * bool =>
                     is_candidate (authors_to_remove (self s)) e = true).
  induction (entries (fsys s)) as [|[name d] es IH]; [done|].
  destruct d.
  - rewrite (filter_cons_True is_dir) by done. cbn [map fst].
    destruct (should_remove_folder (authors_to_remove (self s)) name) eqn:E.
    + rewrite (filter_cons_True matches) by done.
      rewrite (filter_cons_True selected) by exact E.
      cbn [map fst]. by rewrite IH.
    + rewrite (filter_cons_False matches) by (unfold matches; congruence).
      rewrite (filter_cons_False selected)
        by (unfold selected, is_candidate; cbn [fst snd andb]; congruence).
      exact IH.
  - rewrite (filter_cons_False is_dir) by done.
    rewrite (filter_cons_False selected) by done.
    exact IH.
Qed.

(** The state the dry run leaves. *)
Lemma dry_run_state folders s :
  remove_folders folders true s
  = (Ret tt,
     State (fsys s)
       (MkCleaner (music_path (self s)) (authors_to_remove (self s))
          (removed_folders (self s) ++ map snd folders) (skipped_folders (self s)))).
Proof.
  unfold remove_folders. revert s.
  induction folders as [|folder folders IH]; intros s.
  - cbn. rewrite app_nil_r. by destruct s as [? []].
  - cbn [for_each]. unfold bind. rewrite remove_folder_dry, IH.
    cbn. by rewrite <- List.app_assoc.
Qed.

Lemma NoDup_map_inj {A B} (f : A -> B) (l : list A) x y :
  NoDup (map f l) -> In x l -> In y l -> f x = f y -> x = y.
Proof.
  induction l as [|a l IH]; [done|]. cbn [map].
  intros [Ha Hl]%NoDup_cons [-> | Hx] [-> | Hy] Heq; try done.
  - exfalso. apply Ha. rewrite Heq. apply list_elem_of_In, in_map. exact Hy.
  - exfalso. apply Ha. rewrite <- Heq. apply list_elem_of_In, in_map. exact Hx.
  - by apply IH.
Qed.

Lemma filter_all {A} (P : A -> Prop) `{forall x, Decision (P x)} (l : list A) :
  (forall x, P x) -> filter P l = l.
Proof.
  intros HP. induction l as [|x l IH]; [done|].
  rewrite filter_cons_True by apply HP. by rewrite IH.
Qed.

Lemma nonempty_branch {A B} (l : list A) (a b : B) :
  l <> [] -> match l with [] => a | _ :: _ => b end = b.
Proof. by destruct l. Qed.

Lemma filter_iff_on {A} (P Q : A -> Prop)
    `{forall x, Decision (P x)} `{forall x, Decision (Q x)} (l : list A) :
  (forall x, x ∈ l -> P x <-> Q x) -> filter P l = filter Q l.
Proof.
  induction l as [|x l IH]; intros HPQ; [done|].
  rewrite !filter_cons. specialize (HPQ x (list_elem_of_here x l)) as Hx.
  rewrite IH by (intros y Hy; apply HPQ; by right).
  destruct (decide (P x)), (decide (Q x)); tauto.
Qed.

Lemma world_eta w : World (music_exists w) (entries w) (clock w) (fails w) = w.
Proof. by destruct w. Qed.

(** [shutil.rmtree] on a directory that is there, when the call does not
    fail: the directory goes, the other entries stay. *)
Lemma rmtree_deletes folder_path s :
  fails (fsys s) (clock (fsys s)) = false ->
  (exists e, In e (entries (fsys s)) /\ snd e = true
             /\ entry_path (music_path (self s)) e = folder_path) ->
  rmtree folder_path s
  = (Ret tt,
     State (World (music_exists (fsys s))
              (filter (fun e => ~ (snd e = true
                                   /\ entry_path (music_path (self s)) e = folder_path))
                 (entries (fsys s)))
              (S (clock (fsys s))) (fails (fsys s)))
       (self s)).
Proof.
  intros Hf (e & He & Hd & Hp). unfold rmtree, bind, tick, get, modify, raise.
  rewrite Hf. cbn [fsys self entries music_exists clock fails].
  match goal with |- context [existsb ?h _] => set (here := h) end.
  assert (existsb here (entries (fsys s)) = true) as ->.
  { apply existsb_exists. exists e. split; [done|]. unfold here.
    rewrite Hd. cbn. by apply bool_decide_eq_true. }
  do 3 f_equal. apply list_filter_iff. intros x. unfold here, entry_path.
  destruct (snd x); cbn [andb].
  - rewrite bool_decide_eq_false. tauto.
  - split; [|done]. intros _ [? _]. done.
Qed.

(** The removal of directories that are there, under distinct paths, when
    no call fails: they all go, in the order of the list, and nothing is
    skipped. *)
Lemma remove_folders_deletes folders s :
  (forall n, fails (fsys s) n = false) ->
  NoDup (map snd folders) ->
  (forall folder, In folder folders ->
     exists e, In e (entries (fsys s)) /\ snd e = true
               /\ entry_path (music_path (self s)) e = snd folder) ->
  exists s',
    remove_folders folders false s = (Ret tt, s')
    /\ entries (fsys s')
       = filter (fun e => ~ (snd e = true
                             /\ entry_path (music_path (self s)) e ∈ map snd folders))
           (entries (fsys s))
    /\ removed_folders (self s') = removed_folders (self s) ++ map snd folders
    /\ skipped_folders (self s') = skipped_folders (self s).
Proof.
  unfold remove_folders. revert s.
  induction folders as [|[folder_name folder_path] folders IH]; intros s Hf Hnd Hin.
  - exists s. cbn [for_each map]. unfold ret. rewrite app_nil_r. split_and!; try done.
    symmetry. apply filter_all. intros e [_ H]. by apply elem_of_nil in H.
  - cbn [map snd] in Hnd. apply NoDup_cons in Hnd as [Hfresh Hnd].
    cbn [for_each]. unfold bind at 1, remove_folder, try_except, remove_body.
    cbn [snd]. unfold bind at 1.
    rewrite rmtree_deletes; [|apply Hf|by apply (Hin (folder_name, folder_path)); left].
    unfold removed_append, modify.
    cbn [fsys self music_path authors_to_remove removed_folders skipped_folders].
    match goal with |- context [for_each folders _ ?s0] => set (s1 := s0) end.
    destruct (IH s1) as (s' & Hrun & Hent & Hrem & Hskip).
    + intros n. apply Hf.
    + exact Hnd.
    + intros folder Hfolder.
      destruct (Hin folder (or_intror Hfolder)) as (e & He & Hd & Hp).
      exists e. split_and!; [|done|done]. cbn.
      apply list_elem_of_In, list_elem_of_filter. split; [|by apply list_elem_of_In].
      intros [_ Heq]. apply Hfresh. rewrite <- Heq, Hp.
      apply list_elem_of_In, in_map. exact Hfolder.
    + exists s'. split; [exact Hrun|]. cbn in Hent, Hrem, Hskip.
      split_and!.
      * rewrite Hent, list_filter_filter. apply list_filter_iff. intros e.
        cbn [map snd]. rewrite elem_of_cons. split.
        -- intros [H1 H2] [Hd [Heq | Hmem]]; [by apply H2 | by apply H1].
        -- intros H. split; intros [Hd Hx]; apply H; (split; [done|]); tauto.
      * rewrite Hrem. cbn [map snd]. by rewrite <- List.app_assoc.
      * exact Hskip.
Qed.

(** C7: the removal is run only after the answer "y".  With the music
    folder as the dry run saw it and no failing call, it deletes exactly
    the directories the matching logic selects, which are the ones the dry
    run listed, and leaves every other entry; the lists are reset in
    between, so that they then hold the deleted paths once and no skipped
    one.  On any other answer nothing is deleted and the lists hold what
    the dry run put there. *)
Theorem removal_deletes_dry_run_candidates rows response s :
  let authors := authors_of rows (authors_to_remove (self s)) in
  let candidates :=
    filter (fun e => is_candidate authors e = true) (entries (fsys s)) in
  let listed := map (entry_path (music_path (self s))) candidates in
  music_exists (fsys s) = true ->
  candidates <> [] ->
  NoDup (map (entry_path (music_path (self s))) (entries (fsys s))) ->
  (forall n, fails (fsys s) n = false) ->
  exists s',
    main (Some rows) response (fun es => es) s
    = (Ret (String.eqb (lower response) "y"), s')
    /\ if String.eqb (lower response) "y" then
         entries (fsys s')
         = filter (fun e => is_candidate authors e = false) (entries (fsys s))
         /\ removed_folders (self s') = listed
         /\ skipped_folders (self s') = []
       else
         entries (fsys s') = entries (fsys s)
         /\ removed_folders (self s') = removed_folders (self s) ++ listed
         /\ skipped_folders (self s') = skipped_folders (self s).
Proof.
  intros authors candidates listed Hmusic Hcand Hnd Hf.
  unfold main, bind at 1, get. rewrite Hmusic. cbn [negb].
  unfold bind at 1. rewrite load_authors_run. cbn [negb].
  match goal with |- context [bind scan_folders _ ?s0] => set (s1 := s0) end.
  unfold bind at 1. rewrite scan_folders_state.
  assert (fails (fsys s1) (clock (fsys s1)) = false) as -> by apply Hf.
  rewrite matching_dirs_candidates.
  cbn [s1 fsys self music_path authors_to_remove]. fold authors. fold candidates.
  set (folders := map (fun e => (fst e, entry_path (music_path (self s)) e)) candidates).
  assert (map snd folders = listed) as Hlisted.
  { unfold folders, listed. rewrite map_map. done. }
  rewrite (nonempty_branch folders) by (unfold folders; by intros ?%map_eq_nil).
  unfold confirm_and_remove, bind at 1.
  match goal with |- context [remove_folders folders true ?s0] => set (s2 := s0) end.
  rewrite dry_run_state.
  unfold meanwhile, bind at 1, modify at 1. cbn [fsys self]. rewrite world_eta.
  cbn [s2 fsys self music_path authors_to_remove removed_folders skipped_folders].
  destruct (String.eqb (lower response) "y").
  - unfold reset_lists, bind at 1, modify at 1. unfold bind.
    cbn [fsys self music_path authors_to_remove].
    match goal with |- context [remove_folders folders false ?s0] => set (s3 := s0) end.
    destruct (remove_folders_deletes folders s3) as (s' & -> & Hent & Hrem & Hskip).
    + intros n. apply Hf.
    + rewrite Hlisted. unfold listed.
      apply (NoDup_fmap_2_strong (entry_path (music_path (self s)))).
      * intros x y Hx Hy. apply (NoDup_map_inj _ (entries (fsys s))); [done | |].
        -- apply list_elem_of_In. apply list_elem_of_filter in Hx. tauto.
        -- apply list_elem_of_In. apply list_elem_of_filter in Hy. tauto.
      * apply NoDup_filter. by apply (NoDup_fmap_1 (entry_path (music_path (self s)))).
    + intros folder Hfolder. unfold folders in Hfolder.
      apply in_map_iff in Hfolder as (e & <- & He).
      apply list_elem_of_In, list_elem_of_filter in He as [Hc He].
      exists e. split_and!; [by apply list_elem_of_In | | done].
      unfold is_candidate in Hc. by apply andb_prop in Hc as [? _].
    + exists s'. split; [done|]. cbn in Hent, Hrem, Hskip.
      split_and!; [|by rewrite Hrem, Hlisted | exact Hskip].
      rewrite Hent. apply filter_iff_on. intros e He.
      rewrite Hlisted. unfold listed. split.
      * intros Hn. destruct (is_candidate authors e) eqn:Ecand; [|done].
        exfalso. apply Hn. split.
        -- unfold is_candidate in Ecand. by apply andb_prop in Ecand as [? _].
        -- apply list_elem_of_In, in_map. apply list_elem_of_In, list_elem_of_filter.
           split; [done | exact He].
      * intros Hc [Hd Hmem].
        apply list_elem_of_In, in_map_iff in Hmem as (e' & Heq & He').
        apply list_elem_of_In, list_elem_of_filter in He' as [Hc' He'].
        assert (e' = e) as ->.
        { apply (NoDup_map_inj _ (entries (fsys s)) _ _ Hnd); [| |done];
            by apply list_elem_of_In. }
        congruence.
  - eexists. split; [reflexivity|]. cbn [fsys self removed_folders skipped_folders].
    split_and!; [done | by rewrite Hlisted | done].
Qed.

Lemma removal_deletes_dry_run_candidates_witness :
  exists s',
    main (Some two_authors) "y" (fun es => es) (init "/Music" jane_world) = (Ret true, s')
    /\ entries (fsys s') = [("Queen", true)]
    /\ removed_folders (self s') = ["/Music/Jane Doe"]
    /\ skipped_folders (self s') = [].
Proof.
  destruct (removal_deletes_dry_run_candidates two_authors "y" (init "/Music" jane_world))
    as (s' & Hrun & Hyes).
  - reflexivity.
  - vm_compute. discriminate.
  - apply (bool_decide_unpack _). vm_compute. exact I.
  - intros n. reflexivity.
  - exists s'. split; [exact Hrun|]. exact Hyes.
Defined.

End Pruning.

(* ===================================================================== *)
(** * Failure containment *)
(* ===================================================================== *)

Section Walker.
Import Py PyStr Liberate.

(** The two report lists of [process_audiobooks]. *)
Definition lists (s : state) : list string * list string :=
  (processed_files s, skipped_files s).

Definition kept (v : list string * list string) (s : state) : Prop := lists s = v.

Lemma fs_kept {A} (m : M FS.world A) v :
  triple (kept v) (fs m) (fun _ => kept v) (kept v).
Proof.
  intros s Hs. unfold fs, zoom. by destruct (m (world s)) as [[a|e] w'].
Qed.

Lemma open_easy_kept new_filepath v :
  triple (kept v) (open_easy new_filepath) (fun _ => kept v) (kept v).
Proof.
  unfold open_easy. eapply triple_try.
  - eapply triple_bind; [apply fs_kept|]. intros tags. by apply triple_ret.
  - intros [|].
    + eapply triple_bind; [apply fs_kept|]. intros [|]; [by apply triple_ret|].
      eapply triple_bind; [apply fs_kept|]. intros u. by apply triple_ret.
    + by apply triple_raise.
Qed.

Lemma update_metadata_kept new_filepath b v :
  triple (kept v) (update_metadata new_filepath b) (fun _ => kept v) (kept v).
Proof.
  unfold update_metadata.
  eapply triple_bind; [apply open_easy_kept|]. intros audio.
  eapply triple_bind.
  { destruct (h_filename audio); [apply fs_kept | by apply triple_raise]. }
  intros u. eapply triple_bind; [apply fs_kept|]. intros audio_full. apply fs_kept.
Qed.

(** The [try] block of one file: it ends with the file in one of the two
    lists, or raises with both lists as they were. *)
Lemma process_body_lists audiobooks audiobooks_dir root file v :
  triple (kept v) (process_body audiobooks audiobooks_dir root file)
    (fun _ s => lists s = (v.1 ++ [file], v.2) \/ lists s = (v.1, v.2 ++ [file]))
    (kept v).
Proof.
  unfold process_body, process_match.
  assert (triple (kept v) (skipped_append file)
            (fun _ s => lists s = (v.1 ++ [file], v.2) \/ lists s = (v.1, v.2 ++ [file]))
            (kept v)) as Hskip.
  { apply triple_modify. intros s <-. by right. }
  destruct (find_matching_audiobook _ audiobooks) as [key|]; [|exact Hskip].
  destruct (truthy key); [|exact Hskip].
  destruct (PyDict.get key audiobooks) as [b|]; [|by apply triple_raise].
  eapply triple_bind; [apply fs_kept|]. intros ?.
  eapply triple_bind; [apply fs_kept|]. intros ?.
  eapply triple_bind; [apply fs_kept|]. intros ?.
  eapply triple_bind; [apply update_metadata_kept|]. intros ?.
  apply triple_modify. intros s <-. by left.
Qed.

Definition is_mp3 (item : string * string) : bool := endswith (lower item.2) ".mp3".

Definition process_item (audiobooks : PyDict.dict book) (audiobooks_dir : string)
    (item : string * string) : M state unit :=
  process_file audiobooks audiobooks_dir item.1 item.2.

Definition item_body (audiobooks : PyDict.dict book) (audiobooks_dir : string)
    (item : string * string) : M state unit :=
  process_body audiobooks audiobooks_dir item.1 item.2.

Lemma process_file_contained audiobooks audiobooks_dir :
  contained (process_item audiobooks audiobooks_dir) (item_body audiobooks audiobooks_dir)
    is_mp3 snd processed_files skipped_files.
Proof.
  intros [root file] s. unfold process_item, item_body, process_file, is_mp3. cbn [fst snd].
  destruct (endswith (lower file) ".mp3"); [|by exists s].
  pose proof (process_body_lists audiobooks audiobooks_dir root file (lists s) s eq_refl) as H.
  unfold try_except.
  destruct (process_body audiobooks audiobooks_dir root file s) as [[u|e] s1].
  - destruct u. exists s1. split; [done|]. unfold lists in H. cbn in H.
    destruct H as [[= -> ->] | [= -> ->]]; [left | right]; done.
  - eexists. split; [reflexivity|]. right. unfold kept, lists in H.
    injection H as -> ->. done.
Qed.

(** The files of a walk, each with its root. *)
Definition walk_items (walk : list (string * list string)) : list (string * string) :=
  flat_map (fun '(root, files) => map (pair root) files) walk.

Lemma walk_loop_items audiobooks audiobooks_dir walk s :
  walk_loop audiobooks audiobooks_dir walk s
  = for_each (walk_items walk) (process_item audiobooks audiobooks_dir) s.
Proof.
  unfold walk_loop. revert s.
  induction walk as [|[root files] walk IH]; intros s; [done|].
  cbn [for_each walk_items flat_map]. rewrite for_each_app. unfold bind.
  rewrite for_each_map.
  change (for_each files (fun x => process_item audiobooks audiobooks_dir (root, x)) s)
    with (for_each files (fun file => process_file audiobooks audiobooks_dir root file) s).
  destruct (for_each files _ s) as [[u|e] s']; [apply IH | done].
Qed.

Definition fails_at (n : nat) (k : nat) : bool := Nat.eqb k n.

Definition one_file_state : state :=
  State (FS.World {[ "/M/Music/Tolkien/The Hobbit.mp3" := FS.File None ]} 0
           (fails_at 0) (fun _ => true) []) [] [].

Definition hobbit_catalog : PyDict.dict book :=
  load_audiobooks [Catalog.Row "The Hobbit" "J.R.R. Tolkien" "Rob Inglis" "" ""].

(** C8, as the specification states it, fails for [process_audiobooks]:
    what the skipped list receives for a failing file is its name, not its
    path. *)
Lemma skipped_list_holds_file_names :
  ~ (forall audiobooks audiobooks_dir walk s s',
        walk_loop audiobooks audiobooks_dir walk s = (Ret tt, s') ->
        forall root file,
          In (root, file)
             (failing (process_item audiobooks audiobooks_dir)
                (item_body audiobooks audiobooks_dir) is_mp3 (walk_items walk) s) ->
          In (path_join root file) (skipped_files s')).
Proof.
  intros H.
  specialize (H hobbit_catalog "/M/Audiobooks" [("/M/Music/Tolkien", ["The Hobbit.mp3"])]
                one_file_state _ eq_refl "/M/Music/Tolkien" "The Hobbit.mp3").
  vm_compute in H. destruct H as [H | []]; [by left | discriminate H].
Qed.

(** C8 (amended): the walk of [process_audiobooks] and [remove_folders]
    never raise; every item ends in exactly one of the two lists of its
    loop, and an item whose [try] block raises ends in the skipped list, a
    file under its file name and a folder under its path; the items after
    it are processed as usual. *)
Theorem failures_are_contained :
  (forall audiobooks audiobooks_dir walk s,
      exists s' processed skipped,
        walk_loop audiobooks audiobooks_dir walk s = (Ret tt, s')
        /\ processed_files s' = processed_files s ++ processed
        /\ skipped_files s' = skipped_files s ++ skipped
        /\ processed ++ skipped ≡ₚ snd <$> List.filter is_mp3 (walk_items walk)
        /\ (forall item,
               In item (failing (process_item audiobooks audiobooks_dir)
                          (item_body audiobooks audiobooks_dir) is_mp3
                          (walk_items walk) s) ->
               In item.2 skipped))
  /\ (forall folders dry_run s,
         exists s' removed skipped,
           Cleaner.remove_folders folders dry_run s = (Ret tt, s')
           /\ Cleaner.removed_folders (Cleaner.self s')
              = Cleaner.removed_folders (Cleaner.self s) ++ removed
           /\ Cleaner.skipped_folders (Cleaner.self s')
              = Cleaner.skipped_folders (Cleaner.self s) ++ skipped
           /\ removed ++ skipped ≡ₚ map snd folders
           /\ (forall folder,
                  In folder (failing (Cleaner.remove_folder dry_run)
                               (Cleaner.remove_body dry_run) (fun _ => true) folders s) ->
                  In folder.2 skipped)).
Proof.
  split.
  - intros audiobooks audiobooks_dir walk s. rewrite walk_loop_items.
    apply (batch_contained _ _ _ _ _ _ (process_file_contained audiobooks audiobooks_dir)).
  - apply removal_contains_failures.
Qed.

Lemma failures_are_contained_witness :
  exists s' processed skipped,
    walk_loop hobbit_catalog "/M/Audiobooks"
      [("/M/Music/Tolkien", ["The Hobbit.mp3"; "cover.jpg"; "Track 07.mp3"])]
      one_file_state = (Ret tt, s')
    /\ processed_files s' = processed
    /\ skipped_files s' = skipped
    /\ In "The Hobbit.mp3" skipped
    /\ In "Track 07.mp3" skipped.
Proof.
  destruct (proj1 failures_are_contained hobbit_catalog "/M/Audiobooks"
              [("/M/Music/Tolkien", ["The Hobbit.mp3"; "cover.jpg"; "Track 07.mp3"])]
              one_file_state)
    as (s' & processed & skipped & Hrun & Hp & Hk & Hperm & Hfail).
  exists s', processed, skipped. split_and!; [exact Hrun | exact Hp | exact Hk | |].
  - apply (Hfail ("/M/Music/Tolkien", "The Hobbit.mp3")). vm_compute. by left.
  - vm_compute in Hrun. injection Hrun as <-. vm_compute in Hk. subst skipped.
    right. by left.
Defined.

End Walker.

(* ===================================================================== *)
(** * Tag fusion *)
(* ===================================================================== *)

Section TagFusion.
Import Py PyStr Mutagen.

(** What [save] leaves out: a text frame without text, that is, without
    a value or with the empty string as its one value. *)
Definition without_text (f : frame) : Prop :=
  exists id encoding,
    f = TextFrame id encoding [] \/ f = TextFrame id encoding [EmptyString].

Lemma text_str_empty text :
  text_str text = EmptyString <-> text = [] \/ text = [EmptyString].
Proof.
  unfold text_str, join. destruct text as [|x [|y text]]; cbn [String.concat].
  - split; [by left | done].
  - split; [intros ->; by right | by intros [? | [= ->]]].
  - split; [|by intros [? | ?]]. by destruct x.
Qed.

Lemma is_written_false f : is_written f = false <-> without_text f.
Proof.
  destruct f as [id encoding text | key data]; cbn [is_written].
  - assert (PyStr.truthy (text_str text) = false <-> text_str text = EmptyString) as ->.
    { by destruct (text_str text). }
    rewrite text_str_empty. split.
    + intros [-> | ->]; exists id, encoding; [by left | by right].
    + intros (? & ? & [[= _ _ ->] | [= _ _ ->]]); [by left | by right].
  - split; [done|]. by intros (? & ? & [? | ?]).
Qed.

Lemma is_written_true f : is_written f = true <-> ~ without_text f.
Proof. rewrite <- is_written_false. by destruct (is_written f). Qed.

Lemma saved_lookup (tags : ID3) key :
  saved tags !! key
  = match tags !! key with
    | Some f => if is_written f then Some f else None
    | None => None
    end.
Proof.
  unfold saved. destruct (tags !! key) as [f|] eqn:E.
  - destruct (is_written f) eqn:Ew.
    + by apply map_lookup_filter_Some.
    + apply map_lookup_filter_None. right. intros f' Hf'. cbn.
      rewrite E in Hf'. injection Hf' as <-. by rewrite Ew.
  - apply map_lookup_filter_None. by left.
Qed.

(** A saved container holds the frames it was given, those without text
    apart. *)
Lemma saved_lookup_Some (tags : ID3) key f :
  saved tags !! key = Some f <-> tags !! key = Some f /\ ~ without_text f.
Proof.
  rewrite saved_lookup, <- is_written_true.
  destruct (tags !! key) as [f'|]; [|by split; [|intros [? _]]].
  destruct (is_written f') eqn:Ew; split.
  - by intros [= <-].
  - by intros [[= <-] _].
  - done.
  - intros [[= <-] H]. congruence.
Qed.

Lemma saved_empty : saved ∅ = (∅ : ID3).
Proof. apply map_filter_empty. Qed.

Lemma saved_add_saved f (tags : ID3) : saved (add f (saved tags)) = saved (add f tags).
Proof.
  apply map_eq. intros key. rewrite !saved_lookup. unfold add.
  destruct (decide (key = HashKey f)) as [-> | Hne].
  - by rewrite !lookup_insert_eq.
  - rewrite !lookup_insert_ne by done. rewrite saved_lookup.
    destruct (tags !! key) as [f'|]; [|done].
    destruct (is_written f') eqn:Ew; [by rewrite Ew | done].
Qed.

Lemma wf_insert_fresh (m : ID3) i x :
  m !! i = None -> wf (<[i:=x]> m) -> HashKey x = i /\ wf m.
Proof.
  intros Hi Hwf. split.
  - apply Hwf. apply lookup_insert_eq.
  - intros k f Hk. apply Hwf. rewrite lookup_insert_ne; [done|]. congruence.
Qed.

(** The loop of lines 55-57 keeps the chapter and table-of-contents
    frames and nothing else. *)
Lemma copy_chapters_lookup (audio : ID3) key :
  wf audio ->
  Organizer.copy_chapters audio !! key
  = if is_chapter_key key then audio !! key else None.
Proof.
  unfold Organizer.copy_chapters. revert key.
  apply (map_fold_weak_ind
           (fun (r : ID3) (m : ID3) =>
              forall key, wf m -> r !! key = if is_chapter_key key then m !! key else None)).
  - intros key _. rewrite !lookup_empty. by destruct (is_chapter_key key).
  - intros i x m r Hi IH key Hwf.
    destruct (wf_insert_fresh m i x Hi Hwf) as [Hx Hm].
    destruct (decide (key = i)) as [-> | Hne].
    + rewrite lookup_insert_eq. destruct (is_chapter_key i) eqn:E.
      * unfold add. rewrite Hx. apply lookup_insert_eq.
      * rewrite IH, E by done. done.
    + rewrite lookup_insert_ne by done.
      destruct (is_chapter_key i) eqn:E; [|by apply IH].
      unfold add. rewrite Hx, lookup_insert_ne by done. by apply IH.
Qed.

(** The identifiers that [update_audiobook_metadata] writes. *)
Definition organizer_ids : list string :=
  ["TIT2"; "TPE1"; "TALB"; "TCON"; "TMED"; "TCMP"].

(** The identifiers that [process_audiobooks] writes. *)
Definition liberate_ids : list string :=
  ["TIT2"; "TPE1"; "TPE2"; "TALB"; "TCON"; "TCOM"; "TMED"; "TCMP"].

Lemma new_tags_of_other (audio : ID3) title artist album key :
  ~ In key organizer_ids ->
  Organizer.new_tags_of audio title artist album !! key
  = Organizer.copy_chapters audio !! key.
Proof.
  intros Hk. unfold Organizer.new_tags_of, add. cbn [HashKey TIT2 TPE1 TALB TCON TMED TCMP].
  rewrite !lookup_insert_ne; [done|..]; intros <-; apply Hk; cbn; tauto.
Qed.

Lemma chapter_key_not_written key :
  is_chapter_key key = true -> ~ In key liberate_ids /\ ~ In key organizer_ids.
Proof.
  intros Hc. split; intros Hin; cbn in Hin;
    repeat (destruct Hin as [<- | Hin]; [by vm_compute in Hc|]); done.
Qed.

Lemma new_tags_of_fields (audio : ID3) title artist album :
  let new_tags := Organizer.new_tags_of audio title artist album in
  new_tags !! "TIT2" = Some (TIT2 title)
  /\ new_tags !! "TPE1" = Some (TPE1 artist)
  /\ new_tags !! "TALB" = Some (TALB album)
  /\ new_tags !! "TCON" = Some (TCON "Audiobook")
  /\ new_tags !! "TMED" = Some (TMED "Audiobook")
  /\ new_tags !! "TCMP" = Some (TCMP "1").
Proof.
  unfold Organizer.new_tags_of, add. cbn [HashKey TIT2 TPE1 TALB TCON TMED TCMP].
  split_and!; by simplify_map_eq.
Qed.

Lemma fuse_other b (tags : ID3) key :
  ~ In key liberate_ids -> Liberate.fuse b tags !! key = tags !! key.
Proof.
  intros Hk.
  unfold Liberate.fuse, Liberate.add_audiobook_frames, Liberate.set_book_tags, add, easy_set.
  cbn [HashKey TMED TCMP easy_frame_id].
  destruct (PyStr.truthy (Liberate.series b));
    (rewrite !lookup_insert_ne; [done|..]; intros <-; apply Hk; cbn; tauto).
Qed.

Lemma fuse_fields b (tags : ID3) :
  let new_tags := Liberate.fuse b tags in
  new_tags !! "TIT2" = Some (TIT2 (Liberate.title b))
  /\ new_tags !! "TPE1" = Some (TPE1 (Liberate.author b))
  /\ new_tags !! "TALB"
     = Some (TALB (if PyStr.truthy (Liberate.series b)
                   then Liberate.series b +:+ " - " +:+ Liberate.title b
                   else Liberate.title b))
  /\ new_tags !! "TCON" = Some (TCON "Audiobook")
  /\ new_tags !! "TMED" = Some (TMED "Audiobook")
  /\ new_tags !! "TCMP" = Some (TCMP "1")
  /\ new_tags !! "TPE2" = Some (TPE2 (Liberate.narrator b))
  /\ new_tags !! "TCOM" = Some (TCOM (Liberate.narrator b)).
Proof.
  unfold Liberate.fuse, Liberate.add_audiobook_frames, Liberate.set_book_tags, add, easy_set.
  cbn [HashKey TMED TCMP easy_frame_id].
  destruct (PyStr.truthy (Liberate.series b)); split_and!; by simplify_map_eq.
Qed.

End TagFusion.

Section TagRuns.
Import Py PyStr Mutagen FS.

Lemma id3_load_ok p (tags : ID3) w :
  fails w (clock w) = false ->
  nodes w !! p = Some (File (Some tags)) ->
  id3_load p w = (Ret tags, bump w).
Proof.
  intros Hf Hp. unfold id3_load, bind, tick, get. rewrite Hf.
  cbn [bump nodes]. by rewrite Hp.
Qed.

Lemma id3_save_ok p (tags : ID3) w :
  fails w (clock w) = false ->
  nodes w !! p <> Some Dir ->
  id3_save p tags w = (Ret tt, set_nodes (insert p (File (Some (saved tags)))) (bump w)).
Proof.
  intros Hf Hp. unfold id3_save, bind, tick, get. rewrite Hf.
  cbn [bump nodes]. by destruct (nodes w !! p) as [[|?]|].
Qed.

(** The second save of lines 144-151 writes what one save of all the
    frames would write. *)
Lemma saved_fuse b (tags : ID3) :
  saved (Liberate.add_audiobook_frames (saved (Liberate.set_book_tags b tags)))
  = saved (Liberate.fuse b tags).
Proof.
  unfold Liberate.fuse, Liberate.add_audiobook_frames.
  set (easy := Liberate.set_book_tags b tags).
  rewrite <- (saved_add_saved (TCMP "1") (add (TMED "Audiobook") (saved easy))).
  rewrite (saved_add_saved (TMED "Audiobook") easy).
  apply saved_add_saved.
Qed.

(** Lines 124-151 on a file that has a container, when no call fails:
    the file ends with the frames of [fuse b tags] that are written. *)
Lemma update_metadata_fuses s new_filepath b (tags : ID3) :
  nodes (Liberate.world s) !! new_filepath = Some (File (Some tags)) ->
  (forall i, i < 4 ->
     fails (Liberate.world s) (clock (Liberate.world s) + i) = false) ->
  exists s',
    Liberate.update_metadata new_filepath b s = (Ret tt, s')
    /\ nodes (Liberate.world s')
       = <[new_filepath := File (Some (saved (Liberate.fuse b tags)))]>
           (nodes (Liberate.world s))
    /\ Liberate.processed_files s' = Liberate.processed_files s
    /\ Liberate.skipped_files s' = Liberate.skipped_files s.
Proof.
  intros Hp Hf. destruct s as [w ps ks]. cbn [Liberate.world] in *.
  pose proof (Hf 0 ltac:(lia)) as H0. pose proof (Hf 1 ltac:(lia)) as H1.
  pose proof (Hf 2 ltac:(lia)) as H2. pose proof (Hf 3 ltac:(lia)) as H3.
  rewrite Nat.add_0_r in H0. rewrite Nat.add_1_r in H1.
  replace (clock w + 2) with (S (S (clock w))) in H2 by lia.
  replace (clock w + 3) with (S (S (S (clock w)))) in H3 by lia.
  unfold Liberate.update_metadata, Liberate.open_easy, Liberate.fs, zoom, bind, try_except, ret.
  cbn [Liberate.world Liberate.processed_files Liberate.skipped_files].
  rewrite (id3_load_ok _ tags) by done.
  cbn [Liberate.h_filename Liberate.h_tags Liberate.world].
  rewrite id3_save_ok; [|exact H1|cbn; by rewrite Hp].
  cbn [Liberate.world].
  rewrite (id3_load_ok _ (saved (Liberate.set_book_tags b tags)));
    [|exact H2|cbn; apply lookup_insert_eq].
  rewrite id3_save_ok; [|exact H3|cbn; by rewrite lookup_insert_eq].
  eexists. split; [reflexivity|].
  cbn [Liberate.world Liberate.processed_files Liberate.skipped_files nodes set_nodes bump].
  split; [|done]. by rewrite insert_insert_eq, saved_fuse.
Qed.

(** [update_audiobook_metadata] on a container with frames, when its one
    call does not fail: the file ends with [new_tags_of]. *)
Lemma update_audiobook_metadata_writes s filepath (audio : ID3) title artist album :
  truthy audio = true ->
  first_text audio "TIT2" "Unknown Title" = Some title ->
  first_text audio "TPE1" "Unknown Artist" = Some artist ->
  first_text audio "TALB" title = Some album ->
  fails (Organizer.world s) (clock (Organizer.world s)) = false ->
  nodes (Organizer.world s) !! filepath <> Some Dir ->
  exists s',
    Organizer.update_audiobook_metadata filepath (Some audio) s = (Ret true, s')
    /\ nodes (Organizer.world s')
       = <[filepath := File (Some (saved (Organizer.new_tags_of audio title artist album)))]>
           (nodes (Organizer.world s))
    /\ Organizer.self s' = Organizer.self s.
Proof.
  intros Ht H1 H2 H3 Hf Hp. destruct s as [w self0]. cbn [Organizer.world] in *.
  unfold Organizer.update_audiobook_metadata, try_except, bind.
  cbn [opt_truthy]. rewrite Ht. unfold ret at 1. rewrite Ht.
  unfold Organizer.first_text. rewrite H1. unfold ret at 1.
  rewrite H2. unfold ret at 1. rewrite H3. unfold ret at 1.
  unfold Organizer.fs, zoom. cbn [Organizer.world].
  rewrite id3_save_ok by done.
  eexists. split; [reflexivity|]. done.
Qed.

End TagRuns.

Section TagClaims.
Import Py PyStr Mutagen FS.

(** A full overwrite: of [old], [new] keeps the chapter and
    table-of-contents frames, untouched, and besides them holds only the
    frames [written]. *)
Definition keeps_chapters_only (old new : ID3) (written : list string) : Prop :=
  forall key,
    (is_chapter_key key = true -> new !! key = old !! key)
    /\ (is_chapter_key key = false -> ~ In key written -> new !! key = None).

Definition chapter_frame : frame := OtherFrame "CHAP:ch0" [Byte.x00; Byte.x2a].
Definition comment_frame : frame := OtherFrame "COMM::eng" [Byte.x68; Byte.x69].

Definition tagged_file : ID3 :=
  {[ "CHAP:ch0" := chapter_frame;
     "COMM::eng" := comment_frame;
     "TIT2" := TIT2 "Chapter 1";
     "TPE2" := TPE2 "Various" ]}.

Definition quiet_world (nodes : gmap string node) : world :=
  World nodes 0 (fun _ => false) (fun _ => true) [].

Definition hobbit : Liberate.book :=
  Liberate.Book "The Hobbit" "J.R.R. Tolkien" "" "" "".

Definition tagged_state : Liberate.state :=
  Liberate.State (quiet_world {[ "/A/hobbit.mp3" := File (Some tagged_file) ]}) [] [].

(** C2, as the specification states it, fails for [process_audiobooks]:
    the file keeps its comment frame, which is neither a chapter frame nor
    one of the frames written. *)
Lemma liberate_keeps_other_frames :
  ~ (forall s new_filepath b (tags : ID3) s',
        nodes (Liberate.world s) !! new_filepath = Some (File (Some tags)) ->
        Liberate.update_metadata new_filepath b s = (Ret tt, s') ->
        exists new_tags,
          nodes (Liberate.world s') !! new_filepath = Some (File (Some new_tags))
          /\ keeps_chapters_only tags new_tags liberate_ids).
Proof.
  intros H.
  destruct (H tagged_state "/A/hobbit.mp3" hobbit tagged_file _ eq_refl eq_refl)
    as (new_tags & Hnew & Hkeep).
  vm_compute in Hnew. injection Hnew as <-.
  destruct (Hkeep "COMM::eng") as [_ Hgone].
  specialize (Hgone eq_refl). vm_compute in Hgone.
  assert (Some comment_frame = None) as Habs; [|discriminate Habs].
  apply Hgone. intros Hin. repeat (destruct Hin as [Hin | Hin]; [discriminate Hin|]). done.
Qed.

(** What a save leaves of the text frame [mk text]: the frame, or
    nothing when the text is empty. *)
Definition written_text (mk : string -> frame) (text : string) : option frame :=
  if PyStr.truthy text then Some (mk text) else None.

Lemma saved_text_frame (tags : ID3) id text :
  tags !! id = Some (TextFrame id 3 [text]) ->
  saved tags !! id = written_text (fun text => TextFrame id 3 [text]) text.
Proof.
  intros H. rewrite saved_lookup, H. unfold written_text. by destruct text.
Qed.

Lemma saved_other_frame (tags : ID3) key k data :
  tags !! key = Some (OtherFrame k data) -> saved tags !! key = Some (OtherFrame k data).
Proof. intros H. by rewrite saved_lookup, H. Qed.

(** C2 (amended): [update_audiobook_metadata], when it saves, replaces the
    container of the file by one that holds the chapter and
    table-of-contents frames of the input, untouched, those of the six
    frames it writes whose text is not empty, and nothing else.
    [process_audiobooks] instead updates the container in place: every
    frame it does not write, the chapter and table-of-contents frames among
    them, stays as it was, text frames without text apart, which no save
    writes. *)
Theorem fusion_preserves_chapter_frames :
  (forall s filepath (audio : ID3) title artist album,
      wf audio ->
      truthy audio = true ->
      first_text audio "TIT2" "Unknown Title" = Some title ->
      first_text audio "TPE1" "Unknown Artist" = Some artist ->
      first_text audio "TALB" title = Some album ->
      fails (Organizer.world s) (clock (Organizer.world s)) = false ->
      nodes (Organizer.world s) !! filepath <> Some Dir ->
      exists s' new_tags,
        Organizer.update_audiobook_metadata filepath (Some audio) s = (Ret true, s')
        /\ nodes (Organizer.world s') !! filepath = Some (File (Some new_tags))
        /\ (forall key k data,
               is_chapter_key key = true ->
               audio !! key = Some (OtherFrame k data) ->
               new_tags !! key = Some (OtherFrame k data))
        /\ (forall key f,
               is_chapter_key key = true ->
               (new_tags !! key = Some f <-> audio !! key = Some f /\ ~ without_text f))
        /\ (forall key,
               is_chapter_key key = false -> ~ In key organizer_ids ->
               new_tags !! key = None)
        /\ new_tags !! "TIT2" = written_text TIT2 title
        /\ new_tags !! "TPE1" = written_text TPE1 artist
        /\ new_tags !! "TALB" = written_text TALB album
        /\ new_tags !! "TCON" = Some (TCON "Audiobook")
        /\ new_tags !! "TMED" = Some (TMED "Audiobook")
        /\ new_tags !! "TCMP" = Some (TCMP "1"))
  /\ (forall s new_filepath b (tags : ID3),
         nodes (Liberate.world s) !! new_filepath = Some (File (Some tags)) ->
         (forall i, i < 4 ->
            fails (Liberate.world s) (clock (Liberate.world s) + i) = false) ->
         exists s' new_tags,
           Liberate.update_metadata new_filepath b s = (Ret tt, s')
           /\ nodes (Liberate.world s') !! new_filepath = Some (File (Some new_tags))
           /\ (forall key k data,
                  is_chapter_key key = true ->
                  tags !! key = Some (OtherFrame k data) ->
                  new_tags !! key = Some (OtherFrame k data))
           /\ (forall key f,
                  ~ In key liberate_ids ->
                  (new_tags !! key = Some f <-> tags !! key = Some f /\ ~ without_text f))).
Proof.
  split.
  - intros s filepath audio title artist album Hwf Ht H1 H2 H3 Hf Hp.
    destruct (update_audiobook_metadata_writes s filepath audio title artist album)
      as (s' & Hrun & Hnodes & _); try done.
    exists s', (saved (Organizer.new_tags_of audio title artist album)).
    destruct (new_tags_of_fields audio title artist album)
      as (E1 & E2 & E3 & E4 & E5 & E6).
    split_and!; [done | by rewrite Hnodes, lookup_insert_eq |..].
    + intros key k data Hc Hk. apply saved_other_frame.
      destruct (chapter_key_not_written key Hc) as [_ Hn].
      by rewrite new_tags_of_other, copy_chapters_lookup, Hc.
    + intros key f Hc. rewrite saved_lookup_Some.
      destruct (chapter_key_not_written key Hc) as [_ Hn].
      by rewrite new_tags_of_other, copy_chapters_lookup, Hc.
    + intros key Hc Hk.
      by rewrite saved_lookup, new_tags_of_other, copy_chapters_lookup, Hc.
    + by apply (saved_text_frame _ "TIT2").
    + by apply (saved_text_frame _ "TPE1").
    + by apply (saved_text_frame _ "TALB").
    + by rewrite saved_lookup, E4.
    + by rewrite saved_lookup, E5.
    + by rewrite saved_lookup, E6.
  - intros s new_filepath b tags Hp Hf.
    destruct (update_metadata_fuses s new_filepath b tags Hp Hf) as (s' & Hrun & Hnodes & _).
    exists s', (saved (Liberate.fuse b tags)).
    split_and!; [done | by rewrite Hnodes, lookup_insert_eq | |].
    + intros key k data Hc Hk. apply saved_other_frame.
      rewrite fuse_other; [done|]. by apply chapter_key_not_written.
    + intros key f Hk. by rewrite saved_lookup_Some, fuse_other.
Qed.

Definition organizer_state : Organizer.state :=
  Organizer.State (quiet_world {[ "/A/hobbit.mp3" := File (Some tagged_file) ]})
    (Organizer.Processor "/Audiobooks" [] [] ∅).

Lemma tagged_file_wf : wf tagged_file.
Proof.
  change (map_Forall (fun k f => HashKey f = k) tagged_file).
  apply (bool_decide_unpack (map_Forall (fun k f => HashKey f = k) tagged_file)).
  vm_compute. exact I.
Defined.

Lemma fusion_preserves_chapter_frames_witness :
  (exists s' new_tags,
      Organizer.update_audiobook_metadata "/A/hobbit.mp3" (Some tagged_file) organizer_state
      = (Ret true, s')
      /\ nodes (Organizer.world s') !! "/A/hobbit.mp3" = Some (File (Some new_tags))
      /\ new_tags !! "CHAP:ch0" = Some chapter_frame
      /\ new_tags !! "COMM::eng" = None
      /\ new_tags !! "TIT2" = Some (TIT2 "Chapter 1"))
  /\ (exists s' new_tags,
         Liberate.update_metadata "/A/hobbit.mp3" hobbit tagged_state = (Ret tt, s')
         /\ nodes (Liberate.world s') !! "/A/hobbit.mp3" = Some (File (Some new_tags))
         /\ new_tags !! "CHAP:ch0" = Some chapter_frame
         /\ new_tags !! "COMM::eng" = Some comment_frame).
Proof.
  split.
  - destruct (proj1 fusion_preserves_chapter_frames organizer_state "/A/hobbit.mp3"
                tagged_file "Chapter 1" "Unknown Artist" "Chapter 1")
      as (s' & new_tags & Hrun & Hnew & Hchap & _ & Hgone & Htitle & _).
    + exact tagged_file_wf.
    + vm_compute. reflexivity.
    + vm_compute. reflexivity.
    + vm_compute. reflexivity.
    + vm_compute. reflexivity.
    + reflexivity.
    + vm_compute. discriminate.
    + exists s', new_tags. split_and!; [exact Hrun | exact Hnew | | | exact Htitle].
      * apply (Hchap "CHAP:ch0" "CHAP:ch0" [Byte.x00; Byte.x2a]); vm_compute; reflexivity.
      * apply Hgone; [vm_compute; reflexivity|].
        intros Hin. repeat (destruct Hin as [Hin | Hin]; [discriminate Hin|]). exact Hin.
  - destruct (proj2 fusion_preserves_chapter_frames tagged_state "/A/hobbit.mp3" hobbit
                tagged_file)
      as (s' & new_tags & Hrun & Hnew & Hchap & Hkept).
    + vm_compute. reflexivity.
    + intros i _. reflexivity.
    + exists s', new_tags. split_and!; [exact Hrun | exact Hnew | |].
      * apply (Hchap "CHAP:ch0" "CHAP:ch0" [Byte.x00; Byte.x2a]); vm_compute; reflexivity.
      * apply Hkept.
        -- intros Hin. repeat (destruct Hin as [Hin | Hin]; [discriminate Hin|]). exact Hin.
        -- split; [vm_compute; reflexivity|].
           intros (id & encoding & [H | H]); discriminate H.
Defined.




End TagClaims.

(* ===================================================================== *)
(** * Destination paths *)
(* ===================================================================== *)

Section Planner.
Import Py PyStr FS Organizer.

Lemma str_of_nat_inj j k : str_of_nat j = str_of_nat k -> j = k.
Proof.
  unfold str_of_nat. intros H. apply Unsigned.to_uint_inj.
  apply (f_equal NilEmpty.uint_of_string) in H. rewrite !NilEmpty.usu in H. congruence.
Qed.

Lemma startswith_slash_cons c r :
  startswith (String c r) "/" = if ascii_dec "/" c then true else false.
Proof.
  unfold startswith. cbn [String.prefix].
  destruct (ascii_dec "/" c); [by destruct r | done].
Qed.

Lemma startswith_slash_app base c r r' :
  startswith (base +:+ String c r) "/" = startswith (base +:+ String c r') "/".
Proof.
  destruct base as [|b base].
  - by rewrite !app_empty_l, !startswith_slash_cons.
  - by rewrite !app_cons, !startswith_slash_cons.
Qed.

Lemma path_join_inj a x y :
  startswith x "/" = startswith y "/" -> path_join a x = path_join a y -> x = y.
Proof.
  unfold path_join. intros ->. destruct (startswith y "/"); [done|].
  destruct (negb (truthy a) || endswith a "/"); intros H.
  - by apply (String.app_inj a) in H.
  - apply (String.app_inj a) in H. by apply (String.app_inj "/") in H.
Qed.

Lemma numbered_inj book_dir filename j k :
  numbered book_dir filename j = numbered book_dir filename k -> j = k.
Proof.
  unfold numbered. destruct (splitext filename) as [base ext]. intros H.
  apply path_join_inj in H.
  - apply (String.app_inj base), (String.app_inj "_"), app_inv_tail in H.
    by apply str_of_nat_inj.
  - apply startswith_slash_app.
Qed.

Lemma path_exists_dom w p : path_exists w p = true <-> p ∈ dom (nodes w).
Proof. unfold path_exists. by rewrite bool_decide_eq_true, elem_of_dom. Qed.

Lemma path_exists_false w p : path_exists w p = false <-> nodes w !! p = None.
Proof.
  unfold path_exists. rewrite bool_decide_eq_false, <- eq_None_not_Some. done.
Qed.

(** The loop, when more fuel is left than candidates are in use: it stops
    at [new_filepath] or at the first numbered name that is free. *)
Lemma next_free_spec w book_dir filename fuel :
  forall (Y : gset string) counter new_filepath,
    size Y < fuel ->
    (path_exists w new_filepath = true -> new_filepath ∈ Y) ->
    (forall j, counter <= j ->
       path_exists w (numbered book_dir filename j) = true ->
       numbered book_dir filename j ∈ Y) ->
    (forall j, counter <= j -> numbered book_dir filename j <> new_filepath) ->
    exists found,
      next_free fuel w book_dir filename counter new_filepath = Some found
      /\ path_exists w found = false
      /\ (found = new_filepath
          \/ exists j, counter <= j /\ found = numbered book_dir filename j
                       /\ path_exists w new_filepath = true
                       /\ forall i, counter <= i < j ->
                            path_exists w (numbered book_dir filename i) = true).
Proof.
  induction fuel as [|fuel IH]; intros Y counter new_filepath Hsize Hp Hnum Hne; [lia|].
  cbn [next_free]. destruct (path_exists w new_filepath) eqn:Ep.
  2:{ exists new_filepath. split_and!; [done | done | by left]. }
  specialize (Hp eq_refl).
  destruct (IH (Y ∖ {[new_filepath]}) (S counter) (numbered book_dir filename counter))
    as (found & Hrun & Hfree & Hwhich).
  - assert (size Y = size (Y ∖ {[new_filepath]}) + 1) as Hs; [|lia].
    rewrite (union_difference_L {[new_filepath]} Y) at 1 by set_solver.
    rewrite size_union by set_solver. rewrite size_singleton. lia.
  - intros He. apply elem_of_difference. split; [apply Hnum; [lia | done]|].
    apply not_elem_of_singleton. apply Hne. lia.
  - intros j Hj He. apply elem_of_difference. split; [apply Hnum; [lia | done]|].
    apply not_elem_of_singleton. apply Hne. lia.
  - intros j Hj Heq. apply numbered_inj in Heq. lia.
  - exists found. split_and!; [done | done |]. right.
    destruct Hwhich as [-> | (j & Hj & -> & He & Hbelow)].
    + exists counter. split_and!; [lia | done | done |]. intros i Hi. lia.
    + exists j. split_and!; [lia | done | done |]. intros i Hi.
      destruct (decide (i = counter)) as [-> | Hic]; [done|]. apply Hbelow. lia.
Qed.

(** The names the planner tries, in order: the original name, then the
    name with [_1], [_2], ... before the extension. *)
Definition candidate (book_dir filename : string) (k : nat) : string :=
  match k with
  | 0 => path_join book_dir filename
  | S _ => numbered book_dir filename k
  end.

(** The planner stops, at the first candidate that is not in use. *)
Lemma plan_first_free w book_dir filename :
  exists k,
    plan w book_dir filename = Some (candidate book_dir filename k)
    /\ path_exists w (candidate book_dir filename k) = false
    /\ forall i, i < k -> path_exists w (candidate book_dir filename i) = true.
Proof.
  unfold plan. cbn [next_free].
  destruct (path_exists w (path_join book_dir filename)) eqn:E0.
  2:{ exists 0. split_and!; [done | done | intros i Hi; lia]. }
  destruct (next_free_spec w book_dir filename (S (size (nodes w))) (dom (nodes w)) 2
              (numbered book_dir filename 1))
    as (found & Hrun & Hfree & Hwhich).
  - rewrite size_dom. lia.
  - apply path_exists_dom.
  - intros j _. apply path_exists_dom.
  - intros j Hj Heq. apply numbered_inj in Heq. lia.
  - destruct Hwhich as [-> | (j & Hj & -> & He & Hbelow)].
    + exists 1. split_and!; [done | done |]. intros [|i] Hi; [done | lia].
    + exists j. destruct j as [|j]; [lia|]. split_and!; [done | done |].
      intros [|[|i]] Hi; [done | done |]. apply Hbelow. lia.
Qed.

End Planner.

Section CopyTrace.
Import Py PyStr FS.

Definition copy_dst (c : string * string * bool) : string := c.1.2.
Definition copy_overwrote (c : string * string * bool) : bool := c.2.

(** No copy wrote over a path in use, and no two copies wrote the same
    path. *)
Definition collision_free (cs : list (string * string * bool)) : Prop :=
  NoDup (map copy_dst cs) /\ Forall (fun c => copy_overwrote c = false) cs.

(** The invariant of the walk: besides, what was copied is still there. *)
Definition tidy (w : world) : Prop :=
  collision_free (copies w)
  /\ Forall (fun c => is_Some (nodes w !! copy_dst c)) (copies w).

(** A step that copies nothing and removes nothing. *)
Definition grows (w w' : world) : Prop :=
  copies w' = copies w
  /\ forall p, is_Some (nodes w !! p) -> is_Some (nodes w' !! p).

Lemma tidy_grows w w' : tidy w -> grows w w' -> tidy w'.
Proof.
  intros [Hfree Hthere] [Hc Hn]. unfold tidy. rewrite Hc. split; [done|].
  eapply Forall_impl; [exact Hthere|]. intros c. apply Hn.
Qed.

Lemma grows_bump w : grows w (bump w).
Proof. by split. Qed.

Lemma grows_insert w p n :
  grows w (set_nodes (insert p n) (bump w)).
Proof.
  split; [done|]. intros q Hq. cbn.
  destruct (decide (p = q)) as [-> | Hne].
  - rewrite lookup_insert_eq. by eexists.
  - by rewrite lookup_insert_ne.
Qed.

Lemma makedirs_tidy p : triple tidy (makedirs p) (fun _ => tidy) tidy.
Proof.
  intros w Hw. unfold makedirs, bind, tick, get, raise, modify.
  destruct (fails w (clock w)); [by eapply tidy_grows, grows_bump|].
  cbn [bump nodes].
  destruct (nodes w !! p) as [[|t]|];
    eapply tidy_grows; eauto using grows_bump, grows_insert.
Qed.

Lemma id3_load_tidy p : triple tidy (id3_load p) (fun _ => tidy) tidy.
Proof.
  intros w Hw. unfold id3_load, bind, tick, get, raise, ret.
  destruct (fails w (clock w)); [by eapply tidy_grows, grows_bump|].
  cbn [bump nodes].
  destruct (nodes w !! p) as [[|[t|]]|]; by eapply tidy_grows, grows_bump.
Qed.

Lemma id3_save_tidy p tags : triple tidy (id3_save p tags) (fun _ => tidy) tidy.
Proof.
  intros w Hw. unfold id3_save, bind, tick, get, raise, modify.
  destruct (fails w (clock w)); [by eapply tidy_grows, grows_bump|].
  cbn [bump nodes].
  destruct (nodes w !! p) as [[|t]|];
    eapply tidy_grows; eauto using grows_bump, grows_insert.
Qed.

(** A copy to a path that is not in use keeps the trace free of
    collisions. *)
Lemma copy2_tidy src dst :
  triple (fun w => tidy w /\ nodes w !! dst = None) (copy2 src dst) (fun _ => tidy) tidy.
Proof.
  intros w [Hw Hdst]. unfold copy2, bind, tick, get, raise, modify, log_copy.
  destruct (fails w (clock w)); [by eapply tidy_grows, grows_bump|].
  cbn [bump nodes].
  destruct (nodes w !! src) as [[|t]|]; try by eapply tidy_grows, grows_bump.
  rewrite Hdst.
  destruct (bool_decide (dst = src)); [by eapply tidy_grows, grows_bump|].
  cbn [nodes]. rewrite Hdst.
  destruct Hw as [[Hnodup Hfresh] Hthere].
  assert (path_exists (bump w) dst = false) as -> by by apply path_exists_false.
  split; [split|]; cbn.
  - rewrite map_app. apply NoDup_app. split_and!; [done | | apply NoDup_singleton].
    intros p Hp ->%list_elem_of_singleton.
    apply list_elem_of_fmap in Hp as (c & Heq & Hc). cbn in Heq.
    rewrite Forall_forall in Hthere.
    specialize (Hthere c Hc). rewrite <- Heq, Hdst in Hthere. by destruct Hthere.
  - apply Forall_app. split; [done|]. by repeat constructor.
  - apply Forall_app. split.
    + eapply Forall_impl; [exact Hthere|]. intros c [n Hn]. cbn.
      destruct (decide (dst = copy_dst c)) as [-> | Hne].
      * rewrite lookup_insert_eq. by eexists.
      * rewrite lookup_insert_ne by done. by eexists.
    + repeat constructor. cbn. rewrite lookup_insert_eq. by eexists.
Qed.

End CopyTrace.

Section OrganizerCopies.
Import Py PyStr FS Organizer.

Definition tidy_state (s : state) : Prop := tidy (world s).

Lemma fs_tidy {A} (m : M FS.world A) (P : FS.world -> Prop) :
  triple P m (fun _ => tidy) tidy ->
  triple (fun s => P (world s)) (fs m) (fun _ => tidy_state) tidy_state.
Proof.
  intros Hm. unfold fs.
  apply (triple_zoom world (fun w s => State w (self s)) m P (fun _ => tidy) tidy);
    [done | intros s Hs; exact (Hm (world s) Hs)].
Qed.

Lemma skipped_append_tidy path E :
  triple tidy_state (skipped_append path) (fun _ => tidy_state) E.
Proof. by apply triple_modify. Qed.

Lemma processed_append_tidy path artist E :
  triple tidy_state (processed_append path artist) (fun _ => tidy_state) E.
Proof. by apply triple_modify. Qed.

Lemma first_text_tidy tags key default :
  triple tidy_state (Organizer.first_text tags key default)
    (fun _ => tidy_state) tidy_state.
Proof.
  unfold Organizer.first_text.
  destruct (Mutagen.first_text tags key default); [by apply triple_ret | by apply triple_raise].
Qed.

Lemma get_metadata_tidy filepath :
  triple tidy_state (get_metadata filepath) (fun _ => tidy_state) tidy_state.
Proof.
  unfold get_metadata. eapply triple_try.
  - eapply triple_bind; [apply (fs_tidy _ tidy), id3_load_tidy|].
    intros tags. by apply triple_ret.
  - intros e. eapply triple_try.
    + eapply triple_bind; [apply (fs_tidy _ tidy), id3_save_tidy|].
      intros u. by apply triple_ret.
    + intros e'. by apply triple_ret.
Qed.

Lemma get_book_info_tidy metadata :
  triple tidy_state (get_book_info metadata) (fun _ => tidy_state) tidy_state.
Proof.
  unfold get_book_info.
  destruct (Mutagen.opt_truthy metadata); [|by apply triple_ret].
  destruct metadata as [metadata|]; [|by apply triple_ret].
  eapply triple_bind; [apply first_text_tidy|]. intros title.
  eapply triple_bind; [apply first_text_tidy|]. intros artist.
  eapply triple_bind; [apply first_text_tidy|]. intros album.
  by apply triple_ret.
Qed.

Lemma update_audiobook_metadata_tidy filepath existing_metadata :
  triple tidy_state (update_audiobook_metadata filepath existing_metadata)
    (fun _ => tidy_state) tidy_state.
Proof.
  unfold update_audiobook_metadata. eapply (triple_try _ _ _ _ tidy_state).
  2:{ intros e. by apply triple_ret. }
  eapply (triple_bind _ _ _ (fun _ => tidy_state)).
  { destruct (Mutagen.opt_truthy existing_metadata);
      [by apply triple_ret | apply get_metadata_tidy]. }
  intros [audio|]; [|by apply triple_ret].
  destruct (Mutagen.truthy audio); [|by apply triple_ret].
  eapply triple_bind; [apply first_text_tidy|]. intros title.
  eapply triple_bind; [apply first_text_tidy|]. intros artist.
  eapply triple_bind; [apply first_text_tidy|]. intros album.
  eapply triple_bind; [apply (fs_tidy _ tidy), id3_save_tidy|].
  intros u. by apply triple_ret.
Qed.

(** [organize_file] never raises and keeps the trace free of collisions. *)
Lemma organize_file_tidy source_path :
  triple tidy_state (organize_file source_path) (fun _ => tidy_state) (fun _ => False).
Proof.
  unfold organize_file. eapply (triple_try _ _ _ _ tidy_state).
  2:{ intros e. eapply triple_bind; [apply skipped_append_tidy|].
      intros u. by apply triple_ret. }
  eapply triple_bind; [apply get_metadata_tidy|]. intros metadata.
  destruct (negb (Mutagen.opt_truthy metadata)).
  { eapply triple_bind; [apply skipped_append_tidy|]. intros u. by apply triple_ret. }
  eapply triple_bind; [apply get_book_info_tidy|]. intros [book_info|].
  2:{ eapply triple_bind; [apply skipped_append_tidy|]. intros u. by apply triple_ret. }
  eapply triple_bind; [apply triple_get|]. intros s0.
  eapply triple_bind.
  { eapply triple_conseq; [apply (fs_tidy _ tidy), makedirs_tidy | | done | done].
    by intros s [_ Hs]. }
  intros u1. eapply triple_bind; [apply (fs_tidy _ tidy), makedirs_tidy|].
  intros u2. eapply triple_bind; [apply triple_get|]. intros s1.
  destruct (plan_first_free (world s1)
              (path_join (path_join (audiobooks_dir (self s0)) (artist book_info))
                 (album book_info))
              (basename source_path)) as (k & -> & Hfree & _).
  apply path_exists_false in Hfree.
  set (dst := candidate _ _ k) in *.
  eapply triple_bind.
  { eapply triple_conseq;
      [apply (fs_tidy _ (fun w => tidy w /\ nodes w !! dst = None)), copy2_tidy
      | | done | done].
    intros s [-> Hs]. split; [exact Hs | exact Hfree]. }
  intros u3. eapply triple_bind; [apply update_audiobook_metadata_tidy|].
  intros [|]; (eapply triple_bind;
    [first [apply processed_append_tidy | apply skipped_append_tidy]|]);
    intros u4; by apply triple_ret.
Qed.

Lemma process_libation_folder_tidy mp3_files :
  triple tidy_state (process_libation_folder mp3_files) (fun _ => tidy_state)
    (fun _ => False).
Proof.
  unfold process_libation_folder. apply triple_for_each. intros filepath.
  eapply triple_bind; [apply organize_file_tidy|]. intros b. by apply triple_ret.
Qed.

End OrganizerCopies.

Section PlannerClaims.
Import Py PyStr FS.

Definition hobbit_tags : Mutagen.ID3 :=
  {[ "TIT2" := Mutagen.TIT2 "Chapter 1";
     "TPE1" := Mutagen.TPE1 "J.R.R. Tolkien";
     "TALB" := Mutagen.TALB "The Hobbit" ]}.

Definition two_copies_world : world :=
  World {[ "/M/Music/a/The Hobbit.mp3" := File (Some hobbit_tags);
           "/M/Music/b/The Hobbit.mp3" := File (Some hobbit_tags) ]}
    0 (fun _ => false) (fun _ => true) [].

(** C3, as the specification states it, fails for [process_audiobooks]:
    two files of the same name that match the same record are copied to the
    same path, the second over the first. *)
Lemma liberate_copies_collide :
  ~ (forall rows apple_music_path walk w r s',
        copies w = [] ->
        Liberate.process_audiobooks rows apple_music_path walk w = (r, s') ->
        collision_free (copies (Liberate.world s'))).
Proof.
  intros H.
  pose (run := Liberate.process_audiobooks
                 [Catalog.Row "The Hobbit" "J.R.R. Tolkien" "Rob Inglis" "" ""] "/M"
                 [("/M/Music/a", ["The Hobbit.mp3"]); ("/M/Music/b", ["The Hobbit.mp3"])]
                 two_copies_world).
  specialize (H _ _ _ two_copies_world run.1 run.2 eq_refl (surjective_pairing run)).
  destruct H as [_ H]. vm_compute in H.
  apply Forall_cons in H as [_ H]. apply Forall_cons in H as [H _]. discriminate H.
Qed.

(** C3 (amended): in [organize_file] the planner stops at the first of the
    names "original name, then the name with _1, _2, ... before the
    extension" that is not in use, so that however many files are
    organized, with the same name or not, their copies go to pairwise
    distinct paths and none overwrites a path in use. *)
Theorem organizer_copies_never_collide :
  (forall w book_dir filename,
      exists k,
        Organizer.plan w book_dir filename = Some (candidate book_dir filename k)
        /\ path_exists w (candidate book_dir filename k) = false
        /\ forall i, i < k -> path_exists w (candidate book_dir filename i) = true)
  /\ (forall mp3_files s,
         copies (Organizer.world s) = [] ->
         exists s',
           Organizer.process_libation_folder mp3_files s = (Ret tt, s')
           /\ collision_free (copies (Organizer.world s'))).
Proof.
  split; [apply plan_first_free|].
  intros mp3_files s Hs.
  assert (tidy_state s) as Htidy.
  { unfold tidy_state, tidy, collision_free. rewrite Hs. cbn.
    split_and!; constructor. }
  pose proof (process_libation_folder_tidy mp3_files s Htidy) as H.
  destruct (Organizer.process_libation_folder mp3_files s) as [[[]|e] s']; [|done].
  exists s'. split; [done|]. apply H.
Qed.

Definition three_files_state : Organizer.state :=
  Organizer.State
    (World {[ "/L/a/01 - The Hobbit.mp3" := File (Some hobbit_tags);
              "/L/b/01 - The Hobbit.mp3" := File (Some hobbit_tags);
              "/L/c/01 - The Hobbit.mp3" := File (Some hobbit_tags) ]}
       0 (fun _ => false) (fun _ => true) [])
    (Organizer.Processor "/A" [] [] ∅).

Definition three_files : list string :=
  ["/L/a/01 - The Hobbit.mp3"; "/L/b/01 - The Hobbit.mp3"; "/L/c/01 - The Hobbit.mp3"].

Lemma organizer_copies_never_collide_witness :
  exists s',
    Organizer.process_libation_folder three_files three_files_state = (Ret tt, s')
    /\ collision_free (copies (Organizer.world s')).
Proof.
  apply (proj2 organizer_copies_never_collide three_files three_files_state).
  reflexivity.
Defined.

(** Three files of one name: the copies are the name, the name with [_1]
    and the name with [_2]. *)
Example three_files_destinations :
  map copy_dst
    (copies (Organizer.world
               (snd (Organizer.process_libation_folder three_files three_files_state))))
  = [ "/A/J.R.R. Tolkien/The Hobbit/01 - The Hobbit.mp3";
      "/A/J.R.R. Tolkien/The Hobbit/01 - The Hobbit_1.mp3";
      "/A/J.R.R. Tolkien/The Hobbit/01 - The Hobbit_2.mp3" ].
Proof. vm_compute. reflexivity. Qed.

End PlannerClaims.

(* ===================================================================== *)
(** * More about the normalizer and the catalog index *)
(* ===================================================================== *)

Section NormalizerShape.
Import PyStr Liberate.

Lemma isword_not_isspace c : isword c = true -> isspace c = false.
Proof.
  destruct c as [[] [] [] [] [] [] [] []]; vm_compute; try reflexivity; discriminate.
Qed.

(** A word of a cleaned string: not empty, made of word characters that
    [lower] leaves alone, none of them whitespace. *)
Definition is_key_word (w : string) : Prop :=
  truthy w = true
  /\ all_chars (fun c => isword c && negb (isspace c) && is_lowered c) w = true.

(** X1: a cleaned string is a list of words of lowercase word characters
    joined by single spaces: no leading, trailing or repeated whitespace
    and no other character is left. *)
Theorem clean_string_words x :
  exists words,
    clean_string x = join " " words
    /\ Forall is_key_word words
    /\ split_ws (clean_string x) = words.
Proof.
  destruct x as [s|]; [|exists []; by repeat split].
  rewrite clean_string_Some.
  pose proof (split_ws_tokens is_clean_char _ (cleaned_chars s)) as Htok.
  exists (split_ws (re_sub_nonword_nonspace (lower s))). split_and!; [done | |].
  - eapply Forall_impl; [exact Htok|]. intros w [Hw Hc]. split; [done|].
    eapply all_chars_impl; [|exact Hc]. intros c. unfold is_clean_char.
    intros [Hsp [Hws Hlow]%andb_prop]%andb_prop.
    rewrite Hsp, Hlow. apply negb_true_iff in Hsp. rewrite Hsp, orb_false_r in Hws.
    by rewrite Hws.
  - by apply (split_ws_join is_clean_char).
Qed.

Lemma split_ws_from_nil cur s :
  split_ws_from cur s = [] <-> cur = EmptyString /\ all_chars isspace s = true.
Proof.
  revert cur. induction s as [|c s IH]; intros cur; cbn [split_ws_from all_chars].
  - unfold flush. destruct cur; cbn; split; try done. by intros [? _].
  - destruct (isspace c) eqn:E; cbn [andb].
    + rewrite app_nil, IH. unfold flush. destruct cur; cbn; split; try tauto.
      * by intros [? _].
      * by intros [? _].
    + rewrite IH. split; [|by intros [_ ?]]. intros [H _]. by destruct cur.
Qed.

Lemma join_empty_tokens p ts :
  Forall (is_token p) ts -> join " " ts = EmptyString -> ts = [].
Proof.
  intros Hts. destruct Hts as [|t ts [Ht _] Hts]; [done|].
  destruct t as [|c t]; [done|]. destruct ts; [done|].
  rewrite join_cons, app_cons. done.
Qed.

Lemma cleaned_all_space s :
  all_chars isspace (re_sub_nonword_nonspace (lower s))
  = all_chars (fun c => negb (isword c)) s.
Proof.
  unfold re_sub_nonword_nonspace. induction s as [|c s IH]; [done|].
  cbn [lower filter_chars all_chars].
  rewrite isword_lower_char, isspace_lower_char.
  destruct (isword c) eqn:Ew; cbn.
  - rewrite isspace_lower_char, (isword_not_isspace c Ew). done.
  - destruct (isspace c) eqn:Es; cbn; [|exact IH].
    by rewrite isspace_lower_char, Es, IH.
Qed.

(** X2: a string is cleaned to the empty string exactly when it has no
    word character. *)
Theorem clean_string_empty_iff s :
  clean_string (Some s) = EmptyString
  <-> all_chars (fun c => negb (isword c)) s = true.
Proof.
  rewrite clean_string_Some, <- cleaned_all_space. split.
  - intros H.
    apply (join_empty_tokens is_clean_char) in H;
      [|apply split_ws_tokens, cleaned_chars].
    by apply split_ws_from_nil in H as [_ H].
  - intros H. unfold split_ws.
    by rewrite (proj2 (split_ws_from_nil EmptyString _) (conj eq_refl H)).
Qed.

End NormalizerShape.

Section IndexShape.
Import PyStr Liberate Catalog.

Lemma index_rows_snoc rows r d :
  index_rows (rows ++ [r]) d = PyDict.set (key_of r) (book_of_row r) (index_rows rows d).
Proof. by rewrite index_rows_app. Qed.

(** X3: looking a key up in the index gives the record of the last row
    whose title cleans to that key, and nothing when no row does. *)
Theorem load_audiobooks_lookup rows key :
  PyDict.get key (load_audiobooks rows)
  = book_of_row <$> List.find (fun r => String.eqb (key_of r) key) (rev rows).
Proof.
  change (load_audiobooks rows) with (index_rows rows []).
  induction rows as [|r rows IH] using rev_ind; [done|].
  rewrite index_rows_snoc, rev_unit. cbn [List.find].
  destruct (String.eqb (key_of r) key) eqn:E.
  - apply String.eqb_eq in E as <-. apply dict_get_set_eq.
  - apply String.eqb_neq in E. rewrite dict_get_set_ne by done. exact IH.
Qed.

(** The distinct elements of a list, each at its first occurrence. *)
Fixpoint first_occurrences (ks : list string) : list string :=
  match ks with
  | [] => []
  | k :: ks' => k :: filter (fun k' => k' <> k) (first_occurrences ks')
  end.

Lemma index_rows_keys rows d :
  PyDict.keys (index_rows rows d)
  = PyDict.keys d
    ++ filter (fun k => k ∉ PyDict.keys d) (first_occurrences (map key_of rows)).
Proof.
  revert d. induction rows as [|r rows IH]; intros d.
  - cbn. by rewrite app_nil_r.
  - cbn [index_rows fold_left map first_occurrences].
    fold (index_rows rows (PyDict.set (key_of r) (book_of_row r) d)).
    rewrite IH, dict_keys_set. case_bool_decide as Hk.
    + f_equal. rewrite filter_cons_False by (intros H; by apply H).
      rewrite list_filter_filter. apply list_filter_iff.
      intros k. split; [|tauto]. intros Hn. split; [done|]. by intros ->.
    + rewrite <- List.app_assoc. f_equal. rewrite filter_cons_True by done.
      cbn. f_equal. rewrite list_filter_filter. apply list_filter_iff.
      intros k. rewrite not_elem_of_app, not_elem_of_cons. set_solver.
Qed.

Lemma index_rows_key_of_value rows d :
  Forall (fun item => item.1 = clean_string (Some (title item.2))) d ->
  Forall (fun item => item.1 = clean_string (Some (title item.2))) (index_rows rows d).
Proof.
  revert d. induction rows as [|r rows IH]; intros d Hd; [done|].
  apply IH. clear IH. induction d as [|[k b] d IHd]; cbn [PyDict.set].
  - by repeat constructor.
  - apply Forall_cons in Hd as [Hk Hd]. destruct (String.eqb k (key_of r)) eqn:E.
    + apply String.eqb_eq in E. constructor; [|done]. cbn [fst snd] in *. by rewrite E.
    + constructor; [done | by apply IHd].
Qed.

Lemma load_audiobooks_keys rows :
  PyDict.keys (load_audiobooks rows) = first_occurrences (map key_of rows).
Proof.
  change (load_audiobooks rows) with (index_rows rows []).
  rewrite index_rows_keys. cbn [PyDict.keys map app].
  induction (first_occurrences (map key_of rows)) as [|k ks IHks]; [done|].
  rewrite filter_cons_True by apply not_elem_of_nil. by rewrite IHks.
Qed.

Lemma load_audiobooks_key_of_value rows :
  Forall (fun item => item.1 = clean_string (Some (title item.2))) (load_audiobooks rows).
Proof. apply (index_rows_key_of_value rows []). constructor. Qed.

(** X4: the index iterates over the distinct cleaned titles in the order
    of their first rows, each key once, and every key is the cleaned title
    of the record stored under it. *)
Theorem load_audiobooks_order rows :
  PyDict.keys (load_audiobooks rows) = first_occurrences (map key_of rows)
  /\ NoDup (PyDict.keys (load_audiobooks rows))
  /\ Forall (fun item => item.1 = clean_string (Some (title item.2)))
       (load_audiobooks rows).
Proof.
  split_and!.
  - apply load_audiobooks_keys.
  - apply (index_rows_wf rows []). apply NoDup_nil_2.
  - apply load_audiobooks_key_of_value.
Qed.

Lemma contains_empty hay : contains EmptyString hay = true.
Proof. by destruct hay. Qed.

(** X5: a first row whose title has no word character takes every file:
    each audio file of the walk is matched to the empty key, which counts
    as no match, so the file is listed as skipped and nothing is copied. *)
Theorem blank_title_row_blocks_the_catalog r rows audiobooks_dir root file s :
  clean_string (Some (Title r)) = EmptyString ->
  process_file (load_audiobooks (r :: rows)) audiobooks_dir root file s
  = if endswith (lower file) ".mp3" then skipped_append file s else (Py.Ret tt, s).
Proof.
  intros Hr.
  pose proof (load_audiobooks_keys (r :: rows)) as Hkeys.
  pose proof (load_audiobooks_key_of_value (r :: rows)) as Hval.
  unfold process_file. destruct (endswith (lower file) ".mp3"); [|done].
  destruct (load_audiobooks (r :: rows)) as [|[k b] d] eqn:Ed; [done|].
  cbn [PyDict.keys map first_occurrences fst] in Hkeys. injection Hkeys as Hk _.
  apply Forall_cons in Hval as [Hb _]. cbn [fst snd] in Hb.
  unfold key_of in Hk. rewrite Hr in Hk. subst k.
  unfold Py.try_except, process_body, find_matching_audiobook.
  cbn [find_in_items]. rewrite <- Hb, contains_empty. cbn [andb].
  by destruct (contains _ _).
Qed.

Lemma blank_title_row_blocks_the_catalog_witness :
  process_file
    (load_audiobooks [Row "..." "Nobody" "" "" ""; Row "The Hobbit" "J.R.R. Tolkien" "" "" ""])
    "/M/Audiobooks" "/M/Music/Tolkien" "The Hobbit.mp3" one_file_state
  = skipped_append "The Hobbit.mp3" one_file_state.
Proof.
  apply (blank_title_row_blocks_the_catalog (Row "..." "Nobody" "" "" "")
           [Row "The Hobbit" "J.R.R. Tolkien" "" "" ""]).
  vm_compute. reflexivity.
Defined.

(** X6: the directories of a path have no part in the match: two paths
    with the same file name resolve to the same record. *)
Theorem find_matching_ignores_directories filepath1 filepath2 audiobooks :
  basename filepath1 = basename filepath2 ->
  find_matching_audiobook filepath1 audiobooks
  = find_matching_audiobook filepath2 audiobooks.
Proof.
  intros Hb. unfold find_matching_audiobook. rewrite !find_in_items_title.
  unfold first_title_match, title_in_filename. by rewrite Hb.
Qed.

Lemma find_matching_ignores_directories_witness :
  find_matching_audiobook "/Music/J.R.R. Tolkien/01 - The Hobbit.mp3" hobbit_catalog
  = find_matching_audiobook "/Downloads/01 - The Hobbit.mp3" hobbit_catalog.
Proof.
  apply find_matching_ignores_directories. vm_compute. reflexivity.
Defined.

End IndexShape.

Section ResolverCompleteness.
Import PyStr Liberate.

Lemma filter_chars_app keep s t :
  filter_chars keep (s +:+ t) = filter_chars keep s +:+ filter_chars keep t.
Proof.
  induction s as [|c s IH]; [done|]. rewrite app_cons. cbn.
  destruct (keep c); by rewrite IH.
Qed.

Lemma prefix_app n t : String.prefix n (n +:+ t) = true.
Proof.
  induction n as [|c n IH]; [by destruct t|].
  rewrite app_cons. cbn [String.prefix]. by destruct (ascii_dec c c).
Qed.

Lemma contains_cons needle c hay :
  contains needle hay = true -> contains needle (String c hay) = true.
Proof. intros H. cbn [contains]. rewrite H. apply orb_true_r. Qed.

Lemma contains_middle needle u v : contains needle (u +:+ needle +:+ v) = true.
Proof.
  induction u as [|c u IH].
  - rewrite app_empty_l. destruct (needle +:+ v) eqn:E; cbn [contains];
      rewrite <- E, prefix_app; done.
  - rewrite app_cons. by apply contains_cons.
Qed.

(** The text of a list of words with its separator in front. *)
Definition spaced (ts : list string) : string :=
  match ts with [] => EmptyString | _ => " " +:+ join " " ts end.

Lemma join_cons' t ts : join " " (t :: ts) = t +:+ spaced ts.
Proof. destruct ts; [by rewrite app_empty_r | done]. Qed.

Lemma join_flush cur ts :
  exists u, join " " (flush cur ++ ts) = u +:+ join " " ts.
Proof.
  unfold flush. destruct (truthy cur); [|by exists EmptyString].
  cbn [app]. rewrite join_cons'. destruct ts as [|t ts].
  - exists cur. cbn. by rewrite !app_empty_r.
  - exists (cur +:+ " "). by rewrite app_assoc.
Qed.

(** A word in front of the current word is in front of the text. *)
Lemma split_ws_from_glue s c1 c2 :
  truthy c2 = true ->
  join " " (split_ws_from (c1 +:+ c2) s) = c1 +:+ join " " (split_ws_from c2 s).
Proof.
  revert c2. induction s as [|c s IH]; intros c2 Hc2; cbn [split_ws_from].
  - unfold flush. rewrite Hc2. destruct c2 as [|a c2]; [done|].
    destruct c1; cbn; done.
  - destruct (isspace c).
    + unfold flush. rewrite Hc2.
      assert (truthy (c1 +:+ c2) = true) as -> by (destruct c2; [done | by destruct c1]).
      cbn [app]. by rewrite !join_cons', app_assoc.
    + rewrite app_assoc. apply IH. by destruct c2.
Qed.

Lemma split_ws_from_left s cur :
  exists u, join " " (split_ws_from cur s) = u +:+ join " " (split_ws_from EmptyString s).
Proof.
  destruct s as [|c s]; cbn [split_ws_from].
  - exists (join " " (flush cur)). by rewrite app_empty_r.
  - destruct (isspace c).
    + cbn [flush truthy app]. apply join_flush.
    + exists cur. rewrite app_empty_l. by apply split_ws_from_glue.
Qed.

Lemma split_ws_from_prefix a cur s :
  exists pre cur', split_ws_from cur (a +:+ s) = pre ++ split_ws_from cur' s.
Proof.
  revert cur. induction a as [|c a IH]; intros cur.
  - by exists [], cur.
  - rewrite app_cons. cbn [split_ws_from]. destruct (isspace c).
    + destruct (IH EmptyString) as (pre & cur' & ->).
      exists (flush cur ++ pre), cur'. by rewrite List.app_assoc.
    + apply IH.
Qed.

Lemma join_app_right (pre ts : list string) :
  exists u, join " " (pre ++ ts) = u +:+ join " " ts.
Proof.
  induction pre as [|t pre [u IH]]; [by exists EmptyString|].
  cbn [app]. rewrite join_cons'. destruct (pre ++ ts) as [|t' l] eqn:E.
  - apply app_eq_nil in E as [-> ->]. exists t. cbn. by rewrite !app_empty_r.
  - cbn [spaced]. rewrite IH. exists (t +:+ " " +:+ u). by rewrite !app_assoc.
Qed.

(** Text in front of a string stays in front of its words. *)
Lemma words_left a s :
  exists u, join " " (split_ws (a +:+ s)) = u +:+ join " " (split_ws s).
Proof.
  unfold split_ws. destruct (split_ws_from_prefix a EmptyString s) as (pre & cur' & ->).
  destruct (join_app_right pre (split_ws_from cur' s)) as [u1 ->].
  destruct (split_ws_from_left s cur') as [u2 ->].
  exists (u1 +:+ u2). by rewrite app_assoc.
Qed.

Lemma split_ws_from_start cur s :
  truthy cur = true -> exists v, join " " (split_ws_from cur s) = cur +:+ v.
Proof.
  intros Hcur. destruct s as [|c s]; cbn [split_ws_from].
  - unfold flush. rewrite Hcur. exists EmptyString. cbn. by rewrite app_empty_r.
  - destruct (isspace c).
    + unfold flush. rewrite Hcur. cbn [app]. rewrite join_cons'. by eexists.
    + rewrite split_ws_from_glue by done. by eexists.
Qed.

(** Text behind a string stays behind its words. *)
Lemma split_ws_from_right s b cur :
  exists v,
    join " " (split_ws_from cur (s +:+ b)) = join " " (split_ws_from cur s) +:+ v.
Proof.
  revert cur. induction s as [|c s IH]; intros cur.
  - rewrite app_empty_l. cbn [split_ws_from]. unfold flush.
    destruct (truthy cur) eqn:Hcur; [|by eexists].
    destruct (split_ws_from_start cur b Hcur) as [v ->]. by exists v.
  - rewrite app_cons. cbn [split_ws_from]. destruct (isspace c); [|apply IH].
    destruct (IH EmptyString) as [v Hv]. unfold flush.
    destruct (truthy cur); [|by exists v]. cbn [app]. rewrite !join_cons'.
    destruct (split_ws_from EmptyString s) as [|t ts] eqn:Es.
    + cbn [spaced]. rewrite app_empty_r. by eexists.
    + destruct (split_ws_from EmptyString (s +:+ b)) as [|t' ts'] eqn:Eb.
      * apply split_ws_from_nil in Eb as [_ Hb]. rewrite all_chars_app in Hb.
        apply andb_prop in Hb as [Hs _].
        by rewrite (proj2 (split_ws_from_nil EmptyString s) (conj eq_refl Hs)) in Es.
      * cbn [spaced]. rewrite Hv. exists v. by rewrite !app_assoc.
Qed.

Lemma words_middle a s b :
  exists u v,
    join " " (split_ws (a +:+ s +:+ b)) = u +:+ join " " (split_ws s) +:+ v.
Proof.
  destruct (words_left a (s +:+ b)) as [u ->].
  destruct (split_ws_from_right s b EmptyString) as [v Hv].
  unfold split_ws. rewrite Hv. by exists u, v.
Qed.

(** The cleaned form of a string occurs in the cleaned form of every
    string whose lowercase form contains its lowercase form. *)
Lemma clean_string_contains a s b name :
  lower name = a +:+ lower s +:+ b ->
  contains (clean_string (Some s)) (clean_string (Some name)) = true.
Proof.
  intros Hname. rewrite !clean_string_Some, Hname. unfold re_sub_nonword_nonspace.
  rewrite !filter_chars_app.
  destruct (words_middle (filter_chars (fun c => isword c || isspace c) a)
              (filter_chars (fun c => isword c || isspace c) (lower s))
              (filter_chars (fun c => isword c || isspace c) b))
    as (u & v & ->).
  apply contains_middle.
Qed.

(** X7: a file whose name contains, letter case apart, the title of a
    catalog record always gets a match: when the lowercased title occurs in
    the lowercased file name, the resolver returns the first record whose
    cleaned title occurs in the cleaned file name. *)
Theorem titled_file_is_matched filepath audiobooks key b before after :
  In (key, b) audiobooks ->
  lower (basename filepath) = before +:+ lower (title b) +:+ after ->
  exists key' b',
    find_matching_audiobook filepath audiobooks = Some key'
    /\ In (key', b') audiobooks
    /\ title_in_filename filepath b' = true.
Proof.
  intros Hin Hname. unfold find_matching_audiobook. rewrite find_in_items_title.
  assert (title_in_filename filepath b = true) as Hb.
  { unfold title_in_filename. by apply (clean_string_contains before _ after). }
  unfold first_title_match.
  destruct (List.find _ audiobooks) as [[key' b']|] eqn:E.
  - apply find_some in E as [Hin' Ht]. by exists key', b'.
  - pose proof (find_none _ _ E (key, b) Hin) as Hn. cbn [snd] in Hn. congruence.
Qed.

Lemma titled_file_is_matched_witness :
  exists key' b',
    find_matching_audiobook "/Downloads/01 - THE HOBBIT (Unabridged).mp3" hobbit_catalog
    = Some key'
    /\ In (key', b') hobbit_catalog
    /\ title_in_filename "/Downloads/01 - THE HOBBIT (Unabridged).mp3" b' = true.
Proof.
  apply (titled_file_is_matched "/Downloads/01 - THE HOBBIT (Unabridged).mp3" hobbit_catalog
           "the hobbit" (Book "The Hobbit" "J.R.R. Tolkien" "Rob Inglis" "" "")
           "01 - " " (unabridged).mp3").
  - by left.
  - vm_compute. reflexivity.
Defined.

End ResolverCompleteness.

(* ===================================================================== *)
(** * More about the pruning of the music folder *)
(* ===================================================================== *)

Section CleanerSafety.
Import Py PyStr Cleaner Catalog.

Lemma add_author_only S a name :
  name ∈ add_author S a ->
  name ∈ S \/ (truthy (strip a) = true /\ name ∈ author_variants (strip a)).
Proof.
  unfold add_author, author_variants. destruct (truthy (strip a)); [|by left].
  intros H. set_unfold. naive_solver.
Qed.

Lemma add_authors_only names S name :
  name ∈ fold_left add_author names S ->
  name ∈ S
  \/ exists a, In a names /\ truthy (strip a) = true /\ name ∈ author_variants (strip a).
Proof.
  revert S. induction names as [|a names IH]; intros S; [by left|].
  cbn [fold_left]. intros [H | (a' & Ha' & Ht & Hv)]%IH.
  - apply add_author_only in H as [H | [Ht Hv]]; [by left|].
    right. exists a. split_and!; [by left | done | done].
  - right. exists a'. split_and!; [by right | done | done].
Qed.

Lemma authors_of_only rows S name :
  name ∈ authors_of rows S ->
  name ∈ S
  \/ exists r a, In r rows /\ In a (split_on "," (Authors r))
                 /\ truthy (strip a) = true /\ name ∈ author_variants (strip a).
Proof.
  revert S. induction rows as [|r rows IH]; intros S; [by left|].
  cbn [authors_of fold_left]. fold (authors_of rows (add_row S r)).
  intros [H | (r' & a & Hr & Ha & Ht & Hv)]%IH.
  - apply add_authors_only in H as [H | (a & Ha & Ht & Hv)]; [by left|].
    right. exists r, a. split_and!; [by left | done | done | done].
  - right. exists r', a. split_and!; [by right | done | done | done].
Qed.

(** X8: the author set holds the four variants of the names of the
    catalog and nothing else. *)
Theorem authors_of_exactly_the_variants rows name :
  name ∈ authors_of rows ∅
  <-> exists r a, In r rows /\ In a (split_on "," (Authors r))
                  /\ truthy (strip a) = true /\ name ∈ author_variants (strip a).
Proof.
  split.
  - intros [H | H]%authors_of_only; [set_solver | done].
  - intros (r & a & Hr & Ha & Ht & Hv).
    by apply (authors_of_variants rows ∅ r a Hr Ha Ht).
Qed.

(** X9: the scan never raises and changes nothing; what it proposes are
    directories of the music folder, never plain files, whose name matches
    the author set, each with its path under the music folder; unless the
    listing fails, it proposes every such directory. *)
Theorem scan_folders_sound_and_complete s :
  exists folders s',
    scan_folders s = (Ret folders, s')
    /\ entries (fsys s') = entries (fsys s)
    /\ self s' = self s
    /\ (forall dir_name folder_path,
           In (dir_name, folder_path) folders ->
           In (dir_name, true) (entries (fsys s))
           /\ should_remove_folder (authors_to_remove (self s)) dir_name = true
           /\ folder_path = path_join (music_path (self s)) dir_name)
    /\ (fails (fsys s) (clock (fsys s)) = false ->
        forall dir_name,
          In (dir_name, true) (entries (fsys s)) ->
          should_remove_folder (authors_to_remove (self s)) dir_name = true ->
          In (dir_name, path_join (music_path (self s)) dir_name) folders).
Proof.
  destruct (scan_folders_run s) as (s' & Hrun & Hent & Hself).
  eexists _, s'. split; [exact Hrun|]. split_and!; [done | done | |].
  - intros dir_name folder_path.
    destruct (fails (fsys s) (clock (fsys s))); [done|].
    unfold matching_dirs. rewrite in_map_iff. intros (n & [= -> <-] & Hn).
    apply list_elem_of_In, list_elem_of_filter in Hn as [Hmatch Hn].
    apply list_elem_of_fmap in Hn as ([n' d] & -> & He).
    apply list_elem_of_filter in He as [Hd He]. cbn in Hd. subst d.
    split_and!; [by apply list_elem_of_In | done | done].
  - intros -> dir_name He Hmatch. unfold matching_dirs.
    apply in_map_iff. exists dir_name. split; [done|].
    apply list_elem_of_In, list_elem_of_filter. split; [done|].
    apply list_elem_of_fmap. exists (dir_name, true). split; [done|].
    apply list_elem_of_filter. split; [done | by apply list_elem_of_In].
Qed.

Lemma scan_folders_sound_and_complete_witness :
  exists folders s',
    scan_folders (State jane_world (MkCleaner "/Music" (authors_of two_authors ∅) [] []))
    = (Ret folders, s')
    /\ In ("Jane Doe", "/Music/Jane Doe") folders.
Proof.
  destruct (scan_folders_sound_and_complete
              (State jane_world (MkCleaner "/Music" (authors_of two_authors ∅) [] [])))
    as (folders & s' & Hrun & _ & _ & _ & Hall).
  exists folders, s'. split; [exact Hrun|].
  apply (Hall eq_refl "Jane Doe").
  - by left.
  - vm_compute. reflexivity.
Defined.

(** One round of [remove_folders]: it never raises, and the music folder
    is as before or has lost the directories at [folder_path]. *)
Lemma remove_folder_entries dry_run folder s :
  exists s',
    remove_folder dry_run folder s = (Ret tt, s')
    /\ music_path (self s') = music_path (self s)
    /\ (entries (fsys s') = entries (fsys s)
        \/ (dry_run = false
            /\ entries (fsys s')
               = filter (fun e => (snd e && bool_decide
                                     (path_join (music_path (self s)) (fst e) = folder.2))
                                  = false) (entries (fsys s)))).
Proof.
  destruct folder as [folder_name folder_path].
  unfold remove_folder, remove_body, try_except. destruct dry_run.
  - eexists. split; [reflexivity|]. split; [done | by left].
  - unfold rmtree, tick, bind, get, modify, raise, removed_append, skipped_append.
    cbn [snd fst].
    destruct (fails (fsys s) (clock (fsys s))); cbn [fsys self].
    + eexists. split; [reflexivity|]. split; [done | by left].
    + destruct (existsb _ _); cbn [fsys self].
      * eexists. split; [reflexivity|]. split; [done|]. right. done.
      * eexists. split; [reflexivity|]. split; [done | by left].
Qed.

(** X10: [remove_folders] never raises and never creates an entry; an
    entry of the music folder survives it when it is a plain file or when
    its path is not in the list, and in a dry run every entry does. *)
Theorem remove_folders_only_listed_directories folders dry_run s :
  exists s',
    remove_folders folders dry_run s = (Ret tt, s')
    /\ (forall e, In e (entries (fsys s')) -> In e (entries (fsys s)))
    /\ (forall e,
           In e (entries (fsys s)) ->
           snd e = false
           \/ (forall folder, In folder folders ->
                 path_join (music_path (self s)) (fst e) <> folder.2)
           \/ dry_run = true ->
           In e (entries (fsys s'))).
Proof.
  unfold remove_folders. revert s.
  induction folders as [|folder folders IH]; intros s.
  - exists s. by split_and!.
  - destruct (remove_folder_entries dry_run folder s) as (s1 & Hstep & Hmp & Hent).
    destruct (IH s1) as (s' & Hrun & Hsub & Hkeep).
    exists s'. cbn [for_each]. unfold bind. rewrite Hstep. split; [exact Hrun|].
    assert (forall e, In e (entries (fsys s1)) -> In e (entries (fsys s))) as Hsub1.
    { intros e. destruct Hent as [-> | [_ ->]]; [done|].
      intros He. apply list_elem_of_In, list_elem_of_filter in He as [_ He].
      by apply list_elem_of_In. }
    split; [by auto|].
    intros e He Hwhy. apply Hkeep.
    + destruct Hent as [-> | [Hdry ->]]; [done|].
      apply list_elem_of_In, list_elem_of_filter. split; [|by apply list_elem_of_In].
      destruct Hwhy as [Hfile | [Hother | Hd]].
      * by rewrite Hfile.
      * rewrite bool_decide_eq_false_2, andb_false_r; [done|]. apply Hother. by left.
      * congruence.
    + destruct Hwhy as [Hfile | [Hother | Hd]]; [by left | | by right; right].
      right; left. intros f Hf. rewrite Hmp. apply Hother. by right.
Qed.

Lemma remove_folders_only_listed_directories_witness :
  exists s',
    remove_folders [("Jane Doe", "/Music/Jane Doe")] false (init "/Music" jane_world)
    = (Ret tt, s')
    /\ In ("Queen", true) (entries (fsys s')).
Proof.
  destruct (remove_folders_only_listed_directories [("Jane Doe", "/Music/Jane Doe")] false
              (init "/Music" jane_world)) as (s' & Hrun & _ & Hkeep).
  exists s'. split; [exact Hrun|].
  apply Hkeep.
  - right. by left.
  - right. left. intros folder [<- | []]. vm_compute. discriminate.
Defined.

End CleanerSafety.

Section CleanerMain.
Import Py PyStr Cleaner Catalog.

Lemma lower_char_y c : lower_char c = "y"%char -> c = "y"%char \/ c = "Y"%char.
Proof.
  destruct c as [[] [] [] [] [] [] [] []]; vm_compute; intros H;
    first [discriminate H | by left | by right].
Qed.

Lemma lower_is_y response :
  String.eqb (lower response) "y" = true -> response = "y" \/ response = "Y".
Proof.
  intros H. apply String.eqb_eq in H.
  destruct response as [|c [|c' rest]]; try discriminate H.
  cbn in H. injection H as H. by destruct (lower_char_y c H) as [-> | ->]; [left | right].
Qed.

Lemma matching_dirs_cons s folder folders :
  matching_dirs s = folder :: folders ->
  exists dir_name,
    In (dir_name, true) (entries (fsys s))
    /\ should_remove_folder (authors_to_remove (self s)) dir_name = true.
Proof.
  intros H.
  assert (In folder (matching_dirs s)) as Hin by (rewrite H; by left).
  unfold matching_dirs in Hin. apply in_map_iff in Hin as (n & _ & Hn).
  apply list_elem_of_In, list_elem_of_filter in Hn as [Hmatch Hn].
  apply list_elem_of_fmap in Hn as ([n' d] & -> & He).
  apply list_elem_of_filter in He as [Hd He]. cbn in Hd. subst d.
  exists n'. split; [by apply list_elem_of_In | done].
Qed.

(** X11: [main] never raises.  It runs the removal only when the music
    folder exists, the catalog could be read, the scan found a candidate
    and the answer was "y" or "Y"; otherwise no entry of the music folder
    is deleted. *)
Theorem main_removes_only_on_yes csv response change s :
  exists ran s',
    main csv response change s = (Ret ran, s')
    /\ (ran = true ->
        music_exists (fsys s) = true
        /\ (exists rows dir_name,
              csv = Some rows
              /\ In (dir_name, true) (entries (fsys s))
              /\ should_remove_folder
                   (authors_of rows (authors_to_remove (self s))) dir_name = true)
        /\ (response = "y" \/ response = "Y"))
    /\ (ran = false ->
        entries (fsys s') = entries (fsys s)
        \/ entries (fsys s') = change (entries (fsys s))).
Proof.
  unfold main, bind at 1, get.
  destruct (music_exists (fsys s)) eqn:Hmusic; cbn [negb].
  2:{ exists false, s. split_and!; [done | done | by left]. }
  unfold bind at 1. rewrite load_authors_run. destruct csv as [rows|]; cbn [negb].
  2:{ exists false, s. split_and!; [done | done | by left]. }
  match goal with |- context [bind scan_folders _ ?s0] => set (s1 := s0) end.
  unfold bind at 1. destruct (scan_folders_run s1) as (s2 & -> & Hent2 & Hself2).
  destruct (if fails (fsys s1) (clock (fsys s1)) then [] else matching_dirs s1)
    as [|folder folders] eqn:Hscan.
  { exists false, s2. split_and!; [done | done | left; by rewrite Hent2]. }
  assert (exists dir_name,
            In (dir_name, true) (entries (fsys s))
            /\ should_remove_folder
                 (authors_of rows (authors_to_remove (self s))) dir_name = true)
    as (dir_name & Hdir & Hmatch).
  { destruct (fails (fsys s1) (clock (fsys s1))); [done|].
    by apply matching_dirs_cons in Hscan. }
  clear Hscan. generalize (folder :: folders). intros candidates.
  unfold confirm_and_remove, bind at 1.
  destruct (dry_run_lists_candidates candidates s2) as (dry & -> & Hw & _ & _).
  unfold meanwhile, bind at 1, modify at 1.
  destruct (String.eqb (lower response) "y") eqn:Hy.
  - unfold reset_lists, bind at 1, modify at 1. unfold bind.
    match goal with |- context [remove_folders candidates false ?s0] =>
      destruct (removal_contains_failures candidates false s0)
        as (s' & rs & ks & -> & _) end.
    exists true, s'. split_and!; [done | | done].
    intros _. split_and!; [done | by exists rows, dir_name | by apply lower_is_y].
  - eexists false, _. split_and!; [done | done |].
    intros _. right. cbn. by rewrite Hw, Hent2.
Qed.

Lemma main_removes_only_on_yes_witness :
  exists s',
    main (Some two_authors) "yes" (fun es => es) (init "/Music" jane_world) = (Ret false, s')
    /\ entries (fsys s') = entries jane_world.
Proof.
  destruct (main_removes_only_on_yes (Some two_authors) "yes" (fun es => es)
              (init "/Music" jane_world)) as ([|] & s' & Hrun & Hyes & Hno).
  - destruct (Hyes eq_refl) as (_ & _ & [H | H]); discriminate H.
  - exists s'. split; [exact Hrun|]. by destruct (Hno eq_refl) as [-> | ->].
Defined.

End CleanerMain.

(* ===================================================================== *)
(** * More about the organizer *)
(* ===================================================================== *)

Section OrganizerReport.
Import Py PyStr FS Organizer.

(** The attributes of the processor stay as they are. *)
Definition same_self (p : processor) (s : state) : Prop := self s = p.

Lemma fs_same_self {A} (m : M FS.world A) p :
  triple (same_self p) (fs m) (fun _ => same_self p) (same_self p).
Proof.
  intros s Hs. unfold fs, zoom. by destruct (m (world s)) as [[a|e] w'].
Qed.

Lemma first_text_same_self tags key default p :
  triple (same_self p) (Organizer.first_text tags key default)
    (fun _ => same_self p) (same_self p).
Proof.
  unfold Organizer.first_text.
  destruct (Mutagen.first_text tags key default); [by apply triple_ret | by apply triple_raise].
Qed.

Lemma get_metadata_same_self filepath p :
  triple (same_self p) (get_metadata filepath) (fun _ => same_self p) (same_self p).
Proof.
  unfold get_metadata. eapply triple_try.
  - eapply triple_bind; [apply fs_same_self|]. intros tags. by apply triple_ret.
  - intros e. eapply triple_try.
    + eapply triple_bind; [apply fs_same_self|]. intros u. by apply triple_ret.
    + intros e'. by apply triple_ret.
Qed.

Lemma get_book_info_same_self metadata p :
  triple (same_self p) (get_book_info metadata) (fun _ => same_self p) (same_self p).
Proof.
  unfold get_book_info.
  destruct (Mutagen.opt_truthy metadata); [|by apply triple_ret].
  destruct metadata as [metadata|]; [|by apply triple_ret].
  eapply triple_bind; [apply first_text_same_self|]. intros title.
  eapply triple_bind; [apply first_text_same_self|]. intros artist.
  eapply triple_bind; [apply first_text_same_self|]. intros album.
  by apply triple_ret.
Qed.

Lemma update_audiobook_metadata_same_self filepath existing_metadata p :
  triple (same_self p) (update_audiobook_metadata filepath existing_metadata)
    (fun _ => same_self p) (same_self p).
Proof.
  unfold update_audiobook_metadata. eapply (triple_try _ _ _ _ (same_self p)).
  2:{ intros e. by apply triple_ret. }
  eapply (triple_bind _ _ _ (fun _ => same_self p)).
  { destruct (Mutagen.opt_truthy existing_metadata);
      [by apply triple_ret | apply get_metadata_same_self]. }
  intros [audio|]; [|by apply triple_ret].
  destruct (Mutagen.truthy audio); [|by apply triple_ret].
  eapply triple_bind; [apply first_text_same_self|]. intros title.
  eapply triple_bind; [apply first_text_same_self|]. intros artist.
  eapply triple_bind; [apply first_text_same_self|]. intros album.
  eapply triple_bind; [apply fs_same_self|].
  intros u. by apply triple_ret.
Qed.

(** What [organize_file] leaves in the report when it returns [result]. *)
Definition recorded (p : processor) (source_path : string) (result : bool)
    (s : state) : Prop :=
  audiobooks_dir (self s) = audiobooks_dir p
  /\ if result then
       processed_files (self s) = processed_files p ++ [source_path]
       /\ skipped_files (self s) = skipped_files p
       /\ processed_artists p ⊆ processed_artists (self s)
     else
       processed_files (self s) = processed_files p
       /\ skipped_files (self s) = skipped_files p ++ [source_path]
       /\ processed_artists (self s) = processed_artists p.

Lemma skip_recorded p source_path E :
  triple (same_self p) (bind (skipped_append source_path) (fun _ => ret false))
    (recorded p source_path) E.
Proof. intros s <-. by repeat split. Qed.

(** [organize_file] never raises, and its result tells where the file was
    recorded. *)
Lemma organize_file_recorded source_path p :
  triple (same_self p) (organize_file source_path) (recorded p source_path)
    (fun _ => False).
Proof.
  unfold organize_file. eapply (triple_try _ _ _ _ (same_self p)).
  2:{ intros e. apply skip_recorded. }
  eapply triple_bind; [apply get_metadata_same_self|]. intros metadata.
  destruct (negb (Mutagen.opt_truthy metadata)); [apply skip_recorded|].
  eapply triple_bind; [apply get_book_info_same_self|]. intros [book_info|].
  2:{ apply skip_recorded. }
  eapply triple_bind; [apply triple_get|]. intros s0.
  eapply triple_bind.
  { eapply triple_conseq; [apply (fs_same_self _ p) | | done | done]. by intros s [_ Hs]. }
  intros u1. eapply triple_bind; [apply fs_same_self|].
  intros u2. eapply triple_bind; [apply triple_get|]. intros s1.
  destruct (plan (world s1) _ _) as [new_filepath|]; [|apply triple_raise; by intros s [_ Hs]].
  eapply triple_bind.
  { eapply triple_conseq; [apply (fs_same_self _ p) | | done | done]. by intros s [_ Hs]. }
  intros u3. eapply triple_bind; [apply update_audiobook_metadata_same_self|].
  intros [|]; [|apply skip_recorded].
  intros s <-. cbn. split_and!; try done. set_solver.
Qed.

Lemma process_libation_folder_report mp3_files s :
  exists s' processed skipped,
    process_libation_folder mp3_files s = (Ret tt, s')
    /\ processed_files (self s') = processed_files (self s) ++ processed
    /\ skipped_files (self s') = skipped_files (self s) ++ skipped
    /\ processed ++ skipped ≡ₚ mp3_files
    /\ processed_artists (self s) ⊆ processed_artists (self s').
Proof.
  unfold process_libation_folder. revert s.
  induction mp3_files as [|filepath mp3_files IH]; intros s.
  - exists s, [], []. cbn. rewrite !app_nil_r. by split_and!.
  - cbn [for_each]. unfold bind at 1, bind at 1.
    pose proof (organize_file_recorded filepath (self s) s eq_refl) as Hstep.
    destruct (organize_file filepath s) as [[result|e] s1]; [|done].
    unfold ret at 1. destruct Hstep as [_ Hstep].
    destruct (IH s1) as (s' & ps & ks & -> & Hp & Hk & Hperm & Hart).
    destruct result.
    + destruct Hstep as (Hp1 & Hk1 & Ha1).
      exists s', (filepath :: ps), ks. split_and!; [done | | | |].
      * by rewrite Hp, Hp1, <- List.app_assoc.
      * by rewrite Hk, Hk1.
      * cbn. by rewrite Hperm.
      * set_solver.
    + destruct Hstep as (Hp1 & Hk1 & Ha1).
      exists s', ps, (filepath :: ks). split_and!; [done | | | |].
      * by rewrite Hp, Hp1.
      * by rewrite Hk, Hk1, <- List.app_assoc.
      * rewrite <- Hperm. symmetry. apply Permutation_middle.
      * set_solver.
Qed.

(** X12: [process_libation_folder] never raises, and every file it is
    given ends, under its source path, in exactly one of the two lists of
    the processor; no artist is ever removed from the set of artists. *)
Theorem process_libation_folder_accounts mp3_files s :
  exists s' processed skipped,
    process_libation_folder mp3_files s = (Ret tt, s')
    /\ processed_files (self s') = processed_files (self s) ++ processed
    /\ skipped_files (self s') = skipped_files (self s) ++ skipped
    /\ processed ++ skipped ≡ₚ mp3_files
    /\ processed_artists (self s) ⊆ processed_artists (self s').
Proof. apply process_libation_folder_report. Qed.

End OrganizerReport.

Section OrganizerRuns.
Import Py PyStr FS Organizer.

Lemma makedirs_ok p w :
  fails w (clock w) = false ->
  (forall t, nodes w !! p <> Some (File t)) ->
  makedirs p w = (Ret tt, set_nodes (insert p Dir) (bump w)).
Proof.
  intros Hf Hp. unfold makedirs, bind, tick, get. rewrite Hf. cbn [bump nodes].
  destruct (nodes w !! p) as [[|t]|] eqn:E; try done. by destruct (Hp t).
Qed.

Lemma copy2_ok src dst t w :
  fails w (clock w) = false ->
  nodes w !! src = Some (File t) ->
  nodes w !! dst = None ->
  copy2 src dst w
  = (Ret tt,
     World (<[dst := File t]> (nodes w)) (S (clock w)) (fails w) (recognised w)
       (copies w ++ [(src, dst, false)])).
Proof.
  intros Hf Hsrc Hdst. unfold copy2, bind, tick, get. rewrite Hf. cbn [bump nodes].
  rewrite Hsrc, Hdst. rewrite bool_decide_eq_false_2 by congruence.
  rewrite Hdst. unfold log_copy, modify.
  assert (path_exists (bump w) dst = false) as -> by by apply path_exists_false.
  done.
Qed.

Lemma truthy_empty : Mutagen.truthy ∅ = false.
Proof. unfold Mutagen.truthy. by rewrite bool_decide_eq_true_2. Qed.

Lemma update_audiobook_metadata_run s filepath (audio : Mutagen.ID3) title artist album :
  Mutagen.truthy audio = true ->
  Mutagen.first_text audio "TIT2" "Unknown Title" = Some title ->
  Mutagen.first_text audio "TPE1" "Unknown Artist" = Some artist ->
  Mutagen.first_text audio "TALB" title = Some album ->
  fails (world s) (clock (world s)) = false ->
  nodes (world s) !! filepath <> Some Dir ->
  update_audiobook_metadata filepath (Some audio) s
  = (Ret true,
     State (set_nodes
              (insert filepath
                 (File (Some (Mutagen.saved (new_tags_of audio title artist album)))))
              (bump (world s)))
       (self s)).
Proof.
  intros Ht H1 H2 H3 Hf Hp. destruct s as [w self0]. cbn [world self] in *.
  unfold update_audiobook_metadata, try_except, bind.
  cbn [Mutagen.opt_truthy]. rewrite Ht. unfold ret at 1. rewrite Ht.
  unfold Organizer.first_text. rewrite H1. unfold ret at 1.
  rewrite H2. unfold ret at 1. rewrite H3. unfold ret at 1.
  unfold Organizer.fs, zoom. cbn [world].
  by rewrite id3_save_ok by done.
Qed.

(** X13: when the container of a file cannot be read, because the file
    has none or because the read fails, [organize_file] writes an empty
    container into the source file, copies nothing and records the file as
    skipped. *)
Theorem organize_file_unreadable_tags source_path s :
  (fails (world s) (clock (world s)) = true
   /\ (exists t, nodes (world s) !! source_path = Some (File t)))
  \/ (fails (world s) (clock (world s)) = false
      /\ nodes (world s) !! source_path = Some (File None)) ->
  fails (world s) (S (clock (world s))) = false ->
  exists s',
    organize_file source_path s = (Ret false, s')
    /\ nodes (world s') = <[source_path := File (Some ∅)]> (nodes (world s))
    /\ copies (world s') = copies (world s)
    /\ processed_files (self s') = processed_files (self s)
    /\ skipped_files (self s') = skipped_files (self s) ++ [source_path].
Proof.
  intros Hsrc H1. destruct s as [w p]. cbn [world self] in *.
  unfold organize_file, try_except, bind at 1, get_metadata, try_except.
  unfold bind at 1, fs at 1, zoom. cbn [world self].
  assert (exists e, id3_load source_path w = (Raise e, bump w)) as [e ->].
  { unfold id3_load, bind, tick, get, raise.
    destruct Hsrc as [[-> _] | [-> Hsrc]]; [by eexists|].
    cbn [bump nodes]. rewrite Hsrc. by eexists. }
  lazy beta iota. unfold bind at 1, fs, zoom. cbn [world self].
  rewrite id3_save_ok, saved_empty; [|exact H1|].
  2:{ cbn. destruct Hsrc as [[_ [t ->]] | [_ ->]]; done. }
  unfold ret. cbn [Mutagen.opt_truthy]. rewrite truthy_empty. cbn [negb].
  eexists. split; [reflexivity|]. done.
Qed.

Definition untagged_state : state :=
  State (World {[ "/L/a/track.mp3" := File None ]} 0 (fun _ => false) (fun _ => true) [])
    (Processor "/A" [] [] ∅).

Lemma organize_file_unreadable_tags_witness :
  exists s',
    organize_file "/L/a/track.mp3" untagged_state = (Ret false, s')
    /\ nodes (world s') = <[ "/L/a/track.mp3" := File (Some ∅)]> (nodes (world untagged_state))
    /\ copies (world s') = copies (world untagged_state)
    /\ processed_files (self s') = processed_files (self untagged_state)
    /\ skipped_files (self s') = skipped_files (self untagged_state) ++ ["/L/a/track.mp3"].
Proof.
  apply (organize_file_unreadable_tags "/L/a/track.mp3" untagged_state).
  - right. split; [reflexivity | vm_compute; reflexivity].
  - reflexivity.
Defined.

(** X14: a file with a readable container whose frames give title,
    artist and album is, when no call fails, copied under
    audiobooks_dir/artist/album to the first candidate name that is not in
    use; the copy gets what a save writes of the container of
    [update_audiobook_metadata] (its frames, those with an empty text
    apart), in which the album is the album frame or, without one, the
    title (while the directory is then "Unknown Album"); the source file
    keeps its container, and the file and its artist are recorded as
    processed. *)
Theorem organize_file_places_copy source_path s (audio : Mutagen.ID3)
    title artist album album_tag :
  let w := world s in
  let artist_dir := path_join (audiobooks_dir (self s)) artist in
  let book_dir := path_join artist_dir album in
  let dirs := <[book_dir := Dir]> (<[artist_dir := Dir]> (nodes w)) in
  nodes w !! source_path = Some (File (Some audio)) ->
  Mutagen.truthy audio = true ->
  Mutagen.first_text audio "TIT2" "Unknown Title" = Some title ->
  Mutagen.first_text audio "TPE1" "Unknown Artist" = Some artist ->
  Mutagen.first_text audio "TALB" "Unknown Album" = Some album ->
  Mutagen.first_text audio "TALB" title = Some album_tag ->
  (forall t, nodes w !! artist_dir <> Some (File t)) ->
  (forall t, nodes w !! book_dir <> Some (File t)) ->
  (forall i, i < 5 -> fails w (clock w + i) = false) ->
  exists k s',
    let new_filepath := candidate book_dir (basename source_path) k in
    organize_file source_path s = (Ret true, s')
    /\ dirs !! new_filepath = None
    /\ (forall i, i < k -> is_Some (dirs !! candidate book_dir (basename source_path) i))
    /\ nodes (world s')
       = <[new_filepath :=
             File (Some (Mutagen.saved (new_tags_of audio title artist album_tag)))]> dirs
    /\ nodes (world s') !! source_path = Some (File (Some audio))
    /\ copies (world s') = copies w ++ [(source_path, new_filepath, false)]
    /\ processed_files (self s') = processed_files (self s) ++ [source_path]
    /\ skipped_files (self s') = skipped_files (self s)
    /\ processed_artists (self s') = {[artist]} ∪ processed_artists (self s).
Proof.
  intros w artist_dir book_dir dirs Hsrc Htruthy Ht Ha Halb Htag Hadir Hbdir Hf.
  destruct s as [w0 p]. cbn [world self] in *. subst w.
  pose proof (Hf 0 ltac:(lia)) as H0. pose proof (Hf 1 ltac:(lia)) as H1.
  pose proof (Hf 2 ltac:(lia)) as H2. pose proof (Hf 3 ltac:(lia)) as H3.
  pose proof (Hf 4 ltac:(lia)) as H4.
  rewrite Nat.add_0_r in H0. rewrite Nat.add_1_r in H1.
  replace (clock w0 + 2) with (S (S (clock w0))) in H2 by lia.
  replace (clock w0 + 3) with (S (S (S (clock w0)))) in H3 by lia.
  replace (clock w0 + 4) with (S (S (S (S (clock w0))))) in H4 by lia.
  unfold organize_file, try_except, bind at 1, get_metadata, try_except.
  unfold bind at 1, fs at 1, zoom. cbn [world self].
  rewrite (id3_load_ok _ audio) by done. unfold ret at 1.
  cbn [Mutagen.opt_truthy]. rewrite Htruthy. cbn [negb].
  unfold bind at 1, get_book_info. cbn [Mutagen.opt_truthy]. rewrite Htruthy.
  unfold bind at 1, Organizer.first_text. rewrite Ht. unfold ret at 1.
  unfold bind at 1. rewrite Ha. unfold ret at 1.
  unfold bind at 1. rewrite Halb. unfold ret at 1. unfold ret at 1.
  unfold bind at 1, get. cbn [self audiobooks_dir Organizer.artist Organizer.album].
  fold artist_dir. fold book_dir.
  unfold bind at 1, fs at 1, zoom. cbn [world self].
  rewrite makedirs_ok; [|exact H1|exact Hadir].
  unfold bind at 1, fs at 1, zoom. cbn [world self].
  rewrite makedirs_ok; [|exact H2|].
  2:{ intros t. cbn. destruct (decide (artist_dir = book_dir)) as [<- | Hne].
      - by rewrite lookup_insert_eq.
      - rewrite lookup_insert_ne by done. apply Hbdir. }
  unfold bind at 1. cbn [world self].
  match goal with |- context [plan ?w1 _ _] => set (w2 := w1) end.
  destruct (plan_first_free w2 book_dir (basename source_path)) as (k & -> & Hfree & Hbelow).
  exists k. apply path_exists_false in Hfree.
  assert (nodes w2 = dirs) as Hw2 by done.
  unfold bind at 1, fs at 1, zoom. cbn [world self].
  assert (nodes w2 !! source_path = Some (File (Some audio))) as Hsrc2.
  { rewrite Hw2. unfold dirs.
    rewrite !lookup_insert_ne; [done | |]; intros <-; [by destruct (Hadir (Some audio)) | by destruct (Hbdir (Some audio))]. }
  rewrite (copy2_ok _ _ (Some audio)); [|exact H3|exact Hsrc2|exact Hfree].
  unfold bind at 1.
  rewrite (update_audiobook_metadata_run _ _ audio title artist album_tag); try done.
  2:{ cbn. by rewrite lookup_insert_eq. }
  eexists. split; [reflexivity|].
  split; [exact Hfree|].
  split. { intros i Hi. specialize (Hbelow i Hi). by apply path_exists_dom, elem_of_dom in Hbelow. }
  cbn [world self nodes set_nodes bump copies processed_files skipped_files processed_artists].
  rewrite insert_insert_eq.
  split_and!; try done.
  rewrite lookup_insert_ne; [exact Hsrc2 | congruence].
Qed.

Lemma organize_file_places_copy_witness :
  exists s',
    organize_file "/L/a/01 - The Hobbit.mp3" three_files_state = (Ret true, s')
    /\ nodes (world s') !! "/A/J.R.R. Tolkien/The Hobbit/01 - The Hobbit.mp3"
       = Some (File (Some (Mutagen.saved
                             (new_tags_of hobbit_tags "Chapter 1" "J.R.R. Tolkien"
                                "The Hobbit"))))
    /\ processed_files (self s') = ["/L/a/01 - The Hobbit.mp3"].
Proof.
  destruct (organize_file_places_copy "/L/a/01 - The Hobbit.mp3" three_files_state
              hobbit_tags "Chapter 1" "J.R.R. Tolkien" "The Hobbit" "The Hobbit")
    as (k & s' & Hrun & Hfree & Hbelow & Hnodes & _ & _ & Hp & _).
  - vm_compute. reflexivity.
  - vm_compute. reflexivity.
  - vm_compute. reflexivity.
  - vm_compute. reflexivity.
  - vm_compute. reflexivity.
  - vm_compute. reflexivity.
  - intros t. vm_compute. discriminate.
  - intros t. vm_compute. discriminate.
  - intros i _. reflexivity.
  - exists s'. split; [exact Hrun|]. split; [|exact Hp].
    destruct k as [|k].
    + rewrite Hnodes. apply lookup_insert_eq.
    + destruct (Hbelow 0 ltac:(lia)) as [n Hn]. vm_compute in Hn. discriminate Hn.
Defined.

End OrganizerRuns.

Section OrganizerMain.
Import Py PyStr FS Organizer.

Lemma is_y_lower response :
  response = "y" \/ response = "Y" -> String.eqb (lower response) "y" = true.
Proof. by intros [-> | ->]. Qed.

(** X15: [main] of the organizer processes files only on the answer "y"
    or "Y", and then accounts for every file; on any other answer, or when
    the audiobooks directory cannot be created, nothing is copied and the
    report stays as it was. *)
Theorem organizer_main_asks_first response mp3_files s :
  match main response mp3_files s with
  | (Raise _, s') =>
      copies (world s') = copies (world s) /\ self s' = self s
  | (Ret ran, s') =>
      (ran = true <-> response = "y" \/ response = "Y")
      /\ if ran then
           exists processed skipped,
             processed_files (self s') = processed_files (self s) ++ processed
             /\ skipped_files (self s') = skipped_files (self s) ++ skipped
             /\ processed ++ skipped ≡ₚ mp3_files
         else
           copies (world s') = copies (world s) /\ self s' = self s
           /\ forall p, p <> audiobooks_dir (self s) ->
                nodes (world s') !! p = nodes (world s) !! p
  end.
Proof.
  unfold main, bind at 1, setup_directories, bind at 1, get.
  unfold fs, zoom, makedirs, bind at 1, tick.
  destruct (fails (world s) (clock (world s))); [done|].
  unfold bind at 1, get. cbn [bump nodes].
  destruct (nodes (world s) !! audiobooks_dir (self s)) as [[|t]|] eqn:Hdir; [| done |].
  all: unfold modify; cbn [world self].
  all: destruct (String.eqb (lower response) "y") eqn:Hy.
  all: try (split; [split; [done | by intros ?%is_y_lower; congruence]|];
            split_and!; [done | done |]; intros p Hp; cbn; by rewrite lookup_insert_ne).
  all: unfold bind at 1;
    match goal with |- context [process_libation_folder ?l ?s0] =>
      destruct (process_libation_folder_report l s0)
        as (s' & ps & ks & -> & Hp & Hk & Hperm & _) end;
    unfold ret; split; [split; [by intros _; apply lower_is_y | done]|];
    by exists ps, ks.
Qed.
Lemma organizer_main_asks_first_witness :
  exists s',
    main "n" three_files three_files_state = (Ret false, s')
    /\ copies (world s') = [] /\ self s' = self three_files_state.
Proof.
  pose proof (organizer_main_asks_first "n" three_files three_files_state) as H.
  destruct (main "n" three_files three_files_state) as [[[|]|e] s'] eqn:E.
  - destruct H as [[H _] _]. destruct (H eq_refl) as [H' | H']; discriminate H'.
  - exists s'. destruct H as (_ & Hc & Hs & _). by split_and!.
  - vm_compute in E. discriminate E.
Defined.

End OrganizerMain.

(* ===================================================================== *)
(** * More about the walk of [process_audiobooks] *)
(* ===================================================================== *)

Section LiberateRuns.
Import Py PyStr FS Liberate.

Lemma copy2_run src dst t w :
  fails w (clock w) = false ->
  nodes w !! src = Some (File t) ->
  nodes w !! dst <> Some Dir ->
  dst <> src ->
  copy2 src dst w
  = (Ret tt,
     World (<[dst := File t]> (nodes w)) (S (clock w)) (fails w) (recognised w)
       (copies w ++ [(src, dst, path_exists w dst)])).
Proof.
  intros Hf Hsrc Hdst Hne. unfold copy2, bind, tick, get. rewrite Hf. cbn [bump nodes].
  rewrite Hsrc.
  assert ((match nodes w !! dst with Some Dir => path_join dst (basename src) | _ => dst end)
          = dst) as ->.
  { by destruct (nodes w !! dst) as [[|?]|]. }
  rewrite bool_decide_eq_false_2 by done.
  destruct (nodes w !! dst) as [[|?]|] eqn:E; done.
Qed.

Lemma tick_fails w : fails w (clock w) = true -> tick w = (Raise Error, bump w).
Proof. intros H. unfold tick. by rewrite H. Qed.

Lemma id3_load_fails p w :
  fails w (clock w) = true -> id3_load p w = (Raise Error, bump w).
Proof. intros H. unfold id3_load, bind. by rewrite tick_fails. Qed.

Lemma id3_save_fails p tags w :
  fails w (clock w) = true -> id3_save p tags w = (Raise Error, bump w).
Proof. intros H. unfold id3_save, bind. by rewrite tick_fails. Qed.

(** The match of a file and the places its copy goes through. *)
Record placement : Type := Placement {
  pl_filepath : string;
  pl_author_dir : string;
  pl_book_dir : string;
  pl_new_filepath : string
}.

Definition placement_of (audiobooks_dir root file : string) (b : book) : placement :=
  let author_dir := path_join audiobooks_dir (author b) in
  let book_dir := path_join author_dir (title b) in
  Placement (path_join root file) author_dir book_dir (path_join book_dir file).

(** What the first three calls of a matched file need to succeed. *)
Definition placeable (audiobooks : PyDict.dict book) (audiobooks_dir root file : string)
    (b : book) (tags : option Mutagen.ID3) (w : FS.world) : Prop :=
  let pl := placement_of audiobooks_dir root file b in
  endswith (lower file) ".mp3" = true
  /\ (exists key, find_matching_audiobook (pl_filepath pl) audiobooks = Some key
                  /\ truthy key = true /\ PyDict.get key audiobooks = Some b)
  /\ nodes w !! pl_filepath pl = Some (File tags)
  /\ (forall t, nodes w !! pl_author_dir pl <> Some (File t))
  /\ (forall t, nodes w !! pl_book_dir pl <> Some (File t))
  /\ <[pl_book_dir pl := Dir]> (<[pl_author_dir pl := Dir]> (nodes w)) !! pl_new_filepath pl
     <> Some Dir
  /\ pl_new_filepath pl <> pl_filepath pl
  /\ (forall i, i < 3 -> fails w (clock w + i) = false).

(** The state after the two directories and the copy. *)
Definition copied (pl : placement) (tags : option Mutagen.ID3) (w : FS.world) : FS.world :=
  let dirs := <[pl_book_dir pl := Dir]> (<[pl_author_dir pl := Dir]> (nodes w)) in
  World (<[pl_new_filepath pl := File tags]> dirs) (clock w + 3) (fails w) (recognised w)
    (copies w
     ++ [(pl_filepath pl, pl_new_filepath pl, bool_decide (is_Some (dirs !! pl_new_filepath pl)))]).

Lemma process_body_copies audiobooks audiobooks_dir root file b tags s :
  placeable audiobooks audiobooks_dir root file b tags (world s) ->
  process_body audiobooks audiobooks_dir root file s
  = bind (update_metadata (pl_new_filepath (placement_of audiobooks_dir root file b)) b)
      (fun _ => processed_append file)
      (State (copied (placement_of audiobooks_dir root file b) tags (world s))
         (processed_files s) (skipped_files s)).
Proof.
  intros (Hmp3 & (key & Hkey & Htruthy & Hget) & Hsrc & Hadir & Hbdir & Hdst & Hne & Hf).
  destruct s as [w ps ks]. cbn [world processed_files skipped_files] in *.
  pose proof (Hf 0 ltac:(lia)) as H0. pose proof (Hf 1 ltac:(lia)) as H1.
  pose proof (Hf 2 ltac:(lia)) as H2.
  rewrite Nat.add_0_r in H0. rewrite Nat.add_1_r in H1.
  replace (clock w + 2) with (S (S (clock w))) in H2 by lia.
  unfold placement_of in *. cbn [pl_filepath pl_author_dir pl_book_dir pl_new_filepath] in *.
  unfold process_body. rewrite Hkey. unfold process_match. rewrite Htruthy, Hget.
  unfold bind at 1, fs at 1, zoom. cbn [world processed_files skipped_files].
  rewrite makedirs_ok; [|exact H0|exact Hadir].
  unfold bind at 1, fs at 1, zoom. cbn [world processed_files skipped_files].
  rewrite makedirs_ok; [|exact H1|].
  2:{ intros t. cbn.
      destruct (decide (path_join audiobooks_dir (author b)
                        = path_join (path_join audiobooks_dir (author b)) (title b)))
        as [<- | Hneq].
      - by rewrite lookup_insert_eq.
      - rewrite lookup_insert_ne by done. apply Hbdir. }
  unfold bind at 1, fs at 1, zoom. cbn [world processed_files skipped_files].
  rewrite (copy2_run _ _ tags); [|exact H2| |exact Hdst|exact Hne].
  2:{ cbn. rewrite !lookup_insert_ne; [done | |]; intros Heq.
      - rewrite <- Heq in Hsrc. by destruct (Hadir tags).
      - rewrite <- Heq in Hsrc. by destruct (Hbdir tags). }
  unfold copied. cbn [pl_filepath pl_author_dir pl_book_dir pl_new_filepath].
  cbn [nodes set_nodes bump clock fails recognised copies].
  replace (clock w + 3) with (S (S (S (clock w)))) by lia.
  done.
Qed.

Lemma process_file_body audiobooks audiobooks_dir root file s :
  endswith (lower file) ".mp3" = true ->
  process_file audiobooks audiobooks_dir root file s
  = try_except (process_body audiobooks audiobooks_dir root file)
      (fun _ => skipped_append file) s.
Proof. intros H. unfold process_file. by rewrite H. Qed.

Lemma update_metadata_state s new_filepath b (tags : Mutagen.ID3) :
  nodes (world s) !! new_filepath = Some (File (Some tags)) ->
  (forall i, i < 4 -> fails (world s) (clock (world s) + i) = false) ->
  update_metadata new_filepath b s
  = (Ret tt,
     State (World (<[new_filepath := File (Some (Mutagen.saved (fuse b tags)))]>
                     (nodes (world s)))
              (clock (world s) + 4) (fails (world s)) (recognised (world s))
              (copies (world s)))
       (processed_files s) (skipped_files s)).
Proof.
  intros Hp Hf. destruct s as [w ps ks]. cbn [world processed_files skipped_files] in *.
  pose proof (Hf 0 ltac:(lia)) as H0. pose proof (Hf 1 ltac:(lia)) as H1.
  pose proof (Hf 2 ltac:(lia)) as H2. pose proof (Hf 3 ltac:(lia)) as H3.
  rewrite Nat.add_0_r in H0. rewrite Nat.add_1_r in H1.
  replace (clock w + 2) with (S (S (clock w))) in H2 by lia.
  replace (clock w + 3) with (S (S (S (clock w)))) in H3 by lia.
  unfold update_metadata, open_easy, fs, zoom, bind, try_except, ret.
  cbn [world processed_files skipped_files].
  rewrite (id3_load_ok _ tags) by done.
  cbn [h_filename h_tags world].
  rewrite id3_save_ok; [|exact H1|cbn; by rewrite Hp].
  cbn [world].
  rewrite (id3_load_ok _ (Mutagen.saved (set_book_tags b tags)));
    [|exact H2|cbn; apply lookup_insert_eq].
  rewrite id3_save_ok; [|exact H3|cbn; by rewrite lookup_insert_eq].
  unfold set_nodes, bump.
  cbn [world processed_files skipped_files nodes clock fails recognised copies].
  rewrite insert_insert_eq, saved_fuse.
  replace (clock w + 4) with (S (S (S (S (clock w))))) by lia.
  done.
Qed.

(** X16: a matched audio file whose container can be read is, when no
    call fails, copied to audiobooks_dir/author/title/file, over a file that
    may be there already; the copy gets what the saves write of the fused
    container (its frames, those with an empty text apart), the source file
    keeps its own, and the file name is recorded as processed. *)
Theorem process_file_places_copy audiobooks audiobooks_dir root file b (tags : Mutagen.ID3) s :
  let pl := placement_of audiobooks_dir root file b in
  let w := world s in
  let dirs := <[pl_book_dir pl := Dir]> (<[pl_author_dir pl := Dir]> (nodes w)) in
  placeable audiobooks audiobooks_dir root file b (Some tags) w ->
  (forall i, i < 7 -> fails w (clock w + i) = false) ->
  exists s',
    process_file audiobooks audiobooks_dir root file s = (Ret tt, s')
    /\ nodes (world s')
       = <[pl_new_filepath pl := File (Some (Mutagen.saved (fuse b tags)))]> dirs
    /\ nodes (world s') !! pl_filepath pl = Some (File (Some tags))
    /\ copies (world s')
       = copies w ++ [(pl_filepath pl, pl_new_filepath pl,
                       bool_decide (is_Some (dirs !! pl_new_filepath pl)))]
    /\ processed_files s' = processed_files s ++ [file]
    /\ skipped_files s' = skipped_files s.
Proof.
  intros pl w dirs Hpl Hf.
  pose proof Hpl as (Hmp3 & _ & Hsrc & Hadir & Hbdir & _ & Hne & _).
  fold pl in Hsrc, Hadir, Hbdir, Hne.
  rewrite process_file_body by done. unfold try_except.
  rewrite (process_body_copies _ _ _ _ b (Some tags)) by done.
  fold pl. unfold bind at 1.
  rewrite (update_metadata_state _ _ _ tags).
  2:{ cbn. apply lookup_insert_eq. }
  2:{ intros i Hi. cbn. replace (clock (world s) + 3 + i) with (clock w + (3 + i)) by (subst w; lia).
      apply Hf. lia. }
  eexists. split; [reflexivity|]. unfold processed_append, modify.
  cbn [world processed_files skipped_files copied nodes copies].
  rewrite insert_insert_eq. split_and!; try done.
  rewrite lookup_insert_ne by done.
  rewrite !lookup_insert_ne; [done | |]; intros Heq.
  - apply (Hadir (Some tags)). by rewrite Heq.
  - apply (Hbdir (Some tags)). by rewrite Heq.
Qed.

(** X17: nothing is rolled back.  When the two directories and the copy
    succeed and one of the four tagging calls fails, the file is recorded as
    skipped although its copy stays at the destination, with the container
    of the source or with what the first save wrote of the fields of the
    record. *)
Theorem copy_stays_when_tagging_fails audiobooks audiobooks_dir root file b
    (tags : Mutagen.ID3) s :
  let pl := placement_of audiobooks_dir root file b in
  let w := world s in
  placeable audiobooks audiobooks_dir root file b (Some tags) w ->
  (exists j, 3 <= j < 7 /\ fails w (clock w + j) = true) ->
  exists s' t,
    process_file audiobooks audiobooks_dir root file s = (Ret tt, s')
    /\ nodes (world s') !! pl_new_filepath pl = Some (File (Some t))
    /\ (t = tags \/ t = Mutagen.saved (set_book_tags b tags))
    /\ copies (world s') = copies (copied pl (Some tags) w)
    /\ processed_files s' = processed_files s
    /\ skipped_files s' = skipped_files s ++ [file].
Proof.
  intros pl w Hpl (j & Hj & Hfail).
  pose proof Hpl as (Hmp3 & _).
  rewrite process_file_body by done. unfold try_except.
  rewrite (process_body_copies _ _ _ _ b (Some tags)) by done.
  fold pl. fold w. unfold bind at 1.
  set (w3 := copied pl (Some tags) w).
  assert (nodes w3 !! pl_new_filepath pl = Some (File (Some tags))) as Hnew
    by apply lookup_insert_eq.
  assert (clock w3 = clock w + 3) as Hclock by done.
  assert (fails w3 = fails w) as Hfails by done.
  unfold update_metadata, open_easy, try_except.
  unfold bind at 1. unfold bind at 1. unfold fs at 1, zoom.
  cbn [world processed_files skipped_files].
  destruct (fails w (clock w + 3)) eqn:F3.
  { rewrite id3_load_fails by (rewrite Hfails, Hclock; exact F3).
    unfold raise. eexists _, tags. split; [reflexivity|].
    cbn [world processed_files skipped_files bump nodes copies skipped_append modify].
    split_and!; try done. by left. }
  rewrite (id3_load_ok _ tags); [|by rewrite Hfails, Hclock|exact Hnew].
  unfold ret at 1. cbn [h_filename h_tags].
  unfold bind at 1, fs at 1, zoom. cbn [world processed_files skipped_files].
  destruct (fails w (clock w + 4)) eqn:F4.
  { rewrite id3_save_fails.
    2:{ cbn [bump fails clock]. rewrite Hfails, Hclock.
        by replace (S (clock w + 3)) with (clock w + 4) by lia. }
    eexists _, tags. split; [reflexivity|].
    cbn [world processed_files skipped_files bump nodes copies skipped_append modify].
    split_and!; try done. by left. }
  rewrite id3_save_ok.
  2:{ cbn [bump fails clock]. rewrite Hfails, Hclock.
      by replace (S (clock w + 3)) with (clock w + 4) by lia. }
  2:{ cbn [bump nodes]. by rewrite Hnew. }
  unfold bind at 1, fs at 1, zoom. cbn [world processed_files skipped_files].
  destruct (fails w (clock w + 5)) eqn:F5.
  { rewrite id3_load_fails.
    2:{ cbn [set_nodes bump fails clock]. rewrite Hfails, Hclock.
        by replace (S (S (clock w + 3))) with (clock w + 5) by lia. }
    eexists _, (Mutagen.saved (set_book_tags b tags)). split; [reflexivity|].
    cbn [world processed_files skipped_files set_nodes bump nodes copies skipped_append modify].
    split_and!; try done; [apply lookup_insert_eq | by right]. }
  rewrite (id3_load_ok _ (Mutagen.saved (set_book_tags b tags))).
  2:{ cbn [set_nodes bump fails clock]. rewrite Hfails, Hclock.
      by replace (S (S (clock w + 3))) with (clock w + 5) by lia. }
  2:{ cbn [set_nodes bump nodes]. apply lookup_insert_eq. }
  unfold fs at 1, zoom. cbn [world processed_files skipped_files].
  destruct (fails w (clock w + 6)) eqn:F6.
  { rewrite id3_save_fails.
    2:{ cbn [set_nodes bump fails clock]. rewrite Hfails, Hclock.
        by replace (S (S (S (clock w + 3)))) with (clock w + 6) by lia. }
    eexists _, (Mutagen.saved (set_book_tags b tags)). split; [reflexivity|].
    cbn [world processed_files skipped_files set_nodes bump nodes copies skipped_append modify].
    split_and!; try done; [apply lookup_insert_eq | by right]. }
  exfalso.
  assert (j = 3 \/ j = 4 \/ j = 5 \/ j = 6) as [-> | [-> | [-> | ->]]] by lia; congruence.
Qed.

Definition hobbit_record : book :=
  Book "The Hobbit" "J.R.R. Tolkien" "Rob Inglis" "" "".

Definition failing_world (n : nat) : FS.world :=
  World (nodes two_copies_world) 0 (fails_at n) (fun _ => true) [].

Lemma hobbit_placeable n :
  3 <= n ->
  placeable hobbit_catalog "/M/Audiobooks" "/M/Music/a" "The Hobbit.mp3" hobbit_record
    (Some hobbit_tags) (failing_world n).
Proof.
  intros Hn. unfold placeable. split_and!.
  - vm_compute. reflexivity.
  - exists "the hobbit". vm_compute. by split_and!.
  - vm_compute. reflexivity.
  - intros t. vm_compute. discriminate.
  - intros t. vm_compute. discriminate.
  - vm_compute. discriminate.
  - vm_compute. discriminate.
  - intros i Hi. cbn. unfold fails_at. apply Nat.eqb_neq. lia.
Defined.

Lemma process_file_places_copy_witness :
  exists s',
    process_file hobbit_catalog "/M/Audiobooks" "/M/Music/a" "The Hobbit.mp3"
      (State (failing_world 7) [] []) = (Ret tt, s')
    /\ nodes (world s') !! "/M/Audiobooks/J.R.R. Tolkien/The Hobbit/The Hobbit.mp3"
       = Some (File (Some (Mutagen.saved (fuse hobbit_record hobbit_tags))))
    /\ processed_files s' = ["The Hobbit.mp3"].
Proof.
  destruct (process_file_places_copy hobbit_catalog "/M/Audiobooks" "/M/Music/a"
              "The Hobbit.mp3" hobbit_record hobbit_tags (State (failing_world 7) [] []))
    as (s' & Hrun & Hnodes & _ & _ & Hp & _).
  - apply hobbit_placeable. lia.
  - intros i Hi. cbn. unfold fails_at. apply Nat.eqb_neq. lia.
  - exists s'. split; [exact Hrun|]. split; [|exact Hp].
    rewrite Hnodes. apply lookup_insert_eq.
Defined.

Lemma copy_stays_when_tagging_fails_witness :
  exists s' t,
    process_file hobbit_catalog "/M/Audiobooks" "/M/Music/a" "The Hobbit.mp3"
      (State (failing_world 4) [] []) = (Ret tt, s')
    /\ nodes (world s') !! "/M/Audiobooks/J.R.R. Tolkien/The Hobbit/The Hobbit.mp3"
       = Some (File (Some t))
    /\ skipped_files s' = ["The Hobbit.mp3"].
Proof.
  destruct (copy_stays_when_tagging_fails hobbit_catalog "/M/Audiobooks" "/M/Music/a"
              "The Hobbit.mp3" hobbit_record hobbit_tags (State (failing_world 4) [] []))
    as (s' & t & Hrun & Hnodes & _ & _ & _ & Hk).
  - apply hobbit_placeable. lia.
  - exists 4. split; [lia | reflexivity].
  - exists s', t. split; [exact Hrun|]. split; [exact Hnodes | exact Hk].
Defined.

End LiberateRuns.

Section FreshContainer.
Import Py PyStr FS Liberate.

Lemma saved_present (tags : Mutagen.ID3) id text :
  tags !! id = Some (Mutagen.TextFrame id 3 [text]) ->
  truthy text = true ->
  is_Some (Mutagen.saved tags !! id).
Proof.
  intros H Ht. rewrite (saved_text_frame _ _ _ H). unfold written_text.
  rewrite Ht. by eexists.
Qed.

(** X18: a copy without a container that mutagen recognises gets, when no
    call fails, a new container that holds those of the eight frames of the
    record whose text is not empty, and nothing else: all eight for a record
    with a title, an author and a narrator, and neither an album artist nor
    a composer for a record without a narrator. *)
Theorem update_metadata_creates_container s new_filepath b :
  nodes (world s) !! new_filepath = Some (File None) ->
  recognised (world s) new_filepath = true ->
  (forall i, i < 5 -> fails (world s) (clock (world s) + i) = false) ->
  exists s' new_tags,
    update_metadata new_filepath b s = (Ret tt, s')
    /\ nodes (world s') !! new_filepath = Some (File (Some new_tags))
    /\ (forall key, is_Some (new_tags !! key) -> In key liberate_ids)
    /\ (truthy (title b) = true -> truthy (author b) = true ->
        truthy (narrator b) = true ->
        forall key, In key liberate_ids -> is_Some (new_tags !! key))
    /\ (narrator b = EmptyString ->
        new_tags !! "TPE2" = None /\ new_tags !! "TCOM" = None).
Proof.
  intros Hp Hrec Hf. destruct s as [w ps ks]. cbn [world] in *.
  pose proof (Hf 0 ltac:(lia)) as H0. pose proof (Hf 1 ltac:(lia)) as H1.
  pose proof (Hf 2 ltac:(lia)) as H2. pose proof (Hf 3 ltac:(lia)) as H3.
  pose proof (Hf 4 ltac:(lia)) as H4.
  rewrite Nat.add_0_r in H0. rewrite Nat.add_1_r in H1.
  replace (clock w + 2) with (S (S (clock w))) in H2 by lia.
  replace (clock w + 3) with (S (S (S (clock w)))) in H3 by lia.
  replace (clock w + 4) with (S (S (S (S (clock w))))) in H4 by lia.
  unfold update_metadata, open_easy, try_except.
  unfold bind at 1. unfold bind at 1. unfold fs at 1, zoom.
  cbn [world processed_files skipped_files].
  assert (id3_load new_filepath w = (Raise ID3NoHeaderError, bump w)) as ->.
  { unfold id3_load, bind, tick, get, raise. rewrite H0. cbn [bump nodes]. by rewrite Hp. }
  unfold bind at 1, fs at 1, zoom. cbn [world processed_files skipped_files].
  assert (mutagen_File new_filepath (bump w) = (Ret true, bump (bump w))) as ->.
  { unfold mutagen_File, bind, tick, get, ret. cbn [bump fails clock]. rewrite H1.
    cbn [bump nodes recognised]. by rewrite Hp, Hrec. }
  unfold ret at 1. cbn [h_filename h_tags].
  unfold bind at 1, fs at 1, zoom. cbn [world processed_files skipped_files].
  rewrite id3_save_ok; [|exact H2|cbn; by rewrite Hp].
  unfold bind at 1, fs at 1, zoom. cbn [world processed_files skipped_files].
  rewrite (id3_load_ok _ (Mutagen.saved (set_book_tags b ∅)));
    [|exact H3|cbn; apply lookup_insert_eq].
  unfold fs, zoom. cbn [world processed_files skipped_files].
  rewrite id3_save_ok; [|exact H4|cbn; by rewrite lookup_insert_eq].
  rewrite saved_fuse.
  eexists _, (Mutagen.saved (fuse b ∅)). split; [reflexivity|].
  split; [cbn; apply lookup_insert_eq|].
  destruct (fuse_fields b ∅) as (E1 & E2 & E3 & E4 & E5 & E6 & E7 & E8).
  split_and!.
  - intros key [f Hsome]. destruct (decide (In key liberate_ids)) as [|Hn]; [done|].
    apply saved_lookup_Some in Hsome as [Hsome _].
    by rewrite fuse_other, lookup_empty in Hsome.
  - intros Ht Ha Hn key Hin.
    assert (truthy (if truthy (series b) then series b +:+ " - " +:+ title b
                    else title b) = true) as Halbum.
    { destruct (series b); [exact Ht | done]. }
    destruct Hin as [<- | [<- | [<- | [<- | [<- | [<- | [<- | [<- | []]]]]]]]].
    + by apply (saved_present _ _ _ E1).
    + by apply (saved_present _ _ _ E2).
    + by apply (saved_present _ _ _ E7).
    + by apply (saved_present _ _ _ E3).
    + by apply (saved_present _ _ _ E4).
    + by apply (saved_present _ _ _ E8).
    + by apply (saved_present _ _ _ E5).
    + by apply (saved_present _ _ _ E6).
  - intros Hn. rewrite !saved_lookup, E7, E8, Hn. done.
Qed.

Lemma update_metadata_creates_container_witness :
  exists s' new_tags,
    update_metadata "/A/track.mp3" hobbit_record
      (State (World {[ "/A/track.mp3" := File None ]} 0 (fun _ => false) (fun _ => true) [])
         [] [])
    = (Ret tt, s')
    /\ nodes (world s') !! "/A/track.mp3" = Some (File (Some new_tags))
    /\ is_Some (new_tags !! "TPE2")
    /\ is_Some (new_tags !! "TCOM").
Proof.
  destruct (update_metadata_creates_container
              (State (World {[ "/A/track.mp3" := File None ]} 0 (fun _ => false)
                        (fun _ => true) []) [] [])
              "/A/track.mp3" hobbit_record)
    as (s' & new_tags & Hrun & Hnew & _ & Hall & _).
  - vm_compute. reflexivity.
  - reflexivity.
  - intros i _. reflexivity.
  - exists s', new_tags. split_and!; [exact Hrun | exact Hnew | |].
    + apply Hall; try reflexivity. vm_compute. tauto.
    + apply Hall; try reflexivity. vm_compute. tauto.
Defined.

End FreshContainer.

Section CaseInsensitivePruning.
Import Py PyStr Cleaner Catalog.

(** X19: a folder is selected when its name and the name of an author of
    the catalog are, surrounding whitespace removed, the same up to case. *)
Theorem folder_matches_author_up_to_case rows S r a folder_name :
  In r rows -> In a (split_on "," (Authors r)) -> truthy (strip a) = true ->
  lower (strip folder_name) = lower (strip a) ->
  should_remove_folder (authors_of rows S) folder_name = true.
Proof.
  intros Hr Ha Ht Hcase. apply should_remove_folder_iff.
  exists (lower (strip folder_name)). split; [cbn; tauto|].
  rewrite Hcase. apply (authors_of_variants rows S r a Hr Ha Ht).
  unfold author_variants. set_solver.
Qed.

Lemma folder_matches_author_up_to_case_witness :
  should_remove_folder (authors_of [Row "A Book" "JANE DOE, John Roe" "" "" ""] ∅)
    " Jane Doe " = true.
Proof.
  apply (folder_matches_author_up_to_case [Row "A Book" "JANE DOE, John Roe" "" "" ""] ∅
           (Row "A Book" "JANE DOE, John Roe" "" "" "") "JANE DOE" " Jane Doe ").
  - by left.
  - vm_compute. by left.
  - reflexivity.
  - vm_compute. reflexivity.
Defined.

End CaseInsensitivePruning.
